(** * ngfg: the field service and the sheet manager

    A shallow embedding of [src/app/services/field.py] (class [FieldService])
    and of [SheetManager.lists_to_list] from [src/app/helper/sheet_manager.py],
    with the properties of the field-configuration engine stated over it.

    Python code that raises is modelled by an outcome type, the SQLAlchemy
    session by an explicit store threaded through every call, and the
    calls made to the store services by a trace next to it. *)

From Stdlib Require Import ZArith List Ascii Lia.
From stdpp Require Import base strings gmap list.

Local Open Scope string_scope.
Local Open Scope Z_scope.
Local Set Warnings "-register-all".

(** ** Errors *)

(** The domain errors imported from [app.helper.errors], and the three
    built-in exceptions the service code can run into: attribute access on
    [None], a missing dictionary key, and [dict.update(None)]. *)
Inductive Error : Type :=
| FieldNotExist
| ChoiceNotSend
| SettingAutocompleteNotExist
| FieldAlreadyExist
| ChoiceOptionNotCreated
| ChoiceOptionNotDeleted
| FieldRangeNotDeleted
| AttributeError
| KeyError
| TypeError.

#[global] Instance Error_eq_dec : EqDecision Error.
Proof. solve_decision. Defined.

Inductive Outcome (A : Type) : Type :=
| Return (a : A)
| Raise (e : Error).
Arguments Return {A} a.
Arguments Raise {A} e.

(** ** Rows of the relational store *)

Record Field : Type := mkField {
  f_id : Z;
  f_name : string;
  f_owner_id : Z;
  f_field_type : Z;
  f_is_strict : bool
}.

Record Range : Type := mkRange {
  r_id : Z;
  r_min : option Z;
  r_max : option Z
}.

Record FieldRange : Type := mkFieldRange {
  fr_field_id : Z;
  fr_range_id : Z
}.

Record ChoiceOption : Type := mkChoiceOption {
  co_id : Z;
  co_field_id : Z;
  co_option_text : string
}.

Record SettingAutocomplete : Type := mkSetting {
  sa_id : Z;
  sa_data_url : string;
  sa_sheet : string;
  sa_from_row : string;
  sa_to_row : string;
  sa_field_id : Z
}.

(** The session's view of the database: one list of rows per table and the
    next primary key to hand out. *)
Record DB : Type := mkDB {
  fields : list Field;
  ranges : list Range;
  field_ranges : list FieldRange;
  choice_options : list ChoiceOption;
  settings : list SettingAutocomplete;
  next_id : Z
}.

(** ** JSON-shaped results *)

Inductive Value : Type :=
| VBool (b : bool)
| VInt (z : Z)
| VStr (s : string)
| VList (l : list string)
| VRange (mn mx : option Z)
| VSetting (data_url sheet from_row to_row : string).

(** A Python [dict] with string keys. *)
Abbreviation Dict := (gmap string Value).

(** ** Calls to the store *)

Inductive Call : Type :=
| Field_add | Field_get | Field_merge
| Range_create | Range_get_by_id
| FieldRange_create | FieldRange_update | FieldRange_delete
| FieldRange_get_by_field_id
| ChoiceOption_create | ChoiceOption_filter
| ChoiceOption_get_by_field_and_text | ChoiceOption_delete
| Setting_create | Setting_get_by_field_id | Setting_update.

(** The calls that write a Range row or a Field-Range link. *)
Definition is_range_write (c : Call) : bool :=
  match c with
  | Range_create | FieldRange_create | FieldRange_update | FieldRange_delete => true
  | _ => false
  end.

Record World : Type := mkWorld {
  store : DB;
  trace : list Call
}.

(** ** The monad of service code: state and exceptions *)

Definition M (A : Type) : Type := World -> Outcome A * World.

Definition ret {A} (a : A) : M A := fun w => (Return a, w).
Definition raise {A} (e : Error) : M A := fun w => (Raise e, w).
Definition bind {A B} (m : M A) (k : A -> M B) : M B :=
  fun w => match m w with
           | (Return a, w') => k a w'
           | (Raise e, w') => (Raise e, w')
           end.

Notation "'let*' x ':=' m 'in' k" := (bind m (fun x => k))
  (at level 10, x name, m at level 100, k at level 200).

Definition call (c : Call) : M unit :=
  fun w => (Return tt, mkWorld (store w) (trace w ++ [c])).
Definition get_db : M DB := fun w => (Return (store w), w).
Definition set_db (d : DB) : M unit := fun w => (Return tt, mkWorld d (trace w)).

(** [try: body except e: handler]. *)
Definition try_except {A} (body : M A) (e : Error) (handler : M A) : M A :=
  fun w => match body w with
           | (Raise e', w') => if decide (e' = e) then handler w' else (Raise e', w')
           | r => r
           end.

(** Attribute access [x.attr] on a value that may be [None]. *)
Definition attr {A B} (x : option A) (f : A -> B) : M B :=
  match x with
  | Some a => ret (f a)
  | None => raise AttributeError
  end.

(** [for x in l: body x]. *)
Fixpoint for_each {A} (l : list A) (body : A -> M unit) : M unit :=
  match l with
  | [] => ret tt
  | x :: rest => let* _ := body x in for_each rest body
  end.

(** Python truthiness of a list argument that may be [None]. *)
Definition truthy {A} (l : option (list A)) : bool :=
  match l with
  | Some (_ :: _) => true
  | _ => false
  end.

Definition items {A} (l : option (list A)) : list A := default [] l.

(** [x is not None]. *)
Definition is_not_None {A} (x : option A) : bool :=
  match x with Some _ => true | None => false end.

(** ** Collaborators that are not part of the two source files *)

Inductive FieldType : Type :=
| Text | Number | TextArea | Radio | Autocomplete | Checkbox.

Inductive Schema : Type :=
| BasicField
| FieldNumberTextSchema
| FieldRadioSchema
| FieldCheckboxSchema
| FieldSettingAutocompleteSchema.

(** What the service imports and this development takes as given:
    the constraints the database enforces when a unit of work commits,
    the integer behind every member of the [FieldType] enumeration, and
    what each marshmallow schema dumps for a Field instance (or [None]). *)
Record Collab : Type := mkCollab {
  integrity : DB -> bool;
  FieldType_value : FieldType -> Z;
  dump : Schema -> option Field -> Dict
}.

(** ** The unit of work *)

(** Modelled from the spec: [app.helper.decorators.transaction_decorator] is
    not among the source files. It wraps every mutating entry point in one
    atomic unit of work: the writes of [func] are committed together when it
    returns, and rolled back when it raises, the error going on to the
    caller. A constraint violation surfaced by the store at commit rolls the
    writes back as well and makes the call yield no instance ([None]). The
    trace records the calls that were made, rolled back or not. *)
Definition transaction_decorator (C : Collab) {A} (func : M A) : M (option A) :=
  fun w =>
    match func w with
    | (Return result, w') =>
        if integrity C (store w')
        then (Return (Some result), w')
        else (Return None, mkWorld (store w) (trace w'))
    | (Raise e, w') => (Raise e, mkWorld (store w) (trace w'))
    end.

(** A store call that may itself report not-found by [None]. *)
Definition flatten {A} (m : M (option (option A))) : M (option A) :=
  let* r := m in ret (mjoin r).

Definition with_fields (d : DB) (l : list Field) : DB :=
  mkDB l (ranges d) (field_ranges d) (choice_options d) (settings d) (next_id d).
Definition with_ranges (d : DB) (l : list Range) : DB :=
  mkDB (fields d) l (field_ranges d) (choice_options d) (settings d) (next_id d).
Definition with_field_ranges (d : DB) (l : list FieldRange) : DB :=
  mkDB (fields d) (ranges d) l (choice_options d) (settings d) (next_id d).
Definition with_choice_options (d : DB) (l : list ChoiceOption) : DB :=
  mkDB (fields d) (ranges d) (field_ranges d) l (settings d) (next_id d).
Definition with_settings (d : DB) (l : list SettingAutocomplete) : DB :=
  mkDB (fields d) (ranges d) (field_ranges d) (choice_options d) l (next_id d).
Definition bump (d : DB) : DB :=
  mkDB (fields d) (ranges d) (field_ranges d) (choice_options d) (settings d)
       (next_id d + 1).

(** ** The auxiliary stores *)

Module RangeService.

(** Modelled from the spec: [app.services.range.RangeService] is not among
    the source files; minimal CRUD, [create(attrs) -> instance | none]. A
    Range is a fresh row on every create. *)
Definition create (C : Collab) (range_min range_max : option Z)
  : M (option Range) :=
  transaction_decorator C (
    let* _ := call Range_create in
    let* d := get_db in
    let instance := mkRange (next_id d) range_min range_max in
    let* _ := set_db (bump (with_ranges d (ranges d ++ [instance]))) in
    ret instance).

(** Modelled from the spec: [get_by_id -> instance | none]. *)
Definition get_by_id (range_id : Z) : M (option Range) :=
  let* _ := call Range_get_by_id in
  let* d := get_db in
  ret (find (fun r => r_id r =? range_id) (ranges d)).

End RangeService.

Module FieldRangeService.

(** Modelled from the spec: [app.services.field_range.FieldRangeService]
    is not among the source files; [get_by_field_id -> instance | none]. *)
Definition get_by_field_id (field_id : Z) : M (option FieldRange) :=
  let* _ := call FieldRange_get_by_field_id in
  let* d := get_db in
  ret (find (fun l => fr_field_id l =? field_id) (field_ranges d)).

(** Modelled from the spec: a link row is created when a range is first
    attached to a field. *)
Definition create (C : Collab) (field_id range_id : Z)
  : M (option FieldRange) :=
  transaction_decorator C (
    let* _ := call FieldRange_create in
    let* d := get_db in
    let instance := mkFieldRange field_id range_id in
    let* _ := set_db (with_field_ranges d (field_ranges d ++ [instance])) in
    ret instance).

(** Modelled from the spec: the link of the field gets the new range
    reference; [none] when the field has no link. *)
Definition update (C : Collab) (field_id range_id : Z)
  : M (option FieldRange) :=
  flatten (transaction_decorator C (
    let* _ := call FieldRange_update in
    let* d := get_db in
    match find (fun l => fr_field_id l =? field_id) (field_ranges d) with
    | None => ret None
    | Some _ =>
        let instance := mkFieldRange field_id range_id in
        let* _ := set_db (with_field_ranges d
                   (map (fun l => if fr_field_id l =? field_id
                                  then instance else l) (field_ranges d))) in
        ret (Some instance)
    end)).

(** Modelled from the spec: deleting removes the link row of the field;
    [delete -> boolean | none], [none] when the field has no link. *)
Definition delete (C : Collab) (field_id : Z) : M (option bool) :=
  flatten (transaction_decorator C (
    let* _ := call FieldRange_delete in
    let* d := get_db in
    match find (fun l => fr_field_id l =? field_id) (field_ranges d) with
    | None => ret None
    | Some _ =>
        let* _ := set_db (with_field_ranges d
                   (List.filter (fun l => negb (fr_field_id l =? field_id))
                                (field_ranges d))) in
        ret (Some true)
    end)).

End FieldRangeService.

Module ChoiceOptionService.

(** Modelled from the spec: [app.services.choice_option.ChoiceOptionService]
    is not among the source files; one row per option of a field. *)
Definition create (C : Collab) (field_id : Z) (option_text : string)
  : M (option ChoiceOption) :=
  transaction_decorator C (
    let* _ := call ChoiceOption_create in
    let* d := get_db in
    let instance := mkChoiceOption (next_id d) field_id option_text in
    let* _ := set_db (bump (with_choice_options d
                              (choice_options d ++ [instance]))) in
    ret instance).

(** Modelled from the spec: [filter -> list] of the rows that match the criteria. *)
Definition filter (field_id : Z) : M (list ChoiceOption) :=
  let* _ := call ChoiceOption_filter in
  let* d := get_db in
  ret (List.filter (fun o => co_field_id o =? field_id) (choice_options d)).

(** Modelled from the spec:
    [get_by_field_and_text(field_id, text) -> instance | none]. *)
Definition get_by_field_and_text (field_id : Z) (option_text : string)
  : M (option ChoiceOption) :=
  let* _ := call ChoiceOption_get_by_field_and_text in
  let* d := get_db in
  ret (find (fun o => (co_field_id o =? field_id)
                      && bool_decide (co_option_text o = option_text))
            (choice_options d)).

(** Modelled from the spec: [delete(id) -> boolean | none], [none] when
    no option has the id. *)
Definition delete (C : Collab) (option_id : Z) : M (option bool) :=
  flatten (transaction_decorator C (
    let* _ := call ChoiceOption_delete in
    let* d := get_db in
    match find (fun o => co_id o =? option_id) (choice_options d) with
    | None => ret None
    | Some _ =>
        let* _ := set_db (with_choice_options d
                   (List.filter (fun o => negb (co_id o =? option_id))
                                (choice_options d))) in
        ret (Some true)
    end)).

End ChoiceOptionService.

Module SettingAutocompleteService.

(** Modelled from the spec:
    [app.services.setting_autocomplete.SettingAutocompleteService] is not
    among the source files; the descriptor row of an autocomplete field. *)
Definition create (C : Collab) (data_url sheet from_row to_row : string)
    (field_id : Z) : M (option SettingAutocomplete) :=
  transaction_decorator C (
    let* _ := call Setting_create in
    let* d := get_db in
    let instance :=
      mkSetting (next_id d) data_url sheet from_row to_row field_id in
    let* _ := set_db (bump (with_settings d (settings d ++ [instance]))) in
    ret instance).

(** Modelled from the spec: [get_by_field_id -> instance | none]. *)
Definition get_by_field_id (field_id : Z) : M (option SettingAutocomplete) :=
  let* _ := call Setting_get_by_field_id in
  let* d := get_db in
  ret (find (fun s => sa_field_id s =? field_id) (settings d)).

(** Modelled from the spec: all four descriptor fields are replaced
    together; [none] when no setting has the id. *)
Definition update (C : Collab) (setting_autocomplete_id : Z)
    (data_url sheet from_row to_row : string) (field_id : Z)
  : M (option SettingAutocomplete) :=
  flatten (transaction_decorator C (
    let* _ := call Setting_update in
    let* d := get_db in
    match find (fun s => sa_id s =? setting_autocomplete_id) (settings d) with
    | None => ret None
    | Some _ =>
        let instance := mkSetting setting_autocomplete_id
                          data_url sheet from_row to_row field_id in
        let* _ := set_db (with_settings d
                   (map (fun s => if sa_id s =? setting_autocomplete_id
                                  then instance else s) (settings d))) in
        ret (Some instance)
    end)).

End SettingAutocompleteService.

(** ** Dictionaries *)

(** [data.update(other)]: the keys of [other] win; [other = None] is a
    [TypeError], as [None] is not a mapping. *)
Definition dict_update (data : Dict) (other : option Dict) : M Dict :=
  match other with
  | Some o => ret (o ∪ data)
  | None => raise TypeError
  end.

(** [data['choiceOptions'].append(option)]. *)
Definition append_choice_option (data : Dict) (option : string) : M Dict :=
  match data !! "choiceOptions" with
  | Some (VList l) => ret (<["choiceOptions" := VList (l ++ [option])]> data)
  | Some _ => raise AttributeError
  | None => raise KeyError
  end.

(** [for x in l: s = body x s], a loop that updates a local. *)
Fixpoint for_fold {A S} (l : list A) (s : S) (body : A -> S -> M S) : M S :=
  match l with
  | [] => ret s
  | x :: rest => let* s' := body x s in for_fold rest s' body
  end.

(** ** The field service *)

Module FieldService.
Section WithCollab.

Context (C : Collab).

(** [Field(...)] followed by [DB.session.add(instance)]: the row gets
    its primary key from the store. *)
Definition session_add (name : string) (owner_id field_type : Z)
    (is_strict : bool) : M Field :=
  let* _ := call Field_add in
  let* d := get_db in
  let instance := mkField (next_id d) name owner_id field_type is_strict in
  let* _ := set_db (bump (with_fields d (fields d ++ [instance]))) in
  ret instance.

Definition create (name : string) (owner_id field_type : Z)
    (is_strict : bool) : M (option Field) :=
  transaction_decorator C (session_add name owner_id field_type is_strict).

Definition get_by_id (field_id : Z) : M (option Field) :=
  let* _ := call Field_get in
  let* d := get_db in
  ret (find (fun f => f_id f =? field_id) (fields d)).

(** [DB.session.merge(instance)]: the row with the instance's key takes
    the instance's attributes. *)
Definition session_merge (instance : Field) : M unit :=
  let* _ := call Field_merge in
  let* d := get_db in
  set_db (with_fields d
            (map (fun f => if f_id f =? f_id instance then instance else f)
                 (fields d))).

Definition update (field_id : Z) (name : option string)
    (owner_id field_type : option Z) (is_strict : option bool)
  : M (option Field) :=
  transaction_decorator C (
    let* instance := get_by_id field_id in
    match instance with
    | None => raise FieldNotExist
    | Some instance =>
        let instance :=
          mkField (f_id instance)
                  (default (f_name instance) name)
                  (default (f_owner_id instance) owner_id)
                  (default (f_field_type instance) field_type)
                  (default (f_is_strict instance) is_strict) in
        let* _ := session_merge instance in
        ret instance
    end).

Definition create_text_or_number_field (name : string)
    (owner_id field_type : Z) (is_strict : bool)
    (range_min range_max : option Z) : M (option Dict) :=
  transaction_decorator C (
    let* field := create name owner_id field_type is_strict in
    match field with
    | None => raise FieldAlreadyExist
    | Some _ =>
        let data := dump C FieldNumberTextSchema field in
        let data :=
          if is_strict then <["isStrict" := VBool is_strict]> data
          else data in
        if is_not_None range_min || is_not_None range_max then
          let* range_instance := RangeService.create C range_min range_max in
          let* fid := attr field f_id in
          let* rid := attr range_instance r_id in
          let* _ := FieldRangeService.create C fid rid in
          ret (<["range" := VRange range_min range_max]> data)
        else ret data
    end).

Definition create_text_area (name : string) (owner_id field_type : Z)
  : M (option Dict) :=
  transaction_decorator C (
    let* field := create name owner_id field_type false in
    match field with
    | None => raise FieldAlreadyExist
    | Some _ => ret (dump C BasicField field)
    end).

Definition create_radio_field (name : string) (owner_id field_type : Z)
    (choice_options : option (list string)) (is_strict : bool)
  : M (option Dict) :=
  transaction_decorator C (
    if negb (truthy choice_options) then
      (* LOGGER.error(...) writes to the log only *)
      raise ChoiceNotSend
    else
      let* field := create name owner_id field_type is_strict in
      match field with
      | None => raise FieldAlreadyExist
      | Some _ =>
          let data := dump C FieldRadioSchema field in
          let data := <["choiceOptions" := VList []]> data in
          for_fold (items choice_options) data (fun option data =>
            let* data := append_choice_option data option in
            let* fid := attr field f_id in
            let* _ := ChoiceOptionService.create C fid option in
            ret data)
      end).

Definition create_checkbox_field (name : string) (owner_id field_type : Z)
    (choice_options : option (list string)) (is_strict : bool)
    (range_min range_max : option Z) : M (option Dict) :=
  transaction_decorator C (
    if negb (truthy choice_options) then raise ChoiceNotSend
    else
      let* field := create name owner_id field_type is_strict in
      let data := dump C FieldRadioSchema field in
      let* data :=
        if is_not_None range_min || is_not_None range_max then
          let* range_instance := RangeService.create C range_min range_max in
          let* fid := attr field f_id in
          let* rid := attr range_instance r_id in
          let* _ := FieldRangeService.create C fid rid in
          ret (<["range" := VRange range_min range_max]> data)
        else ret data in
      for_fold (items choice_options) data (fun option data =>
        let* data := append_choice_option data option in
        let* fid := attr field f_id in
        let* _ := ChoiceOptionService.create C fid option in
        ret data)).

Definition setting_json (s : SettingAutocomplete) : Value :=
  VSetting (sa_data_url s) (sa_sheet s) (sa_from_row s) (sa_to_row s).

Definition create_autocomplete_field (name : string)
    (owner_id field_type : Z) (data_url sheet from_row to_row : string)
    (is_strict : bool) : M (option Dict) :=
  transaction_decorator C (
    let* field := create name owner_id field_type is_strict in
    match field with
    | None => raise FieldNotExist
    | Some f =>
        let data := dump C FieldSettingAutocompleteSchema field in
        let* settings :=
          SettingAutocompleteService.create C data_url sheet from_row to_row
                                            (f_id f) in
        match settings with
        | None => raise SettingAutocompleteNotExist
        | Some s => ret (<["settingAutocomplete" := setting_json s]> data)
        end
    end).

(** The [range] part shared by the text-or-number and the choice
    variants: [if range_field: ... if field_range: data['range'] = ...]. *)
Definition add_range (range_field : option FieldRange) (data : Dict)
  : M Dict :=
  match range_field with
  | Some rf =>
      let* field_range := RangeService.get_by_id (fr_range_id rf) in
      match field_range with
      | Some r => ret (<["range" := VRange (r_min r) (r_max r)]> data)
      | None => ret data
      end
  | None => ret data
  end.

Definition _get_text_or_number_additional_options (field_id : Z) : M Dict :=
  let data : Dict := ∅ in
  let* range_field := FieldRangeService.get_by_field_id field_id in
  let* field := get_by_id field_id in
  let* is_strict := attr field f_is_strict in
  let data := if is_strict then <["isStrict" := VBool true]> data else data in
  add_range range_field data.

Definition _get_choice_additional_options (field_id : Z) : M Dict :=
  let data : Dict := ∅ in
  let* choice_options := ChoiceOptionService.filter field_id in
  let* range_field := FieldRangeService.get_by_field_id field_id in
  let* data :=
    match choice_options with
    | _ :: _ =>
        ret (<["choiceOptions" := VList (map co_option_text choice_options)]>
               data)
    | [] => raise FieldNotExist
    end in
  add_range range_field data.

Definition _get_autocomplete_additional_options (field_id : Z) : M Dict :=
  let data : Dict := ∅ in
  let* settings_autocomplete :=
    SettingAutocompleteService.get_by_field_id field_id in
  match settings_autocomplete with
  | None => raise SettingAutocompleteNotExist
  | Some s => ret (<["settingAutocomplete" := setting_json s]> data)
  end.

Definition get_additional_options (field_id field_type : Z)
  : M (option Dict) :=
  try_except
    (if (field_type =? FieldType_value C Number)
        || (field_type =? FieldType_value C Text) then
       let* data := _get_text_or_number_additional_options field_id in
       ret (Some data)
     else if field_type =? FieldType_value C TextArea then
       ret (Some ∅)
     else if (field_type =? FieldType_value C Radio)
             || (field_type =? FieldType_value C Checkbox) then
       let* data := _get_choice_additional_options field_id in
       ret (Some data)
     else if field_type =? FieldType_value C Autocomplete then
       let* data := _get_autocomplete_additional_options field_id in
       ret (Some data)
     else ret None)
    FieldNotExist
    (ret None).

(** The range branch that [update_text_or_number_field] and
    [update_checkbox_field] both spell out: [if delete_range: ... else: ...]
    on the link [field_range] read before. *)
Definition update_range (field : option Field)
    (field_range : option FieldRange) (range_min range_max : option Z)
    (delete_range : bool) : M unit :=
  if delete_range then
    match field_range with
    | None => raise FieldRangeNotDeleted
    | Some _ =>
        let* fid := attr field f_id in
        let* field_range_deleted := FieldRangeService.delete C fid in
        match field_range_deleted with
        | None => raise FieldRangeNotDeleted
        | Some _ => ret tt
        end
    end
  else if is_not_None range_min || is_not_None range_max then
    let* range_instance := RangeService.create C range_min range_max in
    if is_not_None field_range then
      let* fid := attr field f_id in
      let* rid := attr range_instance r_id in
      let* _ := FieldRangeService.update C fid rid in
      ret tt
    else
      let* fid := attr field f_id in
      let* rid := attr range_instance r_id in
      let* _ := FieldRangeService.create C fid rid in
      ret tt
  else ret tt.

(** [if added_choice_options: for added_option in added_choice_options: ...],
    the same in [update_radio_field] and [update_checkbox_field]. *)
Definition add_choice_options (field : option Field)
    (added_choice_options : option (list string)) : M unit :=
  if truthy added_choice_options then
    for_each (items added_choice_options) (fun added_option =>
      let* fid := attr field f_id in
      let* option_update := ChoiceOptionService.create C fid added_option in
      match option_update with
      | None => raise ChoiceOptionNotCreated
      | Some _ => ret tt
      end)
  else ret tt.

(** [if removed_choice_options: for removed_option in ...: ...], the same
    in [update_radio_field] and [update_checkbox_field]. *)
Definition remove_choice_options (field : option Field)
    (removed_choice_options : option (list string)) : M unit :=
  if truthy removed_choice_options then
    for_each (items removed_choice_options) (fun removed_option =>
      let* fid := attr field f_id in
      let* option :=
        ChoiceOptionService.get_by_field_and_text fid removed_option in
      let* oid := attr option co_id in
      let* option_update := ChoiceOptionService.delete C oid in
      match option_update with
      | None => raise ChoiceOptionNotDeleted
      | Some _ => ret tt
      end)
  else ret tt.

(** [data.update(FieldService.get_additional_options(field_id=field.id,
    field_type=field.field_type))], the last statement of every update. *)
Definition merge_additional_options (field : option Field) (data : Dict)
  : M Dict :=
  let* fid := attr field f_id in
  let* ft := attr field f_field_type in
  let* additional := get_additional_options fid ft in
  dict_update data additional.

Definition update_text_or_number_field (field_id : Z) (name : option string)
    (range_min range_max : option Z) (delete_range : bool)
    (is_strict : option bool) : M (option Dict) :=
  transaction_decorator C (
    let* field := update field_id name None None is_strict in
    let data := dump C FieldNumberTextSchema field in
    let* field_range := FieldRangeService.get_by_field_id field_id in
    let* _ := update_range field field_range range_min range_max
                           delete_range in
    merge_additional_options field data).

Definition update_radio_field (field_id : Z) (name : option string)
    (added_choice_options removed_choice_options : option (list string))
  : M (option Dict) :=
  transaction_decorator C (
    let* field := update field_id name None None None in
    let data := dump C FieldRadioSchema field in
    let* _ := add_choice_options field added_choice_options in
    let* _ := remove_choice_options field removed_choice_options in
    merge_additional_options field data).

Definition update_autocomplete_field (field_id : Z) (name : option string)
    (data_url sheet from_row to_row : string) : M (option Dict) :=
  transaction_decorator C (
    let* field := update field_id name None None None in
    let data := dump C FieldSettingAutocompleteSchema field in
    let* fid := attr field f_id in
    let* settings := SettingAutocompleteService.get_by_field_id fid in
    match settings with
    | None => raise SettingAutocompleteNotExist
    | Some s =>
        let* _ := SettingAutocompleteService.update C (sa_id s) data_url
                    sheet from_row to_row fid in
        merge_additional_options field data
    end).

Definition update_checkbox_field (field_id : Z) (name : option string)
    (range_max range_min : option Z) (delete_range : bool)
    (added_choice_options removed_choice_options : option (list string))
  : M (option Dict) :=
  transaction_decorator C (
    let* field := update field_id name None None None in
    let data := dump C FieldCheckboxSchema field in
    let* fid := attr field f_id in
    let* field_range := FieldRangeService.get_by_field_id fid in
    let* _ := update_range field field_range range_min range_max
                           delete_range in
    let* _ := add_choice_options field added_choice_options in
    let* _ := remove_choice_options field removed_choice_options in
    merge_additional_options field data).

(** [DB.session.delete(instance)]: the row with the instance's key goes.
    The trace has no entry for it. *)
Definition session_delete (instance : Field) : M unit :=
  let* d := get_db in
  set_db (with_fields d
            (List.filter (fun f => negb (f_id f =? f_id instance)) (fields d))).

Definition delete (field_id : Z) : M (option bool) :=
  transaction_decorator C (
    let* instance := get_by_id field_id in
    match instance with
    | None => raise FieldNotExist
    | Some instance =>
        let* _ := session_delete instance in
        ret true
    end).

(** One entry of [filter_data]: the column must equal the value when the
    argument is not [None]. *)
Definition criterion {A} (eqb : A -> A -> bool) (arg : option A) (column : A)
  : bool :=
  match arg with
  | Some v => eqb column v
  | None => true
  end.

(** [Field.query.filter_by(...).all()] on [filter_data], the rows in table
    order.
    The trace has no entry for this query. *)
Definition filter (field_id : option Z) (name : option string)
    (owner_id field_type : option Z) (is_strict : option bool)
  : M (list Field) :=
  let* d := get_db in
  ret (List.filter
         (fun f =>
            criterion Z.eqb field_id (f_id f)
            && criterion String.eqb name (f_name f)
            && criterion Z.eqb owner_id (f_owner_id f)
            && criterion Z.eqb field_type (f_field_type f)
            && criterion Bool.eqb is_strict (f_is_strict f))
         (fields d)).

(** Python truthiness of a JSON value; a [range] or [settingAutocomplete]
    object has keys and is true. *)
Definition value_truthy (v : Value) : bool :=
  match v with
  | VBool b => b
  | VInt z => negb (z =? 0)
  | VStr s => negb (String.eqb s "")
  | VList l => match l with [] => false | _ :: _ => true end
  | VRange _ _ => true
  | VSetting _ _ _ _ => true
  end.

(** [range_instance.get(key)] for [key] in ['min', 'max'] on a true value:
    only objects have [get]. *)
Definition check_for_range (data : Dict) : Outcome (option Z * option Z) :=
  match data !! "range" with
  | Some range_instance =>
      if value_truthy range_instance then
        match range_instance with
        | VRange mn mx => Return (mn, mx)
        | VSetting _ _ _ _ => Return (None, None)
        | _ => Raise AttributeError
        end
      else Return (None, None)
  | None => Return (None, None)
  end.

End WithCollab.
End FieldService.

(** ** The sheet manager *)

Module SheetManager.
Section Flatten.

Context {A : Type}.

(** What the sheet API hands back: items that are lists of items, or
    anything else. *)
Inductive item : Type :=
| Leaf (a : A)
| Nested (l : list item).

(** [lists_to_list(data, values)] with the accumulator [values] given:
    every call appends to the one list that is passed down. *)
Fixpoint lists_to_list_item (it : item) (values : list A) : list A :=
  match it with
  | Nested l =>
      (fix loop (data : list item) (values : list A) : list A :=
         match data with
         | [] => values
         | x :: rest => loop rest (lists_to_list_item x values)
         end) l values
  | Leaf a => (values ++ [a])%list
  end.

Definition lists_to_list (data : list item) (values : option (list A))
  : list A :=
  lists_to_list_item (Nested data) (default [] values).

(** The reference: a depth-first, left-to-right recursive flatten. *)
Fixpoint flatten_item (it : item) : list A :=
  match it with
  | Leaf a => [a]
  | Nested l =>
      (fix go (data : list item) : list A :=
         match data with
         | [] => []
         | x :: rest => (flatten_item x ++ go rest)%list
         end) l
  end.

Definition flatten (data : list item) : list A := flatten_item (Nested data).

End Flatten.
Arguments item A : clear implicits.

(** The exceptions of the sheet manager: the two it catches, and the
    built-in ones that indexing an empty string or a too short list, and
    iterating over [None], raise. *)
Inductive SheetError : Type :=
| HttpError
| WrongRange
| IndexError
| NotIterable.

Inductive Result (A : Type) : Type :=
| Ok (a : A)
| Err (e : SheetError).
Arguments Ok {A} a.
Arguments Err {A} e.

(** What [values().get(...).execute()] does: it raises [HttpError], or
    returns a mapping whose ['values'] key, when present, holds the rows. *)
Inductive GetAnswer (A : Type) : Type :=
| GetHttpError
| GetValues (data : option (list (item A))).
Arguments GetHttpError {A}.
Arguments GetValues {A} data.

(** An argument that is a list, or something else. *)
Inductive PyArg (A : Type) : Type :=
| AList (l : list A)
| NotAList.
Arguments AList {A} l.
Arguments NotAList {A}.

(** [s.split(sep)] for a separator of one character. *)
Fixpoint split (sep : ascii) (s : string) : list string :=
  match s with
  | EmptyString => [EmptyString]
  | String c rest =>
      if Ascii.eqb c sep then EmptyString :: split sep rest
      else match split sep rest with
           | head :: tail => String c head :: tail
           | [] => [String c EmptyString]
           end
  end.

(** How many times the character occurs in the string. *)
Fixpoint occurrences (c : ascii) (s : string) : nat :=
  match s with
  | EmptyString => 0%nat
  | String x rest =>
      if Ascii.eqb x c then S (occurrences c rest) else occurrences c rest
  end.

Section Api.

Context {A : Type}.

(** The Google Sheets client and [urllib.parse.urlparse] are libraries:
    the answer of a get request for (spreadsheet id, range), whether an
    append request for (spreadsheet id, range, values) goes through, and
    the network location and path of a URL. *)
Context (execute_get : string -> string -> GetAnswer A).
Context (execute_append : string -> string -> list (list A) -> bool).
Context (urlparse : string -> string * string).

(** [data = values.get('values')] then [lists_to_list(data)]. *)
Definition gather (answer : GetAnswer A) : Result (list A) :=
  match answer with
  | GetHttpError => Err HttpError
  | GetValues None => Err NotIterable
  | GetValues (Some data) => Ok (lists_to_list data None)
  end.

(** The body of the [try] of [get_data_with_range]. *)
Definition get_data_with_range_try (spreadsheet_id from_row to_row : string)
  : Result (list A) :=
  match from_row with
  | EmptyString => Err IndexError
  | String a _ =>
      match to_row with
      | EmptyString => Err IndexError
      | String b _ =>
          if negb (Ascii.eqb a b) then Err WrongRange
          else
            let ranges := (from_row ++ ":" ++ to_row)%string in
            gather (execute_get spreadsheet_id ranges)
      end
  end.

Definition get_data_with_range (spreadsheet_id from_row to_row : string)
  : Result (option (list A)) :=
  match get_data_with_range_try spreadsheet_id from_row to_row with
  | Ok data => Ok (Some data)
  | Err HttpError => Ok None
  | Err WrongRange => Ok None
  | Err e => Err e
  end.

Definition get_all_data (spreadsheet_id : string) : Result (option (list A)) :=
  match gather (execute_get spreadsheet_id "A:ZZZ") with
  | Ok data => Ok (Some data)
  | Err HttpError => Ok None
  | Err e => Err e
  end.

Definition append_data (spreadsheet_id : string) (values : PyArg A)
  : option bool :=
  match values with
  | NotAList => None
  | AList values =>
      let data := map (fun element => [element]) values in
      if execute_append spreadsheet_id "A:A" data then Some true else None
  end.

Definition get_sheet_id_from_url (url : string) : Result (option string) :=
  let link := urlparse url in
  let netlock := fst link in
  if negb (String.eqb netlock "docs.google.com") then Ok None
  else
    let link := snd link in
    match split "/"%char link !! 3%nat with
    | Some sheet_id => Ok (Some sheet_id)
    | None => Err IndexError
    end.

End Api.

(** Rows of cells, as the nested lists the sheet API hands back. *)
Definition rows {A} (cells : list (list A)) : list (item A) :=
  map (fun row => Nested (map Leaf row)) cells.

End SheetManager.

(** ** A concrete set of collaborators *)

Module Reference.

(** Modelled from the spec: the store rejects a duplicate field name at
    commit ("duplicate-name or constraint violation surfaced by the
    store"); the database schema itself is not among the source files. *)
Definition integrity (d : DB) : bool :=
  bool_decide (NoDup (map f_name (fields d))).

(** Modelled from the spec: [app.helper.enums.FieldType] is not among the
    source files; the six members the spec lists, numbered from one. *)
Definition FieldType_value (t : FieldType) : Z :=
  match t with
  | Text => 1
  | Number => 2
  | TextArea => 3
  | Radio => 4
  | Autocomplete => 5
  | Checkbox => 6
  end.

Definition base_view (f : Field) : Dict :=
  {[ "id" := VInt (f_id f);
     "name" := VStr (f_name f);
     "ownerId" := VInt (f_owner_id f);
     "fieldType" := VInt (f_field_type f) ]}.

(** Modelled from the spec: [app.schemas] is not among the source files;
    a schema dumps the base view of the field, the choice schemas with the
    (still empty) [choiceOptions] list of the instance, and nothing for
    [None]. *)
Definition dump (s : Schema) (field : option Field) : Dict :=
  match field with
  | None => ∅
  | Some f =>
      match s with
      | FieldRadioSchema | FieldCheckboxSchema =>
          <["choiceOptions" := VList []]> (base_view f)
      | _ => base_view f
      end
  end.

Definition collab : Collab := mkCollab integrity FieldType_value dump.

Definition empty_db : DB := mkDB [] [] [] [] [] 1.
Definition empty_world : World := mkWorld empty_db [].

End Reference.

(** A store with one field of each choice kind, built through the service:
    the radio field 1 with options red, green, blue and the checkbox field 5
    with options a, b and the range 1..2. *)
Definition sample_world : World :=
  snd (FieldService.create_checkbox_field Reference.collab "pick" 1 6
         (Some ["a"; "b"]) false (Some 1) (Some 2)
         (snd (FieldService.create_radio_field Reference.collab "color" 1 4
                 (Some ["red"; "green"; "blue"]) false
                 Reference.empty_world))).

(** ** What a call leaves alone *)

(** Between two worlds no Range row and no Field-Range link has changed,
    and no call that writes one has been made. *)
Definition range_frame (w w' : World) : Prop :=
  ranges (store w') = ranges (store w)
  /\ field_ranges (store w') = field_ranges (store w)
  /\ List.filter is_range_write (trace w')
     = List.filter is_range_write (trace w).

Definition keeps_ranges {A} (m : M A) : Prop :=
  forall w, range_frame w (snd (m w)).

(** Every Field row has an id below the next primary key. *)
Definition field_ids_below (d : DB) : Prop :=
  Forall (fun f => f_id f < next_id d) (fields d).

(** A computation that leaves the store as it finds it. *)
Definition reads_only {A} (m : M A) : Prop :=
  forall w, store (snd (m w)) = store w.

(** The [range] object of a field: the bounds of the Range that the first
    link of the field points to, when both rows are there. *)
Definition stored_range (d : DB) (field_id : Z) : option Value :=
  match find (fun l => fr_field_id l =? field_id) (field_ranges d) with
  | Some l =>
      match find (fun r => r_id r =? fr_range_id l) (ranges d) with
      | Some r => Some (VRange (r_min r) (r_max r))
      | None => None
      end
  | None => None
  end.

(** No field has two range links. *)
Definition one_link_per_field (d : DB) : Prop :=
  NoDup (map fr_field_id (field_ranges d)).

(** A computation that keeps [one_link_per_field]. *)
Definition keeps_one_link {A} (m : M A) : Prop :=
  forall w, one_link_per_field (store w) ->
            one_link_per_field (store (snd (m w))).

(** ** Induction on nested items *)

Section ItemInduction.

Context {A : Type} (P : SheetManager.item A -> Prop).
Hypothesis HLeaf : forall a, P (SheetManager.Leaf a).
Hypothesis HNested : forall l, Forall P l -> P (SheetManager.Nested l).

Fixpoint item_nested_ind (it : SheetManager.item A) : P it :=
  match it with
  | SheetManager.Leaf a => HLeaf a
  | SheetManager.Nested l =>
      HNested l
        ((fix all (l : list (SheetManager.item A)) : Forall P l :=
            match l with
            | [] => @List.Forall_nil _ P
            | x :: rest => @List.Forall_cons _ P x rest (item_nested_ind x) (all rest)
            end) l)
  end.

End ItemInduction.

(** * Properties *)

(** ** The sheet manager *)


Lemma lists_to_list_item_spec {A} (it : SheetManager.item A) :
  forall values,
    SheetManager.lists_to_list_item it values
    = (values ++ SheetManager.flatten_item it)%list.
Proof.
  induction it as [a | l IH] using item_nested_ind; intros values.
  - reflexivity.
  - simpl. revert values.
    induction IH as [| x rest Hx _ IHrest]; intros values.
    + by rewrite app_nil_r.
    + rewrite IHrest, Hx. by rewrite <- app_assoc.
Qed.

(** C9. On every nested list, [lists_to_list] called without an accumulator
    returns the depth-first, left-to-right flattening given by the reference
    recursive [flatten]; called with an accumulator it appends that
    flattening to it. *)
Theorem lists_to_list_flattens {A} (data : list (SheetManager.item A)) :
  SheetManager.lists_to_list data None = SheetManager.flatten data
  /\ forall values,
       SheetManager.lists_to_list data (Some values)
       = (values ++ SheetManager.flatten data)%list.
Proof.
  unfold SheetManager.lists_to_list, SheetManager.flatten. split.
  - by rewrite lists_to_list_item_spec.
  - intros values. by rewrite lists_to_list_item_spec.
Qed.

Example lists_to_list_example :
  SheetManager.lists_to_list
    [SheetManager.Nested [SheetManager.Leaf 1; SheetManager.Leaf 2];
     SheetManager.Leaf 3;
     SheetManager.Nested [SheetManager.Nested [SheetManager.Leaf 4];
                          SheetManager.Nested []]] None
  = [1; 2; 3; 4].
Proof. reflexivity. Qed.

(** ** Generic facts about the monad *)

Lemma world_eta (w : World) : mkWorld (store w) (trace w) = w.
Proof. by destruct w. Qed.

Lemma bind_ret {A B} (m : M A) (k : A -> M B) (w w' : World) (a : A) :
  m w = (Return a, w') -> bind m k w = k a w'.
Proof. unfold bind. by intros ->. Qed.

Lemma bind_raise {A B} (m : M A) (k : A -> M B) (w w' : World) (e : Error) :
  m w = (Raise e, w') -> bind m k w = (Raise e, w').
Proof. unfold bind. by intros ->. Qed.

Lemma decorator_raise (C : Collab) {A} (func : M A) (w w' : World) (e : Error) :
  func w = (Raise e, w') ->
  transaction_decorator C func w = (Raise e, mkWorld (store w) (trace w')).
Proof. unfold transaction_decorator. by intros ->. Qed.

Lemma truthy_false {A} (l : option (list A)) :
  l = None \/ l = Some [] -> truthy l = false.
Proof. by intros [-> | ->]. Qed.

(** ** Creation: the option-required rule *)

(** C2. [create_radio_field] and [create_checkbox_field] called with an
    empty or absent [choice_options] raise [ChoiceNotSend], and the world is
    the one the call started in: no row of any table is written and no call
    to the store is made. *)
Theorem create_choice_field_requires_options
    (C : Collab) (name : string) (owner_id field_type : Z)
    (choice_options : option (list string)) (is_strict : bool)
    (range_min range_max : option Z) (w : World) :
  choice_options = None \/ choice_options = Some [] ->
  FieldService.create_radio_field C name owner_id field_type choice_options
    is_strict w = (Raise ChoiceNotSend, w)
  /\ FieldService.create_checkbox_field C name owner_id field_type
       choice_options is_strict range_min range_max w
     = (Raise ChoiceNotSend, w).
Proof.
  intros Hempty. apply truthy_false in Hempty.
  unfold FieldService.create_radio_field, FieldService.create_checkbox_field.
  split.
  - rewrite (decorator_raise C _ w w ChoiceNotSend).
    + by rewrite world_eta.
    + by rewrite Hempty.
  - rewrite (decorator_raise C _ w w ChoiceNotSend).
    + by rewrite world_eta.
    + by rewrite Hempty.
Qed.

Lemma create_choice_field_requires_options_witness :
  let w := Reference.empty_world in
  FieldService.create_radio_field Reference.collab "x" 1 4 (Some []) false w
  = (Raise ChoiceNotSend, w)
  /\ FieldService.create_checkbox_field Reference.collab "x" 1 4 (Some [])
       false None None w
     = (Raise ChoiceNotSend, w).
Proof.
  intros w.
  apply (create_choice_field_requires_options Reference.collab "x" 1 4
           (Some []) false None None w).
  right. reflexivity.
Defined.

(** ** Reading the additional options *)

(** C10. For a [field_type] that is the value of none of the six members of
    [FieldType], [get_additional_options] returns [None]; it does not raise,
    and the world is untouched: no store is read. *)
Theorem get_additional_options_unknown_type
    (C : Collab) (field_id field_type : Z) (w : World) :
  (forall t : FieldType, field_type <> FieldType_value C t) ->
  FieldService.get_additional_options C field_id field_type w
  = (Return None, w).
Proof.
  intros Hother.
  unfold FieldService.get_additional_options, try_except.
  rewrite !(proj2 (Z.eqb_neq _ _)) by apply Hother.
  reflexivity.
Qed.

Lemma get_additional_options_unknown_type_witness :
  FieldService.get_additional_options Reference.collab 1 7
    Reference.empty_world
  = (Return None, Reference.empty_world).
Proof.
  apply (get_additional_options_unknown_type Reference.collab 1 7
           Reference.empty_world).
  intros t. destruct t; discriminate.
Defined.

Ltac unfold_monad :=
  unfold attr, flatten in *;
  unfold bind, ret, raise, call, get_db, set_db in *.

Ltac unfold_reads :=
  unfold FieldService._get_text_or_number_additional_options,
         FieldService._get_choice_additional_options,
         FieldService._get_autocomplete_additional_options,
         FieldService.add_range, FieldService.get_by_id,
         FieldRangeService.get_by_field_id, RangeService.get_by_id,
         ChoiceOptionService.filter,
         SettingAutocompleteService.get_by_field_id in *.

Lemma text_or_number_options_errors (field_id : Z) (w w' : World) (e : Error) :
  FieldService._get_text_or_number_additional_options field_id w
  = (Raise e, w') -> e = AttributeError.
Proof.
  unfold_reads. unfold_monad. simpl. intros H.
  repeat case_match; simplify_eq; reflexivity.
Qed.

Lemma autocomplete_options_errors (field_id : Z) (w w' : World) (e : Error) :
  FieldService._get_autocomplete_additional_options field_id w
  = (Raise e, w') -> e = SettingAutocompleteNotExist.
Proof.
  unfold_reads. unfold_monad. simpl. intros H.
  repeat case_match; simplify_eq; reflexivity.
Qed.

Lemma choice_options_none (field_id : Z) (w : World) :
  List.filter (fun o => co_field_id o =? field_id) (choice_options (store w))
  = [] ->
  exists w',
    FieldService._get_choice_additional_options field_id w
    = (Raise FieldNotExist, w')
    /\ store w' = store w.
Proof.
  intros Hnone. unfold_reads. unfold_monad. simpl. rewrite Hnone.
  eexists. split; reflexivity.
Qed.

(** C4. [get_additional_options] never lets a [FieldNotExist] out; and for a
    field of the Radio or Checkbox type that has no ChoiceOption row, given
    that the members of [FieldType] have distinct values, the
    [FieldNotExist] raised inside is caught: the call returns [None] and
    leaves the store as it was. *)
Theorem get_additional_options_catches_FieldNotExist (C : Collab) :
  (forall field_id field_type w,
     fst (FieldService.get_additional_options C field_id field_type w)
     <> Raise FieldNotExist)
  /\ (forall field_id field_type w,
        Inj (=) (=) (FieldType_value C) ->
        field_type = FieldType_value C Radio
        \/ field_type = FieldType_value C Checkbox ->
        List.filter (fun o => co_field_id o =? field_id)
                    (choice_options (store w)) = [] ->
        exists w',
          FieldService.get_additional_options C field_id field_type w
          = (Return None, w')
          /\ store w' = store w).
Proof.
  split.
  - intros field_id field_type w.
    unfold FieldService.get_additional_options, try_except.
    repeat case_match; simplify_eq; simpl; try discriminate.
    all: unfold bind, ret in *; repeat case_match; simplify_eq.
    all: try match goal with
         | H : FieldService._get_text_or_number_additional_options _ _ = _ |- _ =>
             apply text_or_number_options_errors in H
         | H : FieldService._get_autocomplete_additional_options _ _ = _ |- _ =>
             apply autocomplete_options_errors in H
         end; congruence.
  - intros field_id field_type w Hinj Htype Hnone.
    destruct (choice_options_none field_id w Hnone) as (w' & Hrun & Hstore).
    exists w'. split; [| exact Hstore].
    unfold FieldService.get_additional_options, try_except.
    assert (Hne : forall t, t <> Radio -> t <> Checkbox ->
                            (field_type =? FieldType_value C t) = false).
    { intros t H1 H2. apply Z.eqb_neq. intros Heq.
      destruct Htype as [-> | ->]; apply Hinj in Heq; congruence. }
    rewrite (Hne Number), (Hne Text), (Hne TextArea) by discriminate.
    assert (Hyes : (field_type =? FieldType_value C Radio)
                   || (field_type =? FieldType_value C Checkbox) = true).
    { destruct Htype as [-> | ->]; rewrite Z.eqb_refl; simpl;
        [reflexivity | apply orb_true_r]. }
    simpl. rewrite Hyes.
    rewrite (bind_raise _ _ w w' FieldNotExist Hrun).
    reflexivity.
Qed.

Lemma get_additional_options_catches_FieldNotExist_witness :
  let w := mkWorld (mkDB [mkField 1 "color" 1 4 false] [] [] [] [] 2) [] in
  exists w',
    FieldService.get_additional_options Reference.collab 1 4 w
    = (Return None, w')
    /\ store w' = store w.
Proof.
  intros w.
  apply (proj2 (get_additional_options_catches_FieldNotExist Reference.collab)
           1 4 w).
  - intros x y Hxy. destruct x, y; simpl in Hxy; try discriminate Hxy;
      reflexivity.
  - left. reflexivity.
  - reflexivity.
Defined.

(** ** What a call leaves alone: ranges and range links *)


Lemma range_frame_refl (w : World) : range_frame w w.
Proof. by repeat split. Qed.

Lemma range_frame_trans (w1 w2 w3 : World) :
  range_frame w1 w2 -> range_frame w2 w3 -> range_frame w1 w3.
Proof.
  intros (H1 & H2 & H3) (H4 & H5 & H6).
  repeat split; congruence.
Qed.

Lemma keeps_ret {A} (a : A) : keeps_ranges (ret a).
Proof. intros w. apply range_frame_refl. Qed.

Lemma keeps_raise {A} (e : Error) : keeps_ranges (@raise A e).
Proof. intros w. apply range_frame_refl. Qed.

Lemma keeps_bind {A B} (m : M A) (k : A -> M B) :
  keeps_ranges m -> (forall a, keeps_ranges (k a)) -> keeps_ranges (bind m k).
Proof.
  intros Hm Hk w. unfold bind. specialize (Hm w).
  destruct (m w) as [[a | e] w1]; simpl in *; [| exact Hm].
  eapply range_frame_trans; [exact Hm | apply Hk].
Qed.

Lemma keeps_attr {A B} (x : option A) (f : A -> B) : keeps_ranges (attr x f).
Proof. destruct x; [apply keeps_ret | apply keeps_raise]. Qed.

Lemma keeps_for_each {A} (l : list A) (body : A -> M unit) :
  (forall x, keeps_ranges (body x)) -> keeps_ranges (for_each l body).
Proof.
  intros Hbody. induction l as [| x rest IH]; simpl.
  - apply keeps_ret.
  - apply keeps_bind; [apply Hbody | intros _; exact IH].
Qed.

Lemma keeps_try_except {A} (body handler : M A) (e : Error) :
  keeps_ranges body -> keeps_ranges handler ->
  keeps_ranges (try_except body e handler).
Proof.
  intros Hb Hh w. unfold try_except. specialize (Hb w).
  destruct (body w) as [[a | e'] w1]; simpl in *; [exact Hb |].
  destruct (decide (e' = e)); [| exact Hb].
  eapply range_frame_trans; [exact Hb | apply Hh].
Qed.

Lemma keeps_decorator (C : Collab) {A} (func : M A) :
  keeps_ranges func -> keeps_ranges (transaction_decorator C func).
Proof.
  intros Hf w. unfold transaction_decorator. specialize (Hf w).
  destruct (func w) as [[a | e] w1]; simpl in *.
  - destruct (integrity C (store w1)); simpl; [exact Hf |].
    destruct Hf as (_ & _ & Htrace). by repeat split.
  - destruct Hf as (_ & _ & Htrace). by repeat split.
Qed.

Lemma keeps_flatten {A} (m : M (option (option A))) :
  keeps_ranges m -> keeps_ranges (flatten m).
Proof. intros Hm. apply keeps_bind; [exact Hm | intros r; apply keeps_ret]. Qed.

Lemma keeps_call (c : Call) : is_range_write c = false -> keeps_ranges (call c).
Proof.
  intros Hc w. unfold call, range_frame. simpl.
  rewrite List.filter_app. simpl. rewrite Hc, app_nil_r. by repeat split.
Qed.


Ltac solve_frame :=
  unfold range_frame; simpl;
  rewrite ?List.filter_app; simpl; rewrite ?app_nil_r;
  repeat split; reflexivity.

Ltac keeps_primitive :=
  let w := fresh "w" in
  intros w; unfold_monad; simpl; repeat case_match; simplify_eq; solve_frame.

Lemma keeps_Field_get_by_id (field_id : Z) :
  keeps_ranges (FieldService.get_by_id field_id).
Proof. unfold FieldService.get_by_id. keeps_primitive. Qed.

Lemma keeps_Field_update (C : Collab) (field_id : Z) (name : option string)
    (owner_id field_type : option Z) (is_strict : option bool) :
  keeps_ranges (FieldService.update C field_id name owner_id field_type
                  is_strict).
Proof.
  unfold FieldService.update. apply keeps_decorator.
  unfold FieldService.get_by_id, FieldService.session_merge.
  keeps_primitive.
Qed.

Lemma keeps_FieldRange_get_by_field_id (field_id : Z) :
  keeps_ranges (FieldRangeService.get_by_field_id field_id).
Proof. unfold FieldRangeService.get_by_field_id. keeps_primitive. Qed.

Lemma keeps_Range_get_by_id (range_id : Z) :
  keeps_ranges (RangeService.get_by_id range_id).
Proof. unfold RangeService.get_by_id. keeps_primitive. Qed.

Lemma keeps_ChoiceOption_filter (field_id : Z) :
  keeps_ranges (ChoiceOptionService.filter field_id).
Proof. unfold ChoiceOptionService.filter. keeps_primitive. Qed.

Lemma keeps_ChoiceOption_get_by_field_and_text (field_id : Z) (text : string) :
  keeps_ranges (ChoiceOptionService.get_by_field_and_text field_id text).
Proof. unfold ChoiceOptionService.get_by_field_and_text. keeps_primitive. Qed.

Lemma keeps_ChoiceOption_create (C : Collab) (field_id : Z) (text : string) :
  keeps_ranges (ChoiceOptionService.create C field_id text).
Proof.
  unfold ChoiceOptionService.create. apply keeps_decorator. keeps_primitive.
Qed.

Lemma keeps_ChoiceOption_delete (C : Collab) (option_id : Z) :
  keeps_ranges (ChoiceOptionService.delete C option_id).
Proof.
  unfold ChoiceOptionService.delete. apply keeps_flatten, keeps_decorator.
  keeps_primitive.
Qed.

Lemma keeps_Setting_get_by_field_id (field_id : Z) :
  keeps_ranges (SettingAutocompleteService.get_by_field_id field_id).
Proof. unfold SettingAutocompleteService.get_by_field_id. keeps_primitive. Qed.

Create HintDb keeps.
#[local] Hint Resolve keeps_ret keeps_raise keeps_attr keeps_Field_get_by_id
  keeps_Field_update keeps_FieldRange_get_by_field_id keeps_Range_get_by_id
  keeps_ChoiceOption_filter keeps_ChoiceOption_get_by_field_and_text
  keeps_ChoiceOption_create keeps_ChoiceOption_delete
  keeps_Setting_get_by_field_id : keeps.

(** Walks through straight-line service code, closing every call by the
    lemma of its primitive. *)
Ltac keeps_step :=
  first
    [ solve [auto with keeps]
    | apply keeps_bind; [| intros ?]
    | apply keeps_for_each; intros ?
    | apply keeps_try_except
    | progress case_match ].

Lemma keeps_add_range (range_field : option FieldRange) (data : Dict) :
  keeps_ranges (FieldService.add_range range_field data).
Proof. unfold FieldService.add_range. repeat keeps_step. Qed.

Lemma keeps_get_additional_options (C : Collab) (field_id field_type : Z) :
  keeps_ranges (FieldService.get_additional_options C field_id field_type).
Proof.
  unfold FieldService.get_additional_options,
    FieldService._get_text_or_number_additional_options,
    FieldService._get_choice_additional_options,
    FieldService._get_autocomplete_additional_options.
  pose proof keeps_add_range.
  repeat keeps_step; auto.
Qed.

Lemma keeps_add_choice_options (C : Collab) (field : option Field)
    (added : option (list string)) :
  keeps_ranges (FieldService.add_choice_options C field added).
Proof. unfold FieldService.add_choice_options. repeat keeps_step. Qed.

Lemma keeps_remove_choice_options (C : Collab) (field : option Field)
    (removed : option (list string)) :
  keeps_ranges (FieldService.remove_choice_options C field removed).
Proof. unfold FieldService.remove_choice_options. repeat keeps_step. Qed.

Lemma keeps_merge_additional_options (C : Collab) (field : option Field)
    (data : Dict) :
  keeps_ranges (FieldService.merge_additional_options C field data).
Proof.
  unfold FieldService.merge_additional_options, dict_update.
  pose proof (keeps_get_additional_options C).
  repeat keeps_step; auto.
Qed.

(** C7. With [delete_range] false and neither bound supplied,
    [update_text_or_number_field] and [update_checkbox_field] leave the
    Range rows and the Field-Range links exactly as they were, whatever the
    outcome of the call, and make no call that creates a Range or that
    creates, updates or deletes a link. *)
Theorem update_without_bounds_keeps_range
    (C : Collab) (field_id : Z) (name : option string)
    (is_strict : option bool)
    (added_choice_options removed_choice_options : option (list string))
    (w : World) :
  range_frame w
    (snd (FieldService.update_text_or_number_field C field_id name None None
            false is_strict w))
  /\ range_frame w
       (snd (FieldService.update_checkbox_field C field_id name None None
               false added_choice_options removed_choice_options w)).
Proof.
  pose proof (keeps_merge_additional_options C).
  pose proof (keeps_add_choice_options C).
  pose proof (keeps_remove_choice_options C).
  split.
  - revert w. change (keeps_ranges
      (FieldService.update_text_or_number_field C field_id name None None
         false is_strict)).
    unfold FieldService.update_text_or_number_field, FieldService.update_range.
    simpl. apply keeps_decorator. repeat keeps_step; auto.
  - revert w. change (keeps_ranges
      (FieldService.update_checkbox_field C field_id name None None false
         added_choice_options removed_choice_options)).
    unfold FieldService.update_checkbox_field, FieldService.update_range.
    simpl. apply keeps_decorator. repeat keeps_step; auto.
Qed.

(** ** Deleting a range that is not there *)

Lemma Field_update_returns (C : Collab) (field_id : Z) (name : option string)
    (owner_id field_type : option Z) (is_strict : option bool)
    (w w1 : World) (f : Field) :
  FieldService.update C field_id name owner_id field_type is_strict w
  = (Return (Some f), w1) ->
  f_id f = field_id /\ field_ranges (store w1) = field_ranges (store w).
Proof.
  unfold FieldService.update, transaction_decorator, FieldService.get_by_id,
    FieldService.session_merge.
  unfold_monad. simpl. intros H.
  repeat case_match; simplify_eq. simpl. split; [| reflexivity].
  match goal with
  | Hfind : find _ _ = Some _ |- _ =>
      apply find_some in Hfind; destruct Hfind as [_ Hid]
  end.
  by apply Z.eqb_eq.
Qed.

Lemma FieldRange_get_by_field_id_run (field_id : Z) (w : World) :
  FieldRangeService.get_by_field_id field_id w
  = (Return (find (fun l => fr_field_id l =? field_id)
                  (field_ranges (store w))),
     mkWorld (store w) (trace w ++ [FieldRange_get_by_field_id])).
Proof. reflexivity. Qed.

(** The base update of a field that exists does not raise: it returns the
    merged instance, or [None] when the store rejects the commit. The links
    are those of before either way. *)
Lemma Field_update_existing (C : Collab) (field_id : Z) (name : option string)
    (owner_id field_type : option Z) (is_strict : option bool)
    (w : World) (old : Field) :
  find (fun f => f_id f =? field_id) (fields (store w)) = Some old ->
  exists r w1,
    FieldService.update C field_id name owner_id field_type is_strict w
    = (Return r, w1)
    /\ field_ranges (store w1) = field_ranges (store w).
Proof.
  intros Hold.
  unfold FieldService.update, transaction_decorator, FieldService.get_by_id,
    FieldService.session_merge.
  unfold_monad. simpl. rewrite Hold. simpl.
  case_match; eauto.
Qed.

(** C3. A call with [delete_range] true on a field that exists and has no
    Field-Range link. [update_text_or_number_field], which looks the link up
    by its [field_id] argument, raises [FieldRangeNotDeleted] whatever the
    base update returned, and the store is the one the call started in.
    [update_checkbox_field] looks the link up by [field.id]: it does the
    same when the base update returned the field, and when the base update
    returned [None] it fails there with an [AttributeError] instead. On an
    existing field the base update returns one or the other. *)
Theorem delete_range_without_link_outcomes
    (C : Collab) (field_id : Z) (name : option string)
    (range_min range_max : option Z) (w : World) (old : Field) :
  find (fun f => f_id f =? field_id) (fields (store w)) = Some old ->
  find (fun l => fr_field_id l =? field_id) (field_ranges (store w)) = None ->
  (forall is_strict,
     exists w',
       FieldService.update_text_or_number_field C field_id name range_min
         range_max true is_strict w
       = (Raise FieldRangeNotDeleted, w')
       /\ store w' = store w)
  /\ (exists r w1,
        FieldService.update C field_id name None None None w = (Return r, w1))
  /\ (forall added_choice_options removed_choice_options,
        (forall f w1,
           FieldService.update C field_id name None None None w
           = (Return (Some f), w1) ->
           exists w',
             FieldService.update_checkbox_field C field_id name range_max
               range_min true added_choice_options removed_choice_options w
             = (Raise FieldRangeNotDeleted, w')
             /\ store w' = store w)
        /\ (forall w1,
              FieldService.update C field_id name None None None w
              = (Return None, w1) ->
              exists w',
                FieldService.update_checkbox_field C field_id name range_max
                  range_min true added_choice_options removed_choice_options w
                = (Raise AttributeError, w')
                /\ store w' = store w)).
Proof.
  intros Hold Hnolink. split; [| split].
  - intros is_strict.
    destruct (Field_update_existing C field_id name None None is_strict w old
                Hold) as (r & w1 & Hupdate & Hlinks).
    eexists. split.
    + unfold FieldService.update_text_or_number_field.
      apply decorator_raise.
      rewrite (bind_ret _ _ _ _ _ Hupdate).
      erewrite bind_ret by apply FieldRange_get_by_field_id_run.
      rewrite Hlinks, Hnolink. reflexivity.
    + reflexivity.
  - destruct (Field_update_existing C field_id name None None None w old Hold)
      as (r & w1 & Hupdate & _).
    eauto.
  - intros added removed. split.
    + intros f w1 Hupdate.
      destruct (Field_update_returns _ _ _ _ _ _ _ _ _ Hupdate)
        as [Hid Hlinks].
      eexists. split.
      * unfold FieldService.update_checkbox_field.
        apply decorator_raise.
        rewrite (bind_ret _ _ _ _ _ Hupdate).
        erewrite bind_ret by reflexivity.
        erewrite bind_ret by apply FieldRange_get_by_field_id_run.
        simpl. rewrite Hid, Hlinks, Hnolink. reflexivity.
      * reflexivity.
    + intros w1 Hupdate.
      eexists. split.
      * unfold FieldService.update_checkbox_field.
        apply decorator_raise.
        rewrite (bind_ret _ _ _ _ _ Hupdate).
        reflexivity.
      * reflexivity.
Qed.

Lemma delete_range_without_link_outcomes_witness :
  let w := mkWorld (mkDB [mkField 1 "age" 1 2 false;
                          mkField 2 "size" 1 6 false;
                          mkField 3 "pick" 1 6 false]
                         [] []
                         [mkChoiceOption 4 2 "s"; mkChoiceOption 5 2 "m";
                          mkChoiceOption 6 3 "a"]
                         [] 7) [] in
  (exists w',
     FieldService.update_text_or_number_field Reference.collab 1 (Some "pick")
       None None true (Some true) w
     = (Raise FieldRangeNotDeleted, w')
     /\ store w' = store w)
  /\ (exists w',
        FieldService.update_checkbox_field Reference.collab 2 (Some "large")
          None None true (Some ["l"]) None w
        = (Raise FieldRangeNotDeleted, w')
        /\ store w' = store w)
  /\ (exists w',
        FieldService.update_checkbox_field Reference.collab 2 (Some "pick")
          None None true None None w
        = (Raise AttributeError, w')
        /\ store w' = store w).
Proof.
  intros w. split; [| split].
  - destruct (delete_range_without_link_outcomes Reference.collab 1
                (Some "pick") None None w (mkField 1 "age" 1 2 false)
                eq_refl eq_refl) as (Htext & _ & _).
    apply (Htext (Some true)).
  - destruct (delete_range_without_link_outcomes Reference.collab 2
                (Some "large") None None w (mkField 2 "size" 1 6 false)
                eq_refl eq_refl) as (_ & _ & Hcheckbox).
    destruct (Hcheckbox (Some ["l"]) None) as [Hfield _].
    eapply Hfield. vm_compute. reflexivity.
  - destruct (delete_range_without_link_outcomes Reference.collab 2
                (Some "pick") None None w (mkField 2 "size" 1 6 false)
                eq_refl eq_refl) as (_ & _ & Hcheckbox).
    destruct (Hcheckbox None None) as [_ Hnone].
    eapply Hnone. vm_compute. reflexivity.
Defined.

(** The same call, [update_*_field(field_id, name="pick", delete_range=True)]
    on a field without a link while another field is named pick, in the two
    functions. *)
Example delete_range_duplicate_name_runs :
  let w := mkWorld (mkDB [mkField 2 "size" 1 6 false;
                          mkField 3 "pick" 1 6 false]
                         [] []
                         [mkChoiceOption 4 2 "s"; mkChoiceOption 6 3 "a"]
                         [] 7) [] in
  fst (FieldService.update Reference.collab 2 (Some "pick") None None None w)
  = Return None
  /\ fst (FieldService.update_text_or_number_field Reference.collab 2
            (Some "pick") None None true None w)
     = Raise FieldRangeNotDeleted
  /\ fst (FieldService.update_checkbox_field Reference.collab 2 (Some "pick")
            None None true None None w)
     = Raise AttributeError.
Proof. repeat split; vm_compute; reflexivity. Qed.

(** ** Creation: the returned choice options *)



Lemma Range_create_returns (C : Collab) (range_min range_max : option Z)
    (w : World) :
  exists r w', RangeService.create C range_min range_max w = (Return r, w').
Proof.
  unfold RangeService.create, transaction_decorator.
  unfold_monad. simpl. case_match; eauto.
Qed.



(** The loop over the options when there is no field instance: the first
    round fails, on the dictionary or on [field.id]. *)
Lemma choice_loop_no_field (C : Collab) (option : string) (rest : list string)
    (data : Dict) (w : World) :
  exists e w',
    for_fold (option :: rest) data (fun option data =>
      let* data := append_choice_option data option in
      let* fid := attr (@None Field) f_id in
      let* _ := ChoiceOptionService.create C fid option in
      ret data) w
    = (Raise e, w')
    /\ (e = KeyError \/ e = AttributeError).
Proof.
  simpl. unfold append_choice_option, bind, attr, raise, ret.
  destruct (data !! "choiceOptions") as [[] |]; simpl; eauto.
Qed.





(** ** Creation: a base Field that is not created *)

(** C1. What each create variant does when the base Field creation yields
    no instance: the text-or-number, textarea and radio variants raise
    [FieldAlreadyExist]; the autocomplete variant raises [FieldNotExist]
    instead, and the checkbox variant, which does not look at the instance,
    fails on the missing instance with another error. *)
Theorem create_base_none_outcomes
    (C : Collab) (name : string) (owner_id field_type : Z) (is_strict : bool)
    (w w1 : World) :
  FieldService.create C name owner_id field_type is_strict w
  = (Return None, w1) ->
  (forall range_min range_max,
     fst (FieldService.create_text_or_number_field C name owner_id field_type
            is_strict range_min range_max w)
     = Raise FieldAlreadyExist)
  /\ (is_strict = false ->
      fst (FieldService.create_text_area C name owner_id field_type w)
      = Raise FieldAlreadyExist)
  /\ (forall choice_options,
        truthy choice_options = true ->
        fst (FieldService.create_radio_field C name owner_id field_type
               choice_options is_strict w)
        = Raise FieldAlreadyExist)
  /\ (forall data_url sheet from_row to_row,
        fst (FieldService.create_autocomplete_field C name owner_id field_type
               data_url sheet from_row to_row is_strict w)
        = Raise FieldNotExist)
  /\ (forall choice_options range_min range_max,
        truthy choice_options = true ->
        exists e,
          fst (FieldService.create_checkbox_field C name owner_id field_type
                 choice_options is_strict range_min range_max w)
          = Raise e
          /\ e <> FieldAlreadyExist).
Proof.
  intros Hcreate. repeat split.
  - intros range_min range_max.
    unfold FieldService.create_text_or_number_field, transaction_decorator.
    by rewrite (bind_ret _ _ _ _ _ Hcreate).
  - intros ->.
    unfold FieldService.create_text_area, transaction_decorator.
    by rewrite (bind_ret _ _ _ _ _ Hcreate).
  - intros choice_options Htruthy.
    unfold FieldService.create_radio_field, transaction_decorator.
    rewrite Htruthy. simpl. by rewrite (bind_ret _ _ _ _ _ Hcreate).
  - intros data_url sheet from_row to_row.
    unfold FieldService.create_autocomplete_field, transaction_decorator.
    by rewrite (bind_ret _ _ _ _ _ Hcreate).
  - intros choice_options range_min range_max Htruthy.
    unfold FieldService.create_checkbox_field, transaction_decorator.
    rewrite Htruthy. simpl. rewrite (bind_ret _ _ _ _ _ Hcreate).
    destruct choice_options as [[| option rest] |]; try discriminate Htruthy.
    simpl. destruct (is_not_None range_min || is_not_None range_max).
    + destruct (Range_create_returns C range_min range_max w1)
        as (r & w2 & Hrange).
      exists AttributeError. split; [| discriminate].
      erewrite bind_raise; [reflexivity |].
      by rewrite (bind_ret _ _ _ _ _ Hrange).
    + erewrite bind_ret by reflexivity.
      destruct (choice_loop_no_field C option rest
                  (dump C FieldRadioSchema None) w1)
        as (e & w2 & Hloop & He).
      exists e. simpl in Hloop |- *. rewrite Hloop. split; [reflexivity |].
      destruct He as [-> | ->]; discriminate.
Qed.


Example sample_world_store :
  store sample_world
  = mkDB [mkField 1 "color" 1 4 false; mkField 5 "pick" 1 6 false]
         [mkRange 6 (Some 1) (Some 2)]
         [mkFieldRange 5 6]
         [mkChoiceOption 2 1 "red"; mkChoiceOption 3 1 "green";
          mkChoiceOption 4 1 "blue"; mkChoiceOption 7 5 "a";
          mkChoiceOption 8 5 "b"]
         []
         9.
Proof. reflexivity. Qed.

Lemma create_base_none_outcomes_witness :
  fst (FieldService.create_autocomplete_field Reference.collab "pick" 1 5
         "u" "Sheet1" "A1" "C5" false sample_world)
  = Raise FieldNotExist
  /\ exists e,
       fst (FieldService.create_checkbox_field Reference.collab "pick" 1 6
              (Some ["a"; "b"]) false None None sample_world)
       = Raise e
       /\ e <> FieldAlreadyExist.
Proof.
  destruct (create_base_none_outcomes Reference.collab "pick" 1 5 false
              sample_world
              (mkWorld (store sample_world)
                       (trace sample_world ++ [Field_add])))
    as (_ & _ & _ & Hauto & _).
  { reflexivity. }
  destruct (create_base_none_outcomes Reference.collab "pick" 1 6 false
              sample_world
              (mkWorld (store sample_world)
                       (trace sample_world ++ [Field_add])))
    as (_ & _ & _ & _ & Hcheckbox).
  { reflexivity. }
  split.
  - apply Hauto.
  - apply Hcheckbox. reflexivity.
Defined.

(** On a duplicate name the autocomplete variant raises [FieldNotExist] and
    the checkbox variant a [KeyError]; the radio variant, asked the same,
    raises [FieldAlreadyExist]. *)
Example create_duplicate_name_runs :
  fst (FieldService.create Reference.collab "pick" 1 5 false sample_world)
  = Return None
  /\ fst (FieldService.create_autocomplete_field Reference.collab "pick" 1 5
            "u" "Sheet1" "A1" "C5" false sample_world)
     = Raise FieldNotExist
  /\ fst (FieldService.create_checkbox_field Reference.collab "pick" 1 6
            (Some ["a"; "b"]) false None None sample_world)
     = Raise KeyError
  /\ fst (FieldService.create_checkbox_field Reference.collab "pick" 1 6
            (Some ["a"; "b"]) false (Some 1) None sample_world)
     = Raise AttributeError
  /\ fst (FieldService.create_radio_field Reference.collab "pick" 1 4
            (Some ["a"; "b"]) false sample_world)
     = Raise FieldAlreadyExist.
Proof. repeat split; vm_compute; reflexivity. Qed.

(** ** Updates: removing options *)

(** The removal loop on an existing field: what its first round does when
    the lookup, or the deletion, returns [None]. *)
Lemma remove_choice_options_first_round
    (C : Collab) (f : Field) (removed_option : string) (rest : list string)
    (w w1 : World) :
  (ChoiceOptionService.get_by_field_and_text (f_id f) removed_option w
   = (Return None, w1) ->
   FieldService.remove_choice_options C (Some f)
     (Some (removed_option :: rest)) w
   = (Raise AttributeError, w1))
  /\ (forall o w2,
        ChoiceOptionService.get_by_field_and_text (f_id f) removed_option w
        = (Return (Some o), w1) ->
        ChoiceOptionService.delete C (co_id o) w1 = (Return None, w2) ->
        FieldService.remove_choice_options C (Some f)
          (Some (removed_option :: rest)) w
        = (Raise ChoiceOptionNotDeleted, w2)).
Proof.
  unfold FieldService.remove_choice_options. simpl. split.
  - intros Hlookup.
    erewrite bind_raise; [reflexivity |].
    erewrite bind_ret by reflexivity.
    by rewrite (bind_ret _ _ _ _ _ Hlookup).
  - intros o w2 Hlookup Hdelete.
    erewrite bind_raise; [reflexivity |].
    erewrite bind_ret by reflexivity.
    rewrite (bind_ret _ _ _ _ _ Hlookup).
    erewrite bind_ret by reflexivity.
    by rewrite (bind_ret _ _ _ _ _ Hdelete).
Qed.

(** C5. In [update_radio_field], and in [update_checkbox_field] called
    without a change of range, once the base update and the additions have
    gone through, the first removed option is looked up by
    (field_id, option_text) and deleted by the id found. When the deletion
    returns [None] the update raises [ChoiceOptionNotDeleted]; when the
    lookup returns [None] it fails on [option.id] with an [AttributeError]
    instead. *)
Theorem update_remove_option_failures
    (C : Collab) (field_id : Z) (name : option string)
    (added_choice_options : option (list string))
    (removed_option : string) (rest : list string)
    (w w1 : World) (f : Field) :
  FieldService.update C field_id name None None None w
  = (Return (Some f), w1) ->
  (forall w2 w3,
     FieldService.add_choice_options C (Some f) added_choice_options w1
     = (Return tt, w2) ->
     (ChoiceOptionService.get_by_field_and_text (f_id f) removed_option w2
      = (Return None, w3) ->
      fst (FieldService.update_radio_field C field_id name
             added_choice_options (Some (removed_option :: rest)) w)
      = Raise AttributeError)
     /\ (forall o w4,
           ChoiceOptionService.get_by_field_and_text (f_id f) removed_option w2
           = (Return (Some o), w3) ->
           ChoiceOptionService.delete C (co_id o) w3 = (Return None, w4) ->
           fst (FieldService.update_radio_field C field_id name
                  added_choice_options (Some (removed_option :: rest)) w)
           = Raise ChoiceOptionNotDeleted))
  /\ (forall w2 w3,
        FieldService.add_choice_options C (Some f) added_choice_options
          (mkWorld (store w1) (trace w1 ++ [FieldRange_get_by_field_id]))
        = (Return tt, w2) ->
        (ChoiceOptionService.get_by_field_and_text (f_id f) removed_option w2
         = (Return None, w3) ->
         fst (FieldService.update_checkbox_field C field_id name None None
                false added_choice_options (Some (removed_option :: rest)) w)
         = Raise AttributeError)
        /\ (forall o w4,
              ChoiceOptionService.get_by_field_and_text (f_id f)
                removed_option w2
              = (Return (Some o), w3) ->
              ChoiceOptionService.delete C (co_id o) w3 = (Return None, w4) ->
              fst (FieldService.update_checkbox_field C field_id name None
                     None false added_choice_options
                     (Some (removed_option :: rest)) w)
              = Raise ChoiceOptionNotDeleted)).
Proof.
  intros Hupdate. split.
  - intros w2 w3 Hadd.
    destruct (remove_choice_options_first_round C f removed_option rest w2 w3)
      as [Hnone Hsome].
    split.
    + intros Hlookup. specialize (Hnone Hlookup).
      unfold FieldService.update_radio_field.
      erewrite decorator_raise; [reflexivity |].
      rewrite (bind_ret _ _ _ _ _ Hupdate).
      rewrite (bind_ret _ _ _ _ _ Hadd).
      by rewrite (bind_raise _ _ _ _ _ Hnone).
    + intros o w4 Hlookup Hdelete. specialize (Hsome o w4 Hlookup Hdelete).
      unfold FieldService.update_radio_field.
      erewrite decorator_raise; [reflexivity |].
      rewrite (bind_ret _ _ _ _ _ Hupdate).
      rewrite (bind_ret _ _ _ _ _ Hadd).
      by rewrite (bind_raise _ _ _ _ _ Hsome).
  - intros w2 w3 Hadd.
    destruct (remove_choice_options_first_round C f removed_option rest w2 w3)
      as [Hnone Hsome].
    split.
    + intros Hlookup. specialize (Hnone Hlookup).
      unfold FieldService.update_checkbox_field.
      erewrite decorator_raise; [reflexivity |].
      rewrite (bind_ret _ _ _ _ _ Hupdate).
      erewrite bind_ret by reflexivity.
      erewrite bind_ret by apply FieldRange_get_by_field_id_run.
      erewrite bind_ret by reflexivity.
      rewrite (bind_ret _ _ _ _ _ Hadd).
      by rewrite (bind_raise _ _ _ _ _ Hnone).
    + intros o w4 Hlookup Hdelete. specialize (Hsome o w4 Hlookup Hdelete).
      unfold FieldService.update_checkbox_field.
      erewrite decorator_raise; [reflexivity |].
      rewrite (bind_ret _ _ _ _ _ Hupdate).
      erewrite bind_ret by reflexivity.
      erewrite bind_ret by apply FieldRange_get_by_field_id_run.
      erewrite bind_ret by reflexivity.
      rewrite (bind_ret _ _ _ _ _ Hadd).
      by rewrite (bind_raise _ _ _ _ _ Hsome).
Qed.

Lemma update_remove_option_failures_witness :
  fst (FieldService.update_radio_field Reference.collab 1 None None
         (Some ["zzz"]) sample_world)
  = Raise AttributeError.
Proof.
  destruct (update_remove_option_failures Reference.collab 1 None None
              "zzz" [] sample_world
              (mkWorld (store sample_world)
                       (trace sample_world ++ [Field_get; Field_merge]))
              (mkField 1 "color" 1 4 false)) as [Hradio _].
  { vm_compute. reflexivity. }
  refine (proj1 (Hradio
            (mkWorld (store sample_world)
                     (trace sample_world ++ [Field_get; Field_merge]))
            (mkWorld (store sample_world)
                     (trace sample_world
                      ++ [Field_get; Field_merge;
                          ChoiceOption_get_by_field_and_text]))
            _) _);
    vm_compute; reflexivity.
Defined.

(** Removing an option the field does not have: both updates end in an
    [AttributeError], not in [ChoiceOptionNotDeleted]. *)
Example update_remove_unknown_option_runs :
  fst (FieldService.update_radio_field Reference.collab 1 None None
         (Some ["zzz"]) sample_world)
  = Raise AttributeError
  /\ fst (FieldService.update_checkbox_field Reference.collab 5 None None None
            false None (Some ["zzz"]) sample_world)
     = Raise AttributeError.
Proof. split; vm_compute; reflexivity. Qed.

(** ** Updates: the merge of the additional options *)

(** C8. The merge that ends [update_text_or_number_field] and
    [update_checkbox_field] has no guard: whenever [get_additional_options]
    yields [None] for the field, [data.update(None)] fails with a
    [TypeError], which is neither a domain error nor the untouched mapping.
    It happens for a checkbox update that removes every option of the field,
    and for a text-or-number update of a field whose type is none of the six;
    the unit of work is rolled back. *)
Theorem update_merge_unguarded :
  (forall (C : Collab) (f : Field) (data : Dict) (w w' : World),
     FieldService.get_additional_options C (f_id f) (f_field_type f) w
     = (Return None, w') ->
     FieldService.merge_additional_options C (Some f) data w
     = (Raise TypeError, w'))
  /\ (let r := FieldService.update_checkbox_field Reference.collab 5 None None
                 None false None (Some ["a"; "b"]) sample_world in
      fst r = Raise TypeError /\ store (snd r) = store sample_world)
  /\ (let w := snd (FieldService.create_text_or_number_field Reference.collab
                      "odd" 1 7 false None None sample_world) in
      let r := FieldService.update_text_or_number_field Reference.collab 9
                 (Some "even") None None false None w in
      fst r = Raise TypeError /\ store (snd r) = store w).
Proof.
  split; [| split].
  - intros C f data w w' Hnone.
    unfold FieldService.merge_additional_options.
    do 2 (erewrite bind_ret by reflexivity).
    by rewrite (bind_ret _ _ _ _ _ Hnone).
  - split; vm_compute; reflexivity.
  - split; vm_compute; reflexivity.
Qed.

Lemma update_merge_unguarded_witness :
  FieldService.merge_additional_options Reference.collab
    (Some (mkField 9 "odd" 1 7 false)) ∅ sample_world
  = (Raise TypeError, sample_world).
Proof.
  apply (proj1 update_merge_unguarded Reference.collab
           (mkField 9 "odd" 1 7 false) ∅ sample_world sample_world).
  reflexivity.
Defined.

(** * Further properties *)

(** ** The sheet manager: reading *)

Lemma flatten_rows {A} (cells : list (list A)) :
  SheetManager.flatten (SheetManager.rows cells) = concat cells.
Proof.
  unfold SheetManager.flatten, SheetManager.rows. simpl.
  induction cells as [| row rest IH]; simpl; [reflexivity |].
  rewrite IH. f_equal.
  induction row as [| cell row IHrow]; simpl; [reflexivity |].
  by rewrite IHrow.
Qed.

Lemma gather_rows {A} (cells : list (list A)) :
  SheetManager.gather (SheetManager.GetValues (Some (SheetManager.rows cells)))
  = SheetManager.Ok (concat cells).
Proof.
  unfold SheetManager.gather, SheetManager.lists_to_list.
  rewrite lists_to_list_item_spec. simpl. f_equal.
  apply (flatten_rows cells).
Qed.

(** X1. When the sheet answers with rows of cells, [get_all_data] returns
    the cells in row-major order; so does [get_data_with_range] for two
    cell references that start with the same character, and the range it
    asks for is [from_row:to_row]. *)
Theorem get_data_row_major {A}
    (execute_get : string -> string -> SheetManager.GetAnswer A)
    (spreadsheet_id : string) (cells : list (list A)) :
  (execute_get spreadsheet_id "A:ZZZ"
   = SheetManager.GetValues (Some (SheetManager.rows cells)) ->
   SheetManager.get_all_data execute_get spreadsheet_id
   = SheetManager.Ok (Some (concat cells)))
  /\ (forall (c : ascii) (from_rest to_rest : string),
        execute_get spreadsheet_id
          (String c from_rest ++ ":" ++ String c to_rest)%string
        = SheetManager.GetValues (Some (SheetManager.rows cells)) ->
        SheetManager.get_data_with_range execute_get spreadsheet_id
          (String c from_rest) (String c to_rest)
        = SheetManager.Ok (Some (concat cells))).
Proof.
  split.
  - intros Hanswer. unfold SheetManager.get_all_data.
    by rewrite Hanswer, gather_rows.
  - intros c from_rest to_rest Hanswer.
    unfold SheetManager.get_data_with_range,
      SheetManager.get_data_with_range_try.
    rewrite Ascii.eqb_refl. simpl negb. cbv iota.
    by rewrite Hanswer, gather_rows.
Qed.

Lemma get_data_row_major_witness :
  let execute_get := fun (_ _ : string) =>
    SheetManager.GetValues
      (Some (SheetManager.rows [["a"; "b"]; []; ["c"]])) in
  SheetManager.get_all_data execute_get "sheet"
  = SheetManager.Ok (Some ["a"; "b"; "c"])
  /\ SheetManager.get_data_with_range execute_get "sheet" "A1" "A3"
     = SheetManager.Ok (Some ["a"; "b"; "c"]).
Proof.
  intros execute_get.
  destruct (get_data_row_major execute_get "sheet" [["a"; "b"]; []; ["c"]])
    as [Hall Hrange].
  split.
  - apply Hall. reflexivity.
  - apply (Hrange "A"%char "1" "3"). reflexivity.
Defined.

(** X2. [get_data_with_range] lets neither [HttpError] nor [WrongRange]
    out, whatever the sheet answers: two cell references that start with
    different characters give [None]. It fails with an [IndexError] exactly
    when one of the two cell references is the empty string. *)
Theorem get_data_with_range_errors {A}
    (execute_get : string -> string -> SheetManager.GetAnswer A)
    (spreadsheet_id from_row to_row : string) :
  SheetManager.get_data_with_range execute_get spreadsheet_id from_row to_row
  <> SheetManager.Err SheetManager.HttpError
  /\ SheetManager.get_data_with_range execute_get spreadsheet_id from_row to_row
     <> SheetManager.Err SheetManager.WrongRange
  /\ (forall a b from_rest to_rest,
        from_row = String a from_rest -> to_row = String b to_rest ->
        a <> b ->
        SheetManager.get_data_with_range execute_get spreadsheet_id from_row
          to_row
        = SheetManager.Ok None)
  /\ (SheetManager.get_data_with_range execute_get spreadsheet_id from_row
        to_row
      = SheetManager.Err SheetManager.IndexError
      <-> from_row = EmptyString \/ to_row = EmptyString).
Proof.
  unfold SheetManager.get_data_with_range,
    SheetManager.get_data_with_range_try, SheetManager.gather.
  repeat split.
  - repeat case_match; discriminate.
  - repeat case_match; discriminate.
  - intros a b from_rest to_rest -> -> Hab.
    by rewrite (proj2 (Ascii.eqb_neq a b) Hab).
  - repeat case_match; simplify_eq; auto; discriminate.
  - intros [-> | ->]; [reflexivity |]. by destruct from_row.
Qed.

Lemma get_data_with_range_errors_witness :
  SheetManager.get_data_with_range
    (fun _ _ => @SheetManager.GetHttpError string) "sheet" "A1" "B3"
  = SheetManager.Ok None.
Proof.
  apply (proj1 (proj2 (proj2 (get_data_with_range_errors
           (fun _ _ => @SheetManager.GetHttpError string) "sheet" "A1" "B3")))
           "A"%char "B"%char "1" "3");
    [reflexivity | reflexivity | discriminate].
Defined.

(** ** The sheet manager: appending *)

Lemma lists_to_list_columns {A} (values : list A) :
  SheetManager.lists_to_list
    (SheetManager.rows (map (fun element => [element]) values)) None
  = values.
Proof.
  unfold SheetManager.lists_to_list. rewrite lists_to_list_item_spec. simpl.
  change (SheetManager.flatten
            (SheetManager.rows (map (fun element => [element]) values))
          = values).
  rewrite flatten_rows.
  induction values as [| x rest IH]; simpl; [reflexivity |]. by rewrite IH.
Qed.

(** X3. [append_data] answers [True] exactly when it is given a list and
    the append request goes through, for the range [A:A] and one
    single-cell list per value in the order of the values: reading those
    lists back with [lists_to_list] gives the values again. Otherwise it
    answers [None]; it never answers [False]. *)
Theorem append_data_columns {A}
    (execute_append : string -> string -> list (list A) -> bool)
    (spreadsheet_id : string) (values : SheetManager.PyArg A) :
  (SheetManager.append_data execute_append spreadsheet_id values = Some true
   <-> exists l data,
         values = SheetManager.AList l
         /\ execute_append spreadsheet_id "A:A" data = true
         /\ length data = length l
         /\ Forall (fun column => length column = 1%nat) data
         /\ SheetManager.lists_to_list (SheetManager.rows data) None = l)
  /\ SheetManager.append_data execute_append spreadsheet_id values
     <> Some false.
Proof.
  unfold SheetManager.append_data. split; [split |].
  - intros Hsent. destruct values as [l |]; [| discriminate].
    exists l, (map (fun element => [element]) l).
    repeat split.
    + by case_match.
    + by rewrite length_map.
    + apply Forall_forall. intros column Hin.
      apply list_elem_of_In, in_map_iff in Hin.
      by destruct Hin as (x & <- & _).
    + apply lists_to_list_columns.
  - intros (l & data & -> & Hok & Hlen & Hone & Hback).
    assert (Hdata : data = map (fun element => [element]) l).
    { clear Hok. revert l Hlen Hback.
      induction Hone as [| column data Hcolumn _ IH]; intros l Hlen Hback.
      - by destruct l.
      - destruct l as [| x l]; [discriminate |].
        destruct column as [| y [| ? ?]]; try discriminate.
        unfold SheetManager.lists_to_list in Hback, IH.
        rewrite lists_to_list_item_spec in Hback. simpl in Hback.
        injection Hback as -> Hrest. simpl. f_equal.
        apply IH; [by injection Hlen |].
        by rewrite lists_to_list_item_spec. }
    by rewrite <- Hdata, Hok.
  - destruct values; [case_match |]; discriminate.
Qed.

(** ** The sheet manager: the sheet id of a URL *)

Lemma split_cons (sep : ascii) (s : string) :
  exists head tail, SheetManager.split sep s = head :: tail.
Proof.
  induction s as [| c rest (head & tail & IH)]; simpl; [eauto |].
  destruct (Ascii.eqb c sep); [eauto |]. rewrite IH. eauto.
Qed.

Lemma split_length (sep : ascii) (s : string) :
  length (SheetManager.split sep s) = S (SheetManager.occurrences sep s).
Proof.
  induction s as [| c rest IH]; simpl; [reflexivity |].
  destruct (Ascii.eqb c sep); simpl; [by rewrite IH |].
  destruct (split_cons sep rest) as (head & tail & Hsplit).
  rewrite Hsplit in *. exact IH.
Qed.

(** A segment without separator, followed by a separator and more. *)
Lemma split_segment (sep : ascii) (segment rest : string) :
  SheetManager.occurrences sep segment = 0%nat ->
  SheetManager.split sep (segment ++ String sep rest)
  = segment :: SheetManager.split sep rest.
Proof.
  induction segment as [| c segment IH]; simpl.
  - intros _. by rewrite Ascii.eqb_refl.
  - destruct (Ascii.eqb c sep); [discriminate |].
    intros Hfree. by rewrite (IH Hfree).
Qed.

Lemma split_last (sep : ascii) (segment : string) :
  SheetManager.occurrences sep segment = 0%nat ->
  SheetManager.split sep segment = [segment].
Proof.
  induction segment as [| c segment IH]; simpl; [reflexivity |].
  destruct (Ascii.eqb c sep); [discriminate |].
  intros Hfree. by rewrite (IH Hfree).
Qed.

Lemma append_data_columns_witness :
  SheetManager.append_data (fun _ _ (_ : list (list Z)) => true) "sheet"
    (SheetManager.AList [1; 2; 3])
  = Some true.
Proof.
  apply (proj2 (proj1 (append_data_columns
                         (fun _ _ (_ : list (list Z)) => true) "sheet"
                         (SheetManager.AList [1; 2; 3])))).
  exists [1; 2; 3], [[1]; [2]; [3]].
  repeat split; repeat constructor.
Defined.

(** X4. For a URL whose network location is [docs.google.com],
    [get_sheet_id_from_url] returns the fourth of the segments the path
    has between its slashes, the path beginning with the (empty) first
    one: the id of [/spreadsheets/d/<id>] and of [/spreadsheets/d/<id>/...]. *)
Theorem get_sheet_id_from_url_segment
    (urlparse : string -> string * string) (url : string)
    (s0 s1 s2 sheet_id : string) :
  SheetManager.occurrences "/" s0 = 0%nat ->
  SheetManager.occurrences "/" s1 = 0%nat ->
  SheetManager.occurrences "/" s2 = 0%nat ->
  SheetManager.occurrences "/" sheet_id = 0%nat ->
  (urlparse url
   = ("docs.google.com",
      s0 ++ String "/" (s1 ++ String "/" (s2 ++ String "/" sheet_id)))%string ->
   SheetManager.get_sheet_id_from_url urlparse url
   = SheetManager.Ok (Some sheet_id))
  /\ (forall rest,
        urlparse url
        = ("docs.google.com",
           s0 ++ String "/" (s1 ++ String "/" (s2 ++ String "/"
                (sheet_id ++ String "/" rest))))%string ->
        SheetManager.get_sheet_id_from_url urlparse url
        = SheetManager.Ok (Some sheet_id)).
Proof.
  intros H0 H1 H2 H3. unfold SheetManager.get_sheet_id_from_url. split.
  - intros ->. simpl fst. simpl snd. simpl negb. cbv iota.
    by rewrite !split_segment, split_last.
  - intros rest ->. simpl fst. simpl snd. simpl negb. cbv iota.
    by rewrite !split_segment.
Qed.

Lemma get_sheet_id_from_url_segment_witness :
  SheetManager.get_sheet_id_from_url
    (fun _ =>
       ("docs.google.com",
        "/spreadsheets/d/1p0Q49GW9HUXBkd5LmKB9k7TRngc4fUE/edit"))
    "https://docs.google.com/spreadsheets/d/1p0Q49GW9HUXBkd5LmKB9k7TRngc4fUE/edit#gid=0"
  = SheetManager.Ok (Some "1p0Q49GW9HUXBkd5LmKB9k7TRngc4fUE").
Proof.
  apply (proj2 (get_sheet_id_from_url_segment _ _ "" "spreadsheets" "d"
                  "1p0Q49GW9HUXBkd5LmKB9k7TRngc4fUE"
                  eq_refl eq_refl eq_refl eq_refl) "edit").
  reflexivity.
Defined.

(** X5. [get_sheet_id_from_url] returns [None] exactly for a URL whose
    network location is not [docs.google.com], and fails with an
    [IndexError] exactly when the location is [docs.google.com] and the path
    has fewer than three slashes. *)
Theorem get_sheet_id_from_url_outcomes
    (urlparse : string -> string * string) (url : string) :
  (SheetManager.get_sheet_id_from_url urlparse url = SheetManager.Ok None
   <-> fst (urlparse url) <> "docs.google.com")
  /\ (SheetManager.get_sheet_id_from_url urlparse url
      = SheetManager.Err SheetManager.IndexError
      <-> fst (urlparse url) = "docs.google.com"
          /\ (SheetManager.occurrences "/" (snd (urlparse url)) < 3)%nat).
Proof.
  unfold SheetManager.get_sheet_id_from_url.
  destruct (String.eqb_spec (fst (urlparse url)) "docs.google.com")
    as [Hhost | Hhost]; simpl negb; cbv iota.
  - destruct (SheetManager.split "/" (snd (urlparse url)) !! 3%nat)
      as [sheet_id |] eqn:Hsegment.
    + apply lookup_lt_Some in Hsegment. rewrite split_length in Hsegment.
      split; split; try discriminate; try tauto.
      all: intros [_ Hfew]; lia.
    + apply lookup_ge_None in Hsegment. rewrite split_length in Hsegment.
      split; split; try discriminate; try tauto.
      all: intros _; split; [exact Hhost | lia].
  - split; split; try discriminate; try tauto.
Qed.

Lemma get_sheet_id_from_url_outcomes_witness :
  SheetManager.get_sheet_id_from_url
    (fun _ => ("docs.google.com", "/spreadsheets")) "u"
  = SheetManager.Err SheetManager.IndexError
  /\ SheetManager.get_sheet_id_from_url
       (fun _ => ("example.org", "/spreadsheets/d/1/edit")) "u"
     = SheetManager.Ok None.
Proof.
  split.
  - apply (proj2 (proj2 (get_sheet_id_from_url_outcomes
                           (fun _ => ("docs.google.com", "/spreadsheets"))
                           "u"))).
    split; [reflexivity | repeat constructor].
  - apply (proj2 (proj1 (get_sheet_id_from_url_outcomes
                           (fun _ => ("example.org", "/spreadsheets/d/1/edit"))
                           "u"))).
    discriminate.
Defined.

(** ** The field table: lookups after writes *)

Lemma find_map_replace {A} (key : A -> Z) (k : Z) (x : A) (l : list A) :
  key x = k ->
  (exists y, find (fun a => key a =? k) l = Some y) ->
  find (fun a => key a =? k) (map (fun a => if key a =? k then x else a) l)
  = Some x.
Proof.
  intros Hx [y Hy]. induction l as [| a l IH]; simpl in *; [discriminate |].
  destruct (key a =? k) eqn:Ha.
  - simpl. by rewrite Hx, Z.eqb_refl.
  - simpl. rewrite Ha. by apply IH.
Qed.

Lemma find_map_replace_other {A} (key : A -> Z) (k k' : Z) (x : A)
    (l : list A) :
  key x = k -> k' <> k ->
  find (fun a => key a =? k') (map (fun a => if key a =? k then x else a) l)
  = find (fun a => key a =? k') l.
Proof.
  intros Hx Hne. induction l as [| a l IH]; simpl; [reflexivity |].
  destruct (key a =? k) eqn:Ha.
  - apply Z.eqb_eq in Ha. rewrite Hx, Ha.
    rewrite (proj2 (Z.eqb_neq k k')) by congruence. exact IH.
  - destruct (key a =? k'); [reflexivity | exact IH].
Qed.

Lemma find_filter_removed {A} (key : A -> Z) (k : Z) (l : list A) :
  find (fun a => key a =? k) (List.filter (fun a => negb (key a =? k)) l)
  = None.
Proof.
  induction l as [| a l IH]; simpl; [reflexivity |].
  destruct (key a =? k) eqn:Ha; simpl; [exact IH |]. by rewrite Ha.
Qed.

Lemma find_filter_other {A} (key : A -> Z) (k k' : Z) (l : list A) :
  k' <> k ->
  find (fun a => key a =? k') (List.filter (fun a => negb (key a =? k)) l)
  = find (fun a => key a =? k') l.
Proof.
  intros Hne. induction l as [| a l IH]; simpl; [reflexivity |].
  destruct (key a =? k) eqn:Ha; simpl.
  - apply Z.eqb_eq in Ha. rewrite Ha.
    rewrite (proj2 (Z.eqb_neq k k')) by congruence. exact IH.
  - destruct (key a =? k'); [reflexivity | exact IH].
Qed.

Lemma find_app_fresh {A} (P : A -> bool) (l : list A) (x : A) :
  Forall (fun a => P a = false) l -> P x = true ->
  find P (l ++ [x]) = Some x.
Proof.
  intros Hl Hx. induction Hl as [| a l Ha _ IH]; simpl.
  - by rewrite Hx.
  - by rewrite Ha.
Qed.

(** X6. When [FieldService.update] returns the instance, the instance has
    the id asked for and, attribute by attribute, the new value where one
    was given and the old value where the argument was [None]; looking the
    id up afterwards finds the instance, every other id is looked up as
    before, and no other table is touched. *)
Theorem update_then_get_by_id
    (C : Collab) (field_id : Z) (name : option string)
    (owner_id field_type : option Z) (is_strict : option bool)
    (w w1 : World) (f : Field) :
  FieldService.update C field_id name owner_id field_type is_strict w
  = (Return (Some f), w1) ->
  (exists old,
     find (fun g => f_id g =? field_id) (fields (store w)) = Some old
     /\ f = mkField field_id
              (default (f_name old) name)
              (default (f_owner_id old) owner_id)
              (default (f_field_type old) field_type)
              (default (f_is_strict old) is_strict))
  /\ fst (FieldService.get_by_id field_id w1) = Return (Some f)
  /\ (forall other,
        other <> field_id ->
        fst (FieldService.get_by_id other w1)
        = fst (FieldService.get_by_id other w))
  /\ with_fields (store w1) (fields (store w)) = store w.
Proof.
  unfold FieldService.update, transaction_decorator, FieldService.get_by_id,
    FieldService.session_merge.
  unfold_monad. simpl. intros H.
  repeat case_match; simplify_eq. simpl.
  match goal with
  | Hfind : find _ _ = Some ?old |- _ =>
      pose proof (find_some _ _ Hfind) as [_ Hid]; apply Z.eqb_eq in Hid;
      rename Hfind into Hold
  end.
  subst field_id. repeat split.
  - eexists. split; reflexivity.
  - f_equal.
    apply (find_map_replace f_id); [reflexivity | eauto].
  - intros other Hother. f_equal.
    apply (find_map_replace_other f_id); [reflexivity | congruence].
  - by destruct (store w).
Qed.

Lemma update_then_get_by_id_witness :
  let f := mkField 1 "colour" 1 4 true in
  fst (FieldService.get_by_id 1
         (snd (FieldService.update Reference.collab 1 (Some "colour") None
                 None (Some true) sample_world)))
  = Return (Some f).
Proof.
  intros f.
  apply (update_then_get_by_id Reference.collab 1 (Some "colour") None None
           (Some true) sample_world _ f).
  vm_compute. reflexivity.
Defined.

(** ** Unknown field ids *)

Lemma Field_update_missing (C : Collab) (field_id : Z) (name : option string)
    (owner_id field_type : option Z) (is_strict : option bool) (w : World) :
  find (fun g => f_id g =? field_id) (fields (store w)) = None ->
  FieldService.update C field_id name owner_id field_type is_strict w
  = (Raise FieldNotExist, mkWorld (store w) (trace w ++ [Field_get])).
Proof.
  intros Hmissing.
  unfold FieldService.update, transaction_decorator, FieldService.get_by_id.
  unfold_monad. simpl. by rewrite Hmissing.
Qed.

(** X7. For an id that no Field row has, [FieldService.update],
    [FieldService.delete] and the four update operations raise
    [FieldNotExist] and leave the store as it was. *)
Theorem unknown_field_id_raises_FieldNotExist
    (C : Collab) (field_id : Z) (name : option string) (w : World) :
  find (fun g => f_id g =? field_id) (fields (store w)) = None ->
  let unchanged {A} (r : Outcome A * World) :=
    fst r = Raise FieldNotExist /\ store (snd r) = store w in
  (forall owner_id field_type is_strict,
     unchanged (FieldService.update C field_id name owner_id field_type
                  is_strict w))
  /\ unchanged (FieldService.delete C field_id w)
  /\ (forall range_min range_max delete_range is_strict,
        unchanged (FieldService.update_text_or_number_field C field_id name
                     range_min range_max delete_range is_strict w))
  /\ (forall added removed,
        unchanged (FieldService.update_radio_field C field_id name added
                     removed w))
  /\ (forall data_url sheet from_row to_row,
        unchanged (FieldService.update_autocomplete_field C field_id name
                     data_url sheet from_row to_row w))
  /\ (forall range_max range_min delete_range added removed,
        unchanged (FieldService.update_checkbox_field C field_id name
                     range_max range_min delete_range added removed w)).
Proof.
  intros Hmissing unchanged. unfold unchanged.
  pose proof (fun o t s => Field_update_missing C field_id name o t s w Hmissing)
    as Hupdate.
  repeat split; intros.
  1, 2: by rewrite Hupdate.
  1, 2: unfold FieldService.delete, transaction_decorator,
          FieldService.get_by_id; unfold_monad; simpl; by rewrite Hmissing.
  all: unfold FieldService.update_text_or_number_field,
         FieldService.update_radio_field,
         FieldService.update_autocomplete_field,
         FieldService.update_checkbox_field;
       erewrite decorator_raise
         by (erewrite bind_raise by apply Hupdate; reflexivity);
       reflexivity.
Qed.

Lemma unknown_field_id_raises_FieldNotExist_witness :
  fst (FieldService.update_radio_field Reference.collab 7 (Some "x") None None
         sample_world)
  = Raise FieldNotExist
  /\ store (snd (FieldService.update_radio_field Reference.collab 7 (Some "x")
                   None None sample_world))
     = store sample_world.
Proof.
  apply (unknown_field_id_raises_FieldNotExist Reference.collab 7 (Some "x")
           sample_world).
  vm_compute. reflexivity.
Defined.

(** ** Deleting and creating a Field row *)

(** X8. [FieldService.delete] never answers [False]. When it answers
    [True], looking the id up afterwards finds nothing, every other id is
    looked up as before, and no other table is touched; when it answers
    [None], the store is the one before the call. *)
Theorem delete_then_get_by_id (C : Collab) (field_id : Z) (w : World) :
  fst (FieldService.delete C field_id w) <> Return (Some false)
  /\ (fst (FieldService.delete C field_id w) = Return (Some true) ->
      let w1 := snd (FieldService.delete C field_id w) in
      fst (FieldService.get_by_id field_id w1) = Return None
      /\ (forall other,
            other <> field_id ->
            fst (FieldService.get_by_id other w1)
            = fst (FieldService.get_by_id other w))
      /\ with_fields (store w1) (fields (store w)) = store w)
  /\ (fst (FieldService.delete C field_id w) = Return None ->
      store (snd (FieldService.delete C field_id w)) = store w).
Proof.
  unfold FieldService.delete, transaction_decorator, FieldService.get_by_id,
    FieldService.session_delete.
  unfold_monad. simpl.
  destruct (find (fun f => f_id f =? field_id) (fields (store w)))
    as [f |] eqn:Hfind; simpl.
  - apply find_some in Hfind as [_ Hid]. apply Z.eqb_eq in Hid. subst field_id.
    case_match; simpl; repeat split; intros; try congruence.
    + f_equal. apply (find_filter_removed f_id).
    + f_equal. by apply (find_filter_other f_id).
    + by destruct (store w).
  - repeat split; intros; congruence.
Qed.

Lemma delete_then_get_by_id_witness :
  fst (FieldService.get_by_id 1
         (snd (FieldService.delete Reference.collab 1 sample_world)))
  = Return None.
Proof.
  apply (proj1 (proj2 (delete_then_get_by_id Reference.collab 1 sample_world))).
  vm_compute. reflexivity.
Defined.

(** X9. [FieldService.create] does not raise. When it returns an instance,
    the instance carries the arguments and the next primary key, and is the
    one row added, at the end of the Field table; when it returns [None]
    the store is the one before the call. If all ids were below the next
    primary key before, they are so afterwards, and looking the new id up
    finds the instance. *)
Theorem create_then_get_by_id
    (C : Collab) (name : string) (owner_id field_type : Z) (is_strict : bool)
    (w : World) :
  let r := FieldService.create C name owner_id field_type is_strict w in
  let f := mkField (next_id (store w)) name owner_id field_type is_strict in
  (fst r = Return None /\ store (snd r) = store w
   \/ fst r = Return (Some f)
      /\ store (snd r) = bump (with_fields (store w) (fields (store w) ++ [f])))
  /\ (field_ids_below (store w) ->
      field_ids_below (store (snd r))
      /\ (fst r = Return (Some f) ->
          fst (FieldService.get_by_id (f_id f) (snd r)) = Return (Some f))).
Proof.
  unfold FieldService.create, transaction_decorator, FieldService.session_add,
    FieldService.get_by_id, field_ids_below.
  unfold_monad. simpl.
  case_match; simpl.
  - split; [right; split; reflexivity |].
    intros Hbelow. split.
    + apply Forall_app. split.
      * eapply Forall_impl; [exact Hbelow |]. intros g Hg. simpl in *. lia.
      * repeat constructor. simpl. lia.
    + intros _. f_equal. apply find_app_fresh.
      * eapply Forall_impl; [exact Hbelow |]. intros g Hg. simpl in *.
        apply Z.eqb_neq. lia.
      * simpl. apply Z.eqb_refl.
  - split; [left; split; reflexivity |].
    intros Hbelow. split; [exact Hbelow | discriminate].
Qed.

Lemma create_then_get_by_id_witness :
  let r := FieldService.create Reference.collab "age" 1 2 false sample_world in
  field_ids_below (store (snd r))
  /\ fst (FieldService.get_by_id 9 (snd r))
     = Return (Some (mkField 9 "age" 1 2 false)).
Proof.
  intros r.
  destruct (proj2 (create_then_get_by_id Reference.collab "age" 1 2 false
                     sample_world)) as [Hbelow Hget].
  - unfold field_ids_below. rewrite sample_world_store. simpl.
    repeat constructor.
  - split; [exact Hbelow |]. apply Hget. vm_compute. reflexivity.
Defined.

(** ** Filtering the Field table *)

Lemma criterion_spec {A} (eqb : A -> A -> bool) (arg : option A) (column : A) :
  (forall x y, eqb x y = true <-> x = y) ->
  FieldService.criterion eqb arg column = true
  <-> (forall v, arg = Some v -> column = v).
Proof.
  intros Heqb. destruct arg as [v |]; simpl.
  - rewrite Heqb. split; [by intros -> ? [= <-] | by intros H; apply H].
  - split; [by intros _ ? [=] | reflexivity].
Qed.

Lemma head_filter_find {A} (P : A -> bool) (l : list A) :
  head (List.filter P l) = find P l.
Proof.
  induction l as [| a l IH]; simpl; [reflexivity |].
  by destruct (P a).
Qed.

(** X10. [FieldService.filter] does not touch the world. Its answer holds
    exactly the Field rows that agree with every argument that is not
    [None]; with no argument given it is the whole table, and with only the
    id given its first row is what [get_by_id] finds. *)
Theorem filter_answer
    (field_id : option Z) (name : option string)
    (owner_id field_type : option Z) (is_strict : option bool) (w : World) :
  (exists rows,
     FieldService.filter field_id name owner_id field_type is_strict w
     = (Return rows, w)
     /\ forall f,
          In f rows
          <-> In f (fields (store w))
              /\ (forall v, field_id = Some v -> f_id f = v)
              /\ (forall v, name = Some v -> f_name f = v)
              /\ (forall v, owner_id = Some v -> f_owner_id f = v)
              /\ (forall v, field_type = Some v -> f_field_type f = v)
              /\ (forall v, is_strict = Some v -> f_is_strict f = v))
  /\ FieldService.filter None None None None None w
     = (Return (fields (store w)), w)
  /\ (forall i,
        exists rows,
          FieldService.filter (Some i) None None None None w = (Return rows, w)
          /\ fst (FieldService.get_by_id i w) = Return (head rows)).
Proof.
  unfold FieldService.filter, FieldService.get_by_id. unfold_monad. simpl.
  split; [| split].
  - eexists. split; [reflexivity |]. intros f.
    rewrite filter_In, !andb_true_iff.
    rewrite (criterion_spec Z.eqb field_id) by apply Z.eqb_eq.
    rewrite (criterion_spec String.eqb name) by apply String.eqb_eq.
    rewrite (criterion_spec Z.eqb owner_id) by apply Z.eqb_eq.
    rewrite (criterion_spec Z.eqb field_type) by apply Z.eqb_eq.
    rewrite (criterion_spec Bool.eqb is_strict) by apply Bool.eqb_true_iff.
    tauto.
  - f_equal. f_equal.
    induction (fields (store w)) as [| f l IH]; simpl; [reflexivity |].
    by rewrite IH.
  - intros i. eexists. split; [reflexivity |]. f_equal.
    rewrite head_filter_find.
    induction (fields (store w)) as [| f l IH]; simpl; [reflexivity |].
    rewrite !andb_true_r. by destruct (f_id f =? i).
Qed.

Lemma filter_answer_witness :
  exists rows,
    FieldService.filter None None (Some 1) (Some 6) None sample_world
    = (Return rows, sample_world)
    /\ In (mkField 5 "pick" 1 6 false) rows.
Proof.
  destruct (proj1 (filter_answer None None (Some 1) (Some 6) None
                     sample_world)) as (rows & Hrun & Hrows).
  exists rows. split; [exact Hrun |].
  apply Hrows. rewrite sample_world_store. simpl.
  repeat split; try (intros v [=]; congruence). right. by left.
Defined.

(** ** Reading the additional options: no writes *)

Lemma reads_ret {A} (a : A) : reads_only (ret a).
Proof. by intros w. Qed.

Lemma reads_raise {A} (e : Error) : reads_only (@raise A e).
Proof. by intros w. Qed.

Lemma reads_bind {A B} (m : M A) (k : A -> M B) :
  reads_only m -> (forall a, reads_only (k a)) -> reads_only (bind m k).
Proof.
  intros Hm Hk w. unfold bind. specialize (Hm w).
  destruct (m w) as [[a | e] w1]; simpl in *; [| exact Hm].
  by rewrite Hk.
Qed.

Lemma reads_attr {A B} (x : option A) (f : A -> B) : reads_only (attr x f).
Proof. destruct x; [apply reads_ret | apply reads_raise]. Qed.

Lemma reads_try_except {A} (body handler : M A) (e : Error) :
  reads_only body -> reads_only handler ->
  reads_only (try_except body e handler).
Proof.
  intros Hb Hh w. unfold try_except. specialize (Hb w).
  destruct (body w) as [[a | e'] w1]; simpl in *; [exact Hb |].
  destruct (decide (e' = e)); [| exact Hb]. by rewrite Hh.
Qed.

Lemma reads_query {A} (c : Call) (q : DB -> A) :
  reads_only (let* _ := call c in let* d := get_db in ret (q d)).
Proof. by intros w. Qed.

Ltac reads_step :=
  first
    [ apply reads_query
    | apply reads_ret
    | apply reads_raise
    | apply reads_attr
    | apply reads_bind; [| intros ?]
    | apply reads_try_except
    | progress case_match ].

Lemma reads_add_range (range_field : option FieldRange) (data : Dict) :
  reads_only (FieldService.add_range range_field data).
Proof.
  unfold FieldService.add_range, RangeService.get_by_id. repeat reads_step.
Qed.

(** X11. [get_additional_options] only reads: whatever the field id and
    the field type, and whether it returns or raises, the store after the
    call is the store before it. *)
Theorem get_additional_options_reads_only
    (C : Collab) (field_id field_type : Z) (w : World) :
  store (snd (FieldService.get_additional_options C field_id field_type w))
  = store w.
Proof.
  revert w.
  change (reads_only
            (FieldService.get_additional_options C field_id field_type)).
  pose proof reads_add_range.
  unfold FieldService.get_additional_options,
    FieldService._get_text_or_number_additional_options,
    FieldService._get_choice_additional_options,
    FieldService._get_autocomplete_additional_options,
    FieldService.get_by_id, FieldRangeService.get_by_field_id,
    ChoiceOptionService.filter, SettingAutocompleteService.get_by_field_id.
  repeat reads_step; auto.
Qed.

(** ** Reading the additional options: what comes back *)

Lemma field_type_eqb_ne (C : Collab) (t t' : FieldType) :
  Inj (=) (=) (FieldType_value C) -> t <> t' ->
  (FieldType_value C t =? FieldType_value C t') = false.
Proof.
  intros Hinj Hne. apply Z.eqb_neq. intros Heq. by apply Hinj in Heq.
Qed.

Ltac choose_branch Hinj :=
  rewrite ?Z.eqb_refl, ?(field_type_eqb_ne _ _ _ Hinj) by discriminate;
  simpl orb; cbv iota.

(** X12. Given that the members of [FieldType] have distinct values:
    for the Number or Text type and an id that no Field row has,
    [get_additional_options] fails with an [AttributeError]; for the
    Autocomplete type and a field without settings it raises
    [SettingAutocompleteNotExist], which it does not catch; for the
    TextArea type it returns the empty mapping without reading anything. *)
Theorem get_additional_options_uncaught
    (C : Collab) (field_id : Z) (w : World) :
  Inj (=) (=) (FieldType_value C) ->
  (forall t,
     t = Number \/ t = Text ->
     find (fun g => f_id g =? field_id) (fields (store w)) = None ->
     fst (FieldService.get_additional_options C field_id (FieldType_value C t)
            w)
     = Raise AttributeError)
  /\ (find (fun s => sa_field_id s =? field_id) (settings (store w)) = None ->
      fst (FieldService.get_additional_options C field_id
             (FieldType_value C Autocomplete) w)
      = Raise SettingAutocompleteNotExist)
  /\ FieldService.get_additional_options C field_id
       (FieldType_value C TextArea) w
     = (Return (Some ∅), w).
Proof.
  intros Hinj. unfold FieldService.get_additional_options, try_except.
  split; [| split].
  - intros t [-> | ->] Hmissing; choose_branch Hinj.
    all: unfold_reads; unfold_monad; simpl; by rewrite Hmissing.
  - intros Hmissing. choose_branch Hinj.
    unfold_reads. unfold_monad. simpl. by rewrite Hmissing.
  - by choose_branch Hinj.
Qed.

Lemma Reference_values_distinct :
  Inj (=) (=) (FieldType_value Reference.collab).
Proof. intros x y Hxy. by destruct x, y. Qed.

Lemma get_additional_options_uncaught_witness :
  fst (FieldService.get_additional_options Reference.collab 7 2 sample_world)
  = Raise AttributeError
  /\ fst (FieldService.get_additional_options Reference.collab 1 5
            sample_world)
     = Raise SettingAutocompleteNotExist.
Proof.
  destruct (get_additional_options_uncaught Reference.collab 7 sample_world
              Reference_values_distinct) as (Hnumber & _ & _).
  destruct (get_additional_options_uncaught Reference.collab 1 sample_world
              Reference_values_distinct) as (_ & Hauto & _).
  split.
  - apply (Hnumber Number); [by left | vm_compute; reflexivity].
  - apply Hauto. vm_compute. reflexivity.
Defined.

(** X13. Given that the members of [FieldType] have distinct values, what
    [get_additional_options] returns for a field that is there: for the
    Number or Text type, [isStrict] (true) exactly when the field is strict
    and the [range] the field is linked to, if any; for the Radio or
    Checkbox type, the texts of the field's options in table order under
    [choiceOptions] and that same [range]; for the Autocomplete type, the
    four descriptors of the field's first setting. No other key is set. *)
Theorem get_additional_options_answer
    (C : Collab) (field_id : Z) (w : World) :
  Inj (=) (=) (FieldType_value C) ->
  (forall t f,
     t = Number \/ t = Text ->
     find (fun g => f_id g =? field_id) (fields (store w)) = Some f ->
     exists data,
       fst (FieldService.get_additional_options C field_id
              (FieldType_value C t) w)
       = Return (Some data)
       /\ data !! "isStrict"
          = (if f_is_strict f then Some (VBool true) else None)
       /\ data !! "range" = stored_range (store w) field_id
       /\ forall k, k <> "isStrict" -> k <> "range" -> data !! k = None)
  /\ (forall t o os,
        t = Radio \/ t = Checkbox ->
        List.filter (fun o => co_field_id o =? field_id)
                    (choice_options (store w)) = o :: os ->
        exists data,
          fst (FieldService.get_additional_options C field_id
                 (FieldType_value C t) w)
          = Return (Some data)
          /\ data !! "choiceOptions"
             = Some (VList (map co_option_text (o :: os)))
          /\ data !! "range" = stored_range (store w) field_id
          /\ forall k, k <> "choiceOptions" -> k <> "range" -> data !! k = None)
  /\ (forall s,
        find (fun s => sa_field_id s =? field_id) (settings (store w)) = Some s ->
        fst (FieldService.get_additional_options C field_id
               (FieldType_value C Autocomplete) w)
        = Return (Some {[ "settingAutocomplete" := FieldService.setting_json s ]})).
Proof.
  intros Hinj.
  unfold FieldService.get_additional_options, try_except, stored_range.
  split; [| split].
  - intros t f [-> | ->] Hfield; choose_branch Hinj.
    all: unfold_reads; unfold_monad; simpl; rewrite Hfield; simpl.
    all: repeat case_match; simplify_eq; simpl.
    all: eexists; (split; [reflexivity |]).
    all: repeat split; intros; by simplify_map_eq.
  - intros t o os [-> | ->] Hoptions; choose_branch Hinj.
    all: unfold_reads; unfold_monad; simpl; rewrite Hoptions; simpl.
    all: repeat case_match; simplify_eq; simpl.
    all: eexists; (split; [reflexivity |]).
    all: repeat split; intros; by simplify_map_eq.
  - intros s Hsetting. choose_branch Hinj.
    unfold_reads. unfold_monad. simpl. by rewrite Hsetting.
Qed.

Lemma get_additional_options_answer_witness :
  exists data,
    fst (FieldService.get_additional_options Reference.collab 5 6 sample_world)
    = Return (Some data)
    /\ data !! "choiceOptions" = Some (VList ["a"; "b"])
    /\ data !! "range" = Some (VRange (Some 1) (Some 2)).
Proof.
  destruct (get_additional_options_answer Reference.collab 5 sample_world
              Reference_values_distinct) as (_ & Hchoice & _).
  destruct (Hchoice Checkbox (mkChoiceOption 7 5 "a") [mkChoiceOption 8 5 "b"])
    as (data & Hrun & Hoptions & Hrange & _).
  - by right.
  - vm_compute. reflexivity.
  - exists data. split; [exact Hrun |]. split; [exact Hoptions |].
    rewrite Hrange. vm_compute. reflexivity.
Defined.

(** ** The range echoed by a creation *)

Lemma bind_inv {A B} (m : M A) (k : A -> M B) (w w' : World) (b : B) :
  bind m k w = (Return b, w') ->
  exists a w1, m w = (Return a, w1) /\ k a w1 = (Return b, w').
Proof.
  unfold bind. destruct (m w) as [[a | e] w1]; [eauto | discriminate].
Qed.

Lemma decorator_inv (C : Collab) {A} (func : M A) (w w' : World) (a : A) :
  transaction_decorator C func w = (Return (Some a), w') ->
  func w = (Return a, w').
Proof.
  unfold transaction_decorator.
  destruct (func w) as [[a' | e] w1]; [| discriminate].
  destruct (integrity C (store w1)); [| discriminate]. by intros [= -> ->].
Qed.

Lemma ret_inv {A} (a b : A) (w w' : World) :
  ret a w = (Return b, w') -> a = b /\ w = w'.
Proof. by intros [= -> ->]. Qed.

(** X14. Provided the number/text schema dumps no [range] key, the mapping
    that [create_text_or_number_field] returns gives the two bounds of the
    call back through [check_for_range], both [None] when none was
    supplied, and has [isStrict] set when the field was created strict. *)
Theorem check_for_range_of_created
    (C : Collab) (name : string) (owner_id field_type : Z) (is_strict : bool)
    (range_min range_max : option Z) (w w' : World) (data : Dict) :
  (forall f, dump C FieldNumberTextSchema (Some f) !! "range" = None) ->
  FieldService.create_text_or_number_field C name owner_id field_type
    is_strict range_min range_max w
  = (Return (Some data), w') ->
  FieldService.check_for_range data = Return (range_min, range_max)
  /\ (is_strict = true -> data !! "isStrict" = Some (VBool true)).
Proof.
  intros Hdump Hrun. unfold FieldService.create_text_or_number_field in Hrun.
  apply decorator_inv, bind_inv in Hrun as (field & w1 & _ & Hrun).
  destruct field as [f |]; [| discriminate].
  unfold FieldService.check_for_range.
  destruct (is_not_None range_min || is_not_None range_max) eqn:Hbounds.
  - apply bind_inv in Hrun as (range_instance & w2 & _ & Hrun).
    apply bind_inv in Hrun as (fid & w3 & _ & Hrun).
    apply bind_inv in Hrun as (rid & w4 & _ & Hrun).
    apply bind_inv in Hrun as (link & w5 & _ & Hrun).
    apply ret_inv in Hrun as [<- _].
    rewrite lookup_insert_eq. simpl. split; [reflexivity |].
    intros ->. rewrite lookup_insert_ne by discriminate.
    apply lookup_insert_eq.
  - apply ret_inv in Hrun as [<- _].
    destruct range_min, range_max; try discriminate.
    destruct is_strict.
    + rewrite lookup_insert_ne, Hdump by discriminate.
      split; [reflexivity |]. intros _. apply lookup_insert_eq.
    + rewrite Hdump. split; [reflexivity | discriminate].
Qed.

Lemma check_for_range_of_created_witness :
  let data := <["range" := VRange (Some 18) None]>
                (<["isStrict" := VBool true]>
                   (Reference.base_view (mkField 9 "age" 1 2 true))) in
  FieldService.check_for_range data = Return (Some 18, None)
  /\ data !! "isStrict" = Some (VBool true).
Proof.
  intros data.
  destruct (check_for_range_of_created Reference.collab "age" 1 2 true
              (Some 18) None sample_world
              (snd (FieldService.create_text_or_number_field Reference.collab
                      "age" 1 2 true (Some 18) None sample_world))
              data)
    as [Hrange Hstrict].
  - intros f. reflexivity.
  - vm_compute. reflexivity.
  - split; [exact Hrange | by apply Hstrict].
Defined.

(** ** Creating an autocomplete field *)

(** X15. The mapping that [create_autocomplete_field] returns has the four
    descriptors of the call under [settingAutocomplete]. When the base Field
    is created but the settings row is not, the call raises
    [SettingAutocompleteNotExist] and the store is the one before the call:
    the Field row is rolled back. *)
Theorem create_autocomplete_field_settings
    (C : Collab) (name : string) (owner_id field_type : Z)
    (data_url sheet from_row to_row : string) (is_strict : bool) (w : World) :
  (forall data w',
     FieldService.create_autocomplete_field C name owner_id field_type
       data_url sheet from_row to_row is_strict w
     = (Return (Some data), w') ->
     data !! "settingAutocomplete"
     = Some (VSetting data_url sheet from_row to_row))
  /\ (forall f w1 w2,
        FieldService.create C name owner_id field_type is_strict w
        = (Return (Some f), w1) ->
        SettingAutocompleteService.create C data_url sheet from_row to_row
          (f_id f) w1
        = (Return None, w2) ->
        FieldService.create_autocomplete_field C name owner_id field_type
          data_url sheet from_row to_row is_strict w
        = (Raise SettingAutocompleteNotExist, mkWorld (store w) (trace w2))).
Proof.
  unfold FieldService.create_autocomplete_field. split.
  - intros data w' Hrun.
    apply decorator_inv, bind_inv in Hrun as (field & w1 & _ & Hrun).
    destruct field as [f |]; [| discriminate].
    apply bind_inv in Hrun as (settings & w2 & Hsettings & Hrun).
    destruct settings as [s |]; [| discriminate].
    apply ret_inv in Hrun as [<- _]. rewrite lookup_insert_eq.
    unfold SettingAutocompleteService.create in Hsettings.
    apply decorator_inv in Hsettings. unfold_monad. simpl in Hsettings.
    by injection Hsettings as <- _.
  - intros f w1 w2 Hcreate Hsettings.
    apply decorator_raise.
    rewrite (bind_ret _ _ _ _ _ Hcreate). simpl.
    by rewrite (bind_ret _ _ _ _ _ Hsettings).
Qed.

Lemma create_autocomplete_field_settings_witness :
  let C := mkCollab (fun d => match settings d with [] => true | _ => false end)
             Reference.FieldType_value Reference.dump in
  FieldService.create_autocomplete_field C "city" 1 5 "u" "Sheet1" "A1" "C5"
    false Reference.empty_world
  = (Raise SettingAutocompleteNotExist,
     mkWorld Reference.empty_db [Field_add; Setting_create]).
Proof.
  intros C.
  apply (proj2 (create_autocomplete_field_settings C "city" 1 5 "u" "Sheet1"
                  "A1" "C5" false Reference.empty_world)
           (mkField 1 "city" 1 5 false)
           (mkWorld (mkDB [mkField 1 "city" 1 5 false] [] [] [] [] 2)
                    [Field_add])
           (mkWorld (mkDB [mkField 1 "city" 1 5 false] [] [] [] [] 2)
                    [Field_add; Setting_create]));
    reflexivity.
Defined.

(** ** Stores that accept every commit *)

Lemma decorator_commit (C : Collab) {A} (func : M A) (w w' : World) (a : A) :
  (forall d, integrity C d = true) ->
  func w = (Return a, w') ->
  transaction_decorator C func w = (Return (Some a), w').
Proof. intros Hcommit Hrun. unfold transaction_decorator. by rewrite Hrun, Hcommit. Qed.

Lemma Field_create_commits (C : Collab) (name : string)
    (owner_id field_type : Z) (is_strict : bool) (w : World) :
  (forall d, integrity C d = true) ->
  let f := mkField (next_id (store w)) name owner_id field_type is_strict in
  FieldService.create C name owner_id field_type is_strict w
  = (Return (Some f),
     mkWorld (bump (with_fields (store w) (fields (store w) ++ [f])))
             (trace w ++ [Field_add])).
Proof. intros Hcommit f. by apply decorator_commit. Qed.

Lemma ChoiceOption_create_commits (C : Collab) (field_id : Z) (text : string)
    (w : World) :
  (forall d, integrity C d = true) ->
  let o := mkChoiceOption (next_id (store w)) field_id text in
  ChoiceOptionService.create C field_id text w
  = (Return (Some o),
     mkWorld (bump (with_choice_options (store w)
                      (choice_options (store w) ++ [o])))
             (trace w ++ [ChoiceOption_create])).
Proof. intros Hcommit o. by apply decorator_commit. Qed.

Lemma Range_create_commits (C : Collab) (range_min range_max : option Z)
    (w : World) :
  (forall d, integrity C d = true) ->
  let r := mkRange (next_id (store w)) range_min range_max in
  RangeService.create C range_min range_max w
  = (Return (Some r),
     mkWorld (bump (with_ranges (store w) (ranges (store w) ++ [r])))
             (trace w ++ [Range_create])).
Proof. intros Hcommit r. by apply decorator_commit. Qed.

Lemma FieldRange_create_commits (C : Collab) (field_id range_id : Z)
    (w : World) :
  (forall d, integrity C d = true) ->
  let l := mkFieldRange field_id range_id in
  FieldRangeService.create C field_id range_id w
  = (Return (Some l),
     mkWorld (with_field_ranges (store w) (field_ranges (store w) ++ [l]))
             (trace w ++ [FieldRange_create])).
Proof. intros Hcommit l. by apply decorator_commit. Qed.

(** The option loop of the create functions on a store that accepts every
    commit: one row per option, in order, all of the field. *)
Lemma choice_loop_commits (C : Collab) (f : Field) (opts : list string) :
  (forall d, integrity C d = true) ->
  forall (data : Dict) (l0 : list string) (w1 : World),
    data !! "choiceOptions" = Some (VList l0) ->
    exists w2 rows,
      for_fold opts data (fun option data =>
        let* data := append_choice_option data option in
        let* fid := attr (Some f) f_id in
        let* _ := ChoiceOptionService.create C fid option in
        ret data) w1
      = (Return (<["choiceOptions" := VList (l0 ++ opts)]> data), w2)
      /\ choice_options (store w2) = (choice_options (store w1) ++ rows)%list
      /\ map co_option_text rows = opts
      /\ Forall (fun r => co_field_id r = f_id f) rows
      /\ fields (store w2) = fields (store w1)
      /\ field_ranges (store w2) = field_ranges (store w1)
      /\ ranges (store w2) = ranges (store w1).
Proof.
  intros Hcommit.
  induction opts as [| x rest IH]; intros data l0 w1 Hdata; simpl.
  - exists w1, []. rewrite !app_nil_r, insert_id by exact Hdata.
    repeat split. constructor.
  - pose proof (ChoiceOption_create_commits C (f_id f) x w1 Hcommit) as Hcreate.
    simpl in Hcreate.
    destruct (IH (<["choiceOptions" := VList (l0 ++ [x])]> data)
                 (l0 ++ [x])%list
                 (mkWorld (bump (with_choice_options (store w1)
                            (choice_options (store w1)
                             ++ [mkChoiceOption (next_id (store w1)) (f_id f) x])))
                          (trace w1 ++ [ChoiceOption_create])))
      as (w2 & rows & Hrest & Hrows & Htexts & Hfield & Hf & Hl & Hr).
    { apply lookup_insert_eq. }
    exists w2, (mkChoiceOption (next_id (store w1)) (f_id f) x :: rows).
    rewrite insert_insert_eq, <- app_assoc in Hrest.
    split; [| repeat split].
    + unfold append_choice_option in *. unfold bind, attr, ret in *.
      rewrite Hdata. simpl. rewrite Hcreate. exact Hrest.
    + rewrite Hrows. simpl. by rewrite <- app_assoc.
    + simpl. by rewrite Htexts.
    + by constructor.
    + exact Hf.
    + exact Hl.
    + exact Hr.
Qed.

Lemma filter_fresh_app (n : Z) (old rows : list ChoiceOption) :
  Forall (fun o => co_field_id o <> n) old ->
  Forall (fun r => co_field_id r = n) rows ->
  List.filter (fun o => co_field_id o =? n) (old ++ rows) = rows.
Proof.
  intros Hold Hrows. rewrite List.filter_app.
  assert (Hnone : List.filter (fun o => co_field_id o =? n) old = []).
  { induction Hold as [| o old Ho _ IH]; simpl; [reflexivity |].
    by rewrite (proj2 (Z.eqb_neq _ _) Ho). }
  rewrite Hnone. simpl.
  induction Hrows as [| r rows Hr _ IH]; simpl; [reflexivity |].
  by rewrite (proj2 (Z.eqb_eq _ _) Hr), IH.
Qed.

Lemma find_fresh_none {A} (key : A -> Z) (n : Z) (l : list A) :
  Forall (fun a => key a <> n) l ->
  find (fun a => key a =? n) l = None.
Proof.
  induction 1 as [| a l Ha _ IH]; simpl; [reflexivity |].
  by rewrite (proj2 (Z.eqb_neq _ _) Ha).
Qed.

(** What [get_additional_options] answers for a choice type, by the option
    rows of the field and its stored range. *)
Lemma choice_answer (C : Collab) (field_id : Z) (t : FieldType) (w : World)
    (o : ChoiceOption) (os : list ChoiceOption) :
  Inj (=) (=) (FieldType_value C) ->
  t = Radio \/ t = Checkbox ->
  List.filter (fun o => co_field_id o =? field_id) (choice_options (store w))
  = o :: os ->
  exists data,
    fst (FieldService.get_additional_options C field_id (FieldType_value C t) w)
    = Return (Some data)
    /\ data !! "choiceOptions" = Some (VList (map co_option_text (o :: os)))
    /\ data !! "range" = stored_range (store w) field_id.
Proof.
  intros Hinj [-> | ->] Hoptions.
  all: unfold FieldService.get_additional_options, try_except, stored_range;
    choose_branch Hinj.
  all: unfold_reads; unfold_monad; simpl; rewrite Hoptions; simpl.
  all: repeat case_match; simplify_eq; simpl.
  all: eexists; (split; [reflexivity |]).
  all: split; by simplify_map_eq.
Qed.

(** ** Creating a choice field and reading it back *)

(** X16. On a store that accepts every commit and in which no option row
    and no range link refers to the next primary key, [create_radio_field]
    with a non-empty list of options returns a mapping and adds the Field
    row; afterwards [get_additional_options] for the new field, with the
    Radio or Checkbox type it was created with, answers the same options in
    the same order under [choiceOptions], and no [range]. The members of
    [FieldType] are taken to have distinct values. *)
Theorem create_radio_field_then_read
    (C : Collab) (name : string) (owner_id : Z) (t : FieldType)
    (opts : list string) (is_strict : bool) (w : World) :
  (forall d, integrity C d = true) ->
  Inj (=) (=) (FieldType_value C) ->
  t = Radio \/ t = Checkbox ->
  opts <> [] ->
  Forall (fun o => co_field_id o <> next_id (store w))
         (choice_options (store w)) ->
  Forall (fun l => fr_field_id l <> next_id (store w))
         (field_ranges (store w)) ->
  exists data w',
    FieldService.create_radio_field C name owner_id (FieldType_value C t)
      (Some opts) is_strict w
    = (Return (Some data), w')
    /\ fields (store w')
       = (fields (store w)
          ++ [mkField (next_id (store w)) name owner_id (FieldType_value C t)
                is_strict])%list
    /\ exists again,
         fst (FieldService.get_additional_options C (next_id (store w))
                (FieldType_value C t) w')
         = Return (Some again)
         /\ again !! "choiceOptions" = Some (VList opts)
         /\ again !! "range" = None.
Proof.
  intros Hcommit Hinj Ht Hopts Hfresh_options Hfresh_links.
  pose proof (Field_create_commits C name owner_id (FieldType_value C t)
                is_strict w Hcommit) as Hcreate.
  simpl in Hcreate.
  set (f := mkField (next_id (store w)) name owner_id (FieldType_value C t)
              is_strict) in *.
  set (w1 := mkWorld _ _) in Hcreate.
  destruct (choice_loop_commits C f opts Hcommit
              (<["choiceOptions" := VList []]>
                 (dump C FieldRadioSchema (Some f))) [] w1)
    as (w2 & rows & Hloop & Hrows & Htexts & Hfield & Hf & Hl & _).
  { apply lookup_insert_eq. }
  simpl in Hloop.
  assert (Hfilter :
    List.filter (fun o => co_field_id o =? next_id (store w))
                (choice_options (store w2)) = rows).
  { rewrite Hrows. by apply filter_fresh_app. }
  destruct rows as [| o os]; [by destruct opts |].
  destruct (choice_answer C (next_id (store w)) t w2 o os Hinj Ht Hfilter)
    as (again & Hread & Hoptions & Hrange).
  eexists _, w2. split; [| split].
  - unfold FieldService.create_radio_field.
    apply decorator_commit; [exact Hcommit |].
    assert (Htruthy : truthy (Some opts) = true) by (by destruct opts).
    rewrite Htruthy. simpl.
    rewrite (bind_ret _ _ _ _ _ Hcreate). simpl. exact Hloop.
  - exact Hf.
  - exists again. split; [exact Hread |]. split.
    + by rewrite Hoptions, Htexts.
    + rewrite Hrange. unfold stored_range. rewrite Hl. simpl.
      by rewrite (find_fresh_none fr_field_id).
Qed.

Lemma create_radio_field_then_read_witness :
  let C := mkCollab (fun _ => true) Reference.FieldType_value Reference.dump in
  exists data w',
    FieldService.create_radio_field C "size" 1 4 (Some ["S"; "M"; "L"]) false
      sample_world
    = (Return (Some data), w')
    /\ exists again,
         fst (FieldService.get_additional_options C 9 4 w')
         = Return (Some again)
         /\ again !! "choiceOptions" = Some (VList ["S"; "M"; "L"])
         /\ again !! "range" = None.
Proof.
  intros C.
  destruct (create_radio_field_then_read C "size" 1 Radio ["S"; "M"; "L"]
              false sample_world) as (data & w' & Hrun & _ & Hread).
  - reflexivity.
  - apply Reference_values_distinct.
  - by left.
  - discriminate.
  - rewrite sample_world_store. simpl. repeat constructor; discriminate.
  - rewrite sample_world_store. simpl. repeat constructor; discriminate.
  - exists data, w'. split; [exact Hrun |].
    rewrite sample_world_store in Hread. exact Hread.
Defined.

(** What [get_additional_options] answers for the Number or Text type, by
    the Field row and its stored range. *)
Lemma text_answer (C : Collab) (field_id : Z) (t : FieldType) (w : World)
    (f : Field) :
  Inj (=) (=) (FieldType_value C) ->
  t = Number \/ t = Text ->
  find (fun g => f_id g =? field_id) (fields (store w)) = Some f ->
  exists data,
    fst (FieldService.get_additional_options C field_id (FieldType_value C t) w)
    = Return (Some data)
    /\ data !! "isStrict" = (if f_is_strict f then Some (VBool true) else None)
    /\ data !! "range" = stored_range (store w) field_id.
Proof.
  intros Hinj [-> | ->] Hfield.
  all: unfold FieldService.get_additional_options, try_except, stored_range;
    choose_branch Hinj.
  all: unfold_reads; unfold_monad; simpl; rewrite Hfield; simpl.
  all: repeat case_match; simplify_eq; simpl.
  all: eexists; (split; [reflexivity |]).
  all: split; by simplify_map_eq.
Qed.

Lemma Forall_key_false {A} (key : A -> Z) (n : Z) (l : list A) :
  Forall (fun a => key a <> n) l ->
  Forall (fun a => (key a =? n) = false) l.
Proof.
  intros Hl. eapply Forall_impl; [exact Hl |].
  intros a Ha. by apply Z.eqb_neq.
Qed.

(** ** Creating a number or text field and reading it back *)

(** X17. On a store that accepts every commit and in which the next
    primary key is not yet the id of a field or the field of a link, nor
    its successor the id of a range, [create_text_or_number_field] returns
    a mapping; afterwards [get_additional_options] for the new field, with
    the Number or Text type it was created with, answers the bounds of the
    call under [range] (no [range] when neither was supplied) and
    [isStrict] exactly when the field was created strict, and
    [check_for_range] reads the two bounds back from that answer. The
    members of [FieldType] are taken to have distinct values. *)
Theorem create_text_or_number_field_then_read
    (C : Collab) (name : string) (owner_id : Z) (t : FieldType)
    (is_strict : bool) (range_min range_max : option Z) (w : World) :
  (forall d, integrity C d = true) ->
  Inj (=) (=) (FieldType_value C) ->
  t = Number \/ t = Text ->
  Forall (fun g => f_id g <> next_id (store w)) (fields (store w)) ->
  Forall (fun l => fr_field_id l <> next_id (store w))
         (field_ranges (store w)) ->
  Forall (fun r => r_id r <> next_id (store w) + 1) (ranges (store w)) ->
  exists data w',
    FieldService.create_text_or_number_field C name owner_id
      (FieldType_value C t) is_strict range_min range_max w
    = (Return (Some data), w')
    /\ exists again,
         fst (FieldService.get_additional_options C (next_id (store w))
                (FieldType_value C t) w')
         = Return (Some again)
         /\ again !! "range"
            = (if is_not_None range_min || is_not_None range_max
               then Some (VRange range_min range_max) else None)
         /\ again !! "isStrict"
            = (if is_strict then Some (VBool true) else None)
         /\ FieldService.check_for_range again
            = Return (range_min, range_max).
Proof.
  intros Hcommit Hinj Ht Hfields Hlinks Hranges.
  pose proof (Field_create_commits C name owner_id (FieldType_value C t)
                is_strict w Hcommit) as Hcreate.
  simpl in Hcreate.
  set (f := mkField (next_id (store w)) name owner_id (FieldType_value C t)
              is_strict) in *.
  set (w1 := mkWorld _ _) in Hcreate.
  assert (Hfind : forall d,
            fields d = (fields (store w) ++ [f])%list ->
            find (fun g => f_id g =? next_id (store w)) (fields d) = Some f).
  { intros d ->. apply find_app_fresh.
    - by apply (Forall_key_false f_id).
    - apply Z.eqb_refl. }
  unfold FieldService.create_text_or_number_field.
  destruct (is_not_None range_min || is_not_None range_max) eqn:Hbounds.
  - pose proof (Range_create_commits C range_min range_max w1 Hcommit)
      as Hrange. simpl in Hrange.
    set (r := mkRange (next_id (store w) + 1) range_min range_max) in *.
    set (w2 := mkWorld _ _) in Hrange.
    pose proof (FieldRange_create_commits C (next_id (store w))
                  (next_id (store w) + 1) w2 Hcommit) as Hlink.
    simpl in Hlink.
    set (l := mkFieldRange (next_id (store w)) (next_id (store w) + 1)) in *.
    set (w3 := mkWorld _ _) in Hlink.
    destruct (text_answer C (next_id (store w)) t w3 f Hinj Ht)
      as (again & Hread & Hstrict & Hstored).
    { by apply Hfind. }
    assert (Hagain : again !! "range" = Some (VRange range_min range_max)).
    { rewrite Hstored. unfold stored_range. simpl.
      rewrite (find_app_fresh _ _ l);
        [| by apply (Forall_key_false fr_field_id) | apply Z.eqb_refl].
      simpl.
      rewrite (find_app_fresh _ _ r);
        [reflexivity | by apply (Forall_key_false r_id) | apply Z.eqb_refl]. }
    eexists _, w3. split.
    + apply decorator_commit; [exact Hcommit |].
      rewrite (bind_ret _ _ _ _ _ Hcreate). simpl.
      rewrite (bind_ret _ _ _ _ _ Hrange). simpl.
      do 2 (erewrite bind_ret by reflexivity).
      rewrite (bind_ret _ _ _ _ _ Hlink). reflexivity.
    + exists again. split; [exact Hread |]. split; [exact Hagain |].
      split; [exact Hstrict |].
      unfold FieldService.check_for_range. by rewrite Hagain.
  - destruct (text_answer C (next_id (store w)) t w1 f Hinj Ht)
      as (again & Hread & Hstrict & Hstored).
    { by apply Hfind. }
    assert (Hagain : again !! "range" = None).
    { rewrite Hstored. unfold stored_range. simpl.
      by rewrite (find_fresh_none fr_field_id). }
    eexists _, w1. split.
    + apply decorator_commit; [exact Hcommit |].
      rewrite (bind_ret _ _ _ _ _ Hcreate). reflexivity.
    + exists again. split; [exact Hread |]. split; [exact Hagain |].
      split; [exact Hstrict |].
      unfold FieldService.check_for_range. rewrite Hagain.
      by destruct range_min, range_max.
Qed.

Lemma create_text_or_number_field_then_read_witness :
  let C := mkCollab (fun _ => true) Reference.FieldType_value Reference.dump in
  exists data w',
    FieldService.create_text_or_number_field C "age" 1 2 true (Some 18) None
      sample_world
    = (Return (Some data), w')
    /\ exists again,
         fst (FieldService.get_additional_options C 9 2 w')
         = Return (Some again)
         /\ again !! "range" = Some (VRange (Some 18) None)
         /\ again !! "isStrict" = Some (VBool true)
         /\ FieldService.check_for_range again = Return (Some 18, None).
Proof.
  intros C.
  destruct (create_text_or_number_field_then_read C "age" 1 Number true
              (Some 18) None sample_world) as (data & w' & Hrun & Hread).
  - reflexivity.
  - apply Reference_values_distinct.
  - by left.
  - rewrite sample_world_store. simpl. repeat constructor; discriminate.
  - rewrite sample_world_store. simpl. repeat constructor; discriminate.
  - rewrite sample_world_store. simpl. repeat constructor; discriminate.
  - exists data, w'. split; [exact Hrun |].
    rewrite sample_world_store in Hread. exact Hread.
Defined.

(** ** Updating on a store that accepts every commit *)

Lemma Field_update_commits (C : Collab) (field_id : Z) (name : option string)
    (is_strict : option bool) (w : World) (old : Field) :
  (forall d, integrity C d = true) ->
  find (fun g => f_id g =? field_id) (fields (store w)) = Some old ->
  let f := mkField (f_id old) (default (f_name old) name) (f_owner_id old)
             (f_field_type old) (default (f_is_strict old) is_strict) in
  f_id old = field_id
  /\ FieldService.update C field_id name None None is_strict w
     = (Return (Some f),
        mkWorld (with_fields (store w)
                   (map (fun g => if f_id g =? f_id old then f else g)
                        (fields (store w))))
                (trace w ++ [Field_get; Field_merge])).
Proof.
  intros Hcommit Hold f. split.
  - apply find_some in Hold as [_ Hid]. by apply Z.eqb_eq.
  - unfold FieldService.update. apply decorator_commit; [exact Hcommit |].
    unfold FieldService.get_by_id, FieldService.session_merge.
    unfold_monad. simpl. rewrite Hold. simpl.
    by rewrite <- app_assoc.
Qed.

Lemma find_same_key {A} (key : A -> Z) (l : list A) (x : A) :
  In x l -> exists y, find (fun a => key a =? key x) l = Some y.
Proof.
  induction l as [| a l IH]; simpl; [tauto |].
  intros [-> | Hin].
  - rewrite Z.eqb_refl. eauto.
  - destruct (key a =? key x); eauto.
Qed.

(** After the setting found for a field is replaced by id, the lookup by
    field finds the replacement. *)
Lemma find_setting_replaced (field_id : Z) (s inst : SettingAutocomplete)
    (l : list SettingAutocomplete) :
  sa_field_id inst = field_id ->
  find (fun a => sa_field_id a =? field_id) l = Some s ->
  find (fun a => sa_field_id a =? field_id)
       (map (fun a => if sa_id a =? sa_id s then inst else a) l)
  = Some inst.
Proof.
  intros Hinst. induction l as [| a l IH]; simpl; [discriminate |].
  destruct (sa_field_id a =? field_id) eqn:Ha.
  - intros [= ->]. rewrite Z.eqb_refl. simpl.
    by rewrite Hinst, Z.eqb_refl.
  - intros Hfind. destruct (sa_id a =? sa_id s); simpl.
    + by rewrite Hinst, Z.eqb_refl.
    + rewrite Ha. by apply IH.
Qed.

Lemma update_store_frame (C : Collab) (field_id : Z) (name : option string)
    (owner_id field_type : option Z) (is_strict : option bool)
    (w w1 : World) (f : Field) :
  FieldService.update C field_id name owner_id field_type is_strict w
  = (Return (Some f), w1) ->
  f_id f = field_id /\ settings (store w1) = settings (store w).
Proof.
  unfold FieldService.update, transaction_decorator, FieldService.get_by_id,
    FieldService.session_merge.
  unfold_monad. simpl. intros H.
  repeat case_match; simplify_eq. simpl. split; [| reflexivity].
  match goal with
  | Hfind : find _ _ = Some _ |- _ =>
      apply find_some in Hfind; destruct Hfind as [_ Hid]
  end.
  by apply Z.eqb_eq.
Qed.

Lemma Setting_update_commits (C : Collab) (id : Z)
    (data_url sheet from_row to_row : string) (field_id : Z) (w : World)
    (y : SettingAutocomplete) :
  (forall d, integrity C d = true) ->
  find (fun a => sa_id a =? id) (settings (store w)) = Some y ->
  let inst := mkSetting id data_url sheet from_row to_row field_id in
  SettingAutocompleteService.update C id data_url sheet from_row to_row
    field_id w
  = (Return (Some inst),
     mkWorld (with_settings (store w)
                (map (fun a => if sa_id a =? id then inst else a)
                     (settings (store w))))
             (trace w ++ [Setting_update])).
Proof.
  intros Hcommit Hy inst.
  unfold SettingAutocompleteService.update, transaction_decorator.
  unfold_monad. simpl. rewrite Hy. simpl. by rewrite Hcommit.
Qed.

Lemma autocomplete_answer (C : Collab) (field_id : Z) (w : World)
    (s : SettingAutocomplete) :
  Inj (=) (=) (FieldType_value C) ->
  find (fun a => sa_field_id a =? field_id) (settings (store w)) = Some s ->
  FieldService.get_additional_options C field_id
    (FieldType_value C Autocomplete) w
  = (Return (Some {[ "settingAutocomplete" := FieldService.setting_json s ]}),
     mkWorld (store w) (trace w ++ [Setting_get_by_field_id])).
Proof.
  intros Hinj Hs. unfold FieldService.get_additional_options, try_except.
  choose_branch Hinj. unfold_reads. unfold_monad. simpl. by rewrite Hs.
Qed.

(** X18. [update_autocomplete_field] on a field without settings, once the
    base update has gone through, raises [SettingAutocompleteNotExist] and
    leaves the store as it was. On a store that accepts every commit, for a
    field of the Autocomplete type that has settings, it returns a mapping
    whose [settingAutocomplete] holds the four new descriptors, and so does
    [get_additional_options] afterwards. The members of [FieldType] are
    taken to have distinct values. *)
Theorem update_autocomplete_field_settings
    (C : Collab) (field_id : Z) (name : option string)
    (data_url sheet from_row to_row : string) (w : World) :
  (forall f w1,
     FieldService.update C field_id name None None None w
     = (Return (Some f), w1) ->
     find (fun s => sa_field_id s =? field_id) (settings (store w)) = None ->
     exists w',
       FieldService.update_autocomplete_field C field_id name data_url sheet
         from_row to_row w
       = (Raise SettingAutocompleteNotExist, w')
       /\ store w' = store w)
  /\ ((forall d, integrity C d = true) ->
      Inj (=) (=) (FieldType_value C) ->
      forall old s,
        find (fun g => f_id g =? field_id) (fields (store w)) = Some old ->
        f_field_type old = FieldType_value C Autocomplete ->
        find (fun s => sa_field_id s =? field_id) (settings (store w))
        = Some s ->
        exists data w',
          FieldService.update_autocomplete_field C field_id name data_url
            sheet from_row to_row w
          = (Return (Some data), w')
          /\ data !! "settingAutocomplete"
             = Some (VSetting data_url sheet from_row to_row)
          /\ fst (FieldService.get_additional_options C field_id
                    (FieldType_value C Autocomplete) w')
             = Return (Some {[ "settingAutocomplete"
                               := VSetting data_url sheet from_row to_row ]})).
Proof.
  split.
  - intros f w1 Hupdate Hnone.
    pose proof Hupdate as Hsame.
    apply update_store_frame in Hsame as (Hid & Hsettings).
    eexists. split.
    + unfold FieldService.update_autocomplete_field.
      apply decorator_raise.
      rewrite (bind_ret _ _ _ _ _ Hupdate).
      erewrite bind_ret by reflexivity. simpl.
      unfold SettingAutocompleteService.get_by_field_id. unfold_monad. simpl.
      by rewrite Hid, Hsettings, Hnone.
    + reflexivity.
  - intros Hcommit Hinj old s Hold Htype Hsetting.
    destruct (Field_update_commits C field_id name None w old Hcommit Hold)
      as [Hid Hupdate].
    simpl in Hupdate. rewrite Hid in Hupdate.
    set (f := mkField field_id _ _ _ _) in Hupdate.
    set (w1 := mkWorld _ _) in Hupdate.
    set (inst := mkSetting (sa_id s) data_url sheet from_row to_row field_id).
    destruct (find_same_key sa_id (settings (store w)) s) as [y Hy].
    { by apply find_some in Hsetting as [Hin _]. }
    set (w2 := mkWorld (store w1) (trace w1 ++ [Setting_get_by_field_id])).
    set (w3 := mkWorld
                 (with_settings (store w2)
                    (map (fun a => if sa_id a =? sa_id s then inst else a)
                         (settings (store w2))))
                 (trace w2 ++ [Setting_update])).
    assert (Hset :
      SettingAutocompleteService.update C (sa_id s) data_url sheet from_row
        to_row field_id w2
      = (Return (Some inst), w3))
      by (by apply (Setting_update_commits C _ _ _ _ _ _ w2 y)).
    assert (Hreplaced :
      find (fun a => sa_field_id a =? field_id) (settings (store w3))
      = Some inst) by (by apply find_setting_replaced).
    pose proof (autocomplete_answer C field_id w3 inst Hinj Hreplaced)
      as Hread.
    eexists _, _. split; [| split].
    + unfold FieldService.update_autocomplete_field.
      apply decorator_commit; [exact Hcommit |].
      rewrite (bind_ret _ _ _ _ _ Hupdate).
      erewrite bind_ret by reflexivity.
      erewrite bind_ret by reflexivity.
      simpl. rewrite Hsetting.
      rewrite (bind_ret _ _ _ _ _ Hset).
      unfold FieldService.merge_additional_options.
      do 2 (erewrite bind_ret by reflexivity).
      simpl. rewrite Htype.
      rewrite (bind_ret _ _ _ _ _ Hread). reflexivity.
    + apply lookup_union_Some_l. apply lookup_insert_eq.
    + rewrite (autocomplete_answer C field_id _ inst Hinj);
        [reflexivity | exact Hreplaced].
Qed.

Lemma update_autocomplete_field_settings_witness :
  let C := mkCollab (fun _ => true) Reference.FieldType_value Reference.dump in
  let w := mkWorld (mkDB [mkField 1 "city" 1 5 false] [] [] []
                         [mkSetting 2 "old" "Sheet0" "A1" "B2" 1] 3) [] in
  exists data w',
    FieldService.update_autocomplete_field C 1 (Some "new") "u" "Sheet1" "A1"
      "C5" w
    = (Return (Some data), w')
    /\ data !! "settingAutocomplete" = Some (VSetting "u" "Sheet1" "A1" "C5")
    /\ fst (FieldService.get_additional_options C 1 5 w')
       = Return (Some {[ "settingAutocomplete"
                         := VSetting "u" "Sheet1" "A1" "C5" ]}).
Proof.
  intros C w.
  apply (proj2 (update_autocomplete_field_settings C 1 (Some "new") "u"
                  "Sheet1" "A1" "C5" w)
           (fun _ => eq_refl) Reference_values_distinct
           (mkField 1 "city" 1 5 false)
           (mkSetting 2 "old" "Sheet0" "A1" "B2" 1));
    reflexivity.
Defined.

(** ** Adding options in an update *)

(** The addition loop on a store that accepts every commit: one row per
    added option, in order, all of the field. *)
Lemma add_loop_commits (C : Collab) (f : Field) (opts : list string) :
  (forall d, integrity C d = true) ->
  forall w1,
    exists w2 rows,
      for_each opts (fun added_option =>
        let* fid := attr (Some f) f_id in
        let* option_update := ChoiceOptionService.create C fid added_option in
        match option_update with
        | None => raise ChoiceOptionNotCreated
        | Some _ => ret tt
        end) w1
      = (Return tt, w2)
      /\ choice_options (store w2) = (choice_options (store w1) ++ rows)%list
      /\ map co_option_text rows = opts
      /\ Forall (fun r => co_field_id r = f_id f) rows
      /\ fields (store w2) = fields (store w1)
      /\ field_ranges (store w2) = field_ranges (store w1)
      /\ ranges (store w2) = ranges (store w1).
Proof.
  intros Hcommit. induction opts as [| x rest IH]; intros w1; simpl.
  - exists w1, []. rewrite app_nil_r. repeat split. constructor.
  - pose proof (ChoiceOption_create_commits C (f_id f) x w1 Hcommit) as Hcreate.
    simpl in Hcreate.
    destruct (IH (mkWorld (bump (with_choice_options (store w1)
                            (choice_options (store w1)
                             ++ [mkChoiceOption (next_id (store w1)) (f_id f) x])))
                          (trace w1 ++ [ChoiceOption_create])))
      as (w2 & rows & Hrest & Hrows & Htexts & Hfield & Hf & Hl & Hr).
    exists w2, (mkChoiceOption (next_id (store w1)) (f_id f) x :: rows).
    split; [| repeat split].
    + unfold bind, attr, ret in *. simpl. rewrite Hcreate. exact Hrest.
    + rewrite Hrows. simpl. by rewrite <- app_assoc.
    + simpl. by rewrite Htexts.
    + by constructor.
    + exact Hf.
    + exact Hl.
    + exact Hr.
Qed.

Lemma add_choice_options_commits (C : Collab) (f : Field)
    (added : option (list string)) (w1 : World) :
  (forall d, integrity C d = true) ->
  exists w2 rows,
    FieldService.add_choice_options C (Some f) added w1 = (Return tt, w2)
    /\ choice_options (store w2) = (choice_options (store w1) ++ rows)%list
    /\ map co_option_text rows = items added
    /\ Forall (fun r => co_field_id r = f_id f) rows
    /\ fields (store w2) = fields (store w1).
Proof.
  intros Hcommit. unfold FieldService.add_choice_options.
  destruct added as [[| x rest] |]; simpl truthy; cbv iota.
  1, 3: exists w1, []; rewrite app_nil_r; repeat split; constructor.
  destruct (add_loop_commits C f (x :: rest) Hcommit w1)
    as (w2 & rows & Hrun & Hrows & Htexts & Hfield & Hf & _).
  exists w2, rows. repeat split; assumption.
Qed.

Lemma filter_app_same (n : Z) (old rows : list ChoiceOption) :
  Forall (fun r => co_field_id r = n) rows ->
  List.filter (fun o => co_field_id o =? n) (old ++ rows)
  = (List.filter (fun o => co_field_id o =? n) old ++ rows)%list.
Proof.
  intros Hrows. rewrite List.filter_app. f_equal.
  induction Hrows as [| r rows Hr _ IH]; simpl; [reflexivity |].
  by rewrite (proj2 (Z.eqb_eq _ _) Hr), IH.
Qed.

Lemma find_field_after_update (field_id : Z) (f : Field) (l : list Field)
    (old : Field) :
  f_id f = field_id ->
  find (fun g => f_id g =? field_id) l = Some old ->
  find (fun g => f_id g =? field_id)
       (map (fun g => if f_id g =? field_id then f else g) l)
  = Some f.
Proof. intros Hf Hold. apply (find_map_replace f_id); eauto. Qed.

(** X19. On a store that accepts every commit, [update_radio_field] with
    options to add and none to remove, on a field of the Radio or Checkbox
    type, returns a mapping whose [choiceOptions] is the recomputed list:
    the texts the field had, in table order, followed by the added ones in
    the order given (the two together not being empty). The members of
    [FieldType] are taken to have distinct values. *)
Theorem update_radio_field_adds
    (C : Collab) (field_id : Z) (name : option string)
    (added : option (list string)) (t : FieldType) (w : World) (old : Field) :
  (forall d, integrity C d = true) ->
  Inj (=) (=) (FieldType_value C) ->
  find (fun g => f_id g =? field_id) (fields (store w)) = Some old ->
  f_field_type old = FieldType_value C t ->
  t = Radio \/ t = Checkbox ->
  let texts :=
    map co_option_text
        (List.filter (fun o => co_field_id o =? field_id)
                     (choice_options (store w))) in
  (texts ++ items added)%list <> [] ->
  exists data w',
    FieldService.update_radio_field C field_id name added None w
    = (Return (Some data), w')
    /\ data !! "choiceOptions" = Some (VList (texts ++ items added)).
Proof.
  intros Hcommit Hinj Hold Htype Ht texts Hsome.
  destruct (Field_update_commits C field_id name None w old Hcommit Hold)
    as [Hid Hupdate].
  simpl in Hupdate. rewrite Hid in Hupdate.
  set (f := mkField field_id _ _ _ _) in Hupdate.
  set (w1 := mkWorld _ _) in Hupdate.
  destruct (add_choice_options_commits C f added w1 Hcommit)
    as (w2 & rows & Hadd & Hrows & Htexts & Hfield & _).
  assert (Hfilter :
    List.filter (fun o => co_field_id o =? field_id) (choice_options (store w2))
    = (List.filter (fun o => co_field_id o =? field_id)
                   (choice_options (store w)) ++ rows)%list).
  { rewrite Hrows. by apply filter_app_same. }
  assert (Hmap :
    map co_option_text
        (List.filter (fun o => co_field_id o =? field_id)
                     (choice_options (store w2)))
    = (texts ++ items added)%list).
  { by rewrite Hfilter, map_app, Htexts. }
  destruct (List.filter (fun o => co_field_id o =? field_id)
                        (choice_options (store w2)))
    as [| o os] eqn:Hoptions.
  { simpl in Hmap. by rewrite <- Hmap in Hsome. }
  destruct (choice_answer C field_id t w2 o os Hinj Ht Hoptions)
    as (again & Hread & Hagain & _).
  destruct (FieldService.get_additional_options C field_id
              (FieldType_value C t) w2) as [outcome w3] eqn:Hrun.
  simpl in Hread. subst outcome.
  exists (again ∪ dump C FieldRadioSchema (Some f)), w3. split.
  - unfold FieldService.update_radio_field.
    apply decorator_commit; [exact Hcommit |].
    rewrite (bind_ret _ _ _ _ _ Hupdate).
    rewrite (bind_ret _ _ _ _ _ Hadd).
    erewrite bind_ret by reflexivity.
    unfold FieldService.merge_additional_options.
    do 2 (erewrite bind_ret by reflexivity).
    simpl. rewrite Htype.
    by rewrite (bind_ret _ _ _ _ _ Hrun).
  - apply lookup_union_Some_l. by rewrite Hagain, Hmap.
Qed.

Lemma update_radio_field_adds_witness :
  let C := mkCollab (fun _ => true) Reference.FieldType_value Reference.dump in
  exists data w',
    FieldService.update_radio_field C 1 None (Some ["black"; "white"]) None
      sample_world
    = (Return (Some data), w')
    /\ data !! "choiceOptions"
       = Some (VList ["red"; "green"; "blue"; "black"; "white"]).
Proof.
  intros C.
  destruct (update_radio_field_adds C 1 None (Some ["black"; "white"]) Radio
              sample_world (mkField 1 "color" 1 4 false))
    as (data & w' & Hrun & Hoptions).
  - reflexivity.
  - apply Reference_values_distinct.
  - rewrite sample_world_store. reflexivity.
  - reflexivity.
  - by left.
  - rewrite sample_world_store. discriminate.
  - exists data, w'. split; [exact Hrun |].
    rewrite sample_world_store in Hoptions. exact Hoptions.
Defined.

(** ** Changing the range in an update *)

Lemma FieldRange_update_commits (C : Collab) (field_id range_id : Z)
    (w : World) (l : FieldRange) :
  (forall d, integrity C d = true) ->
  find (fun a => fr_field_id a =? field_id) (field_ranges (store w)) = Some l ->
  let inst := mkFieldRange field_id range_id in
  FieldRangeService.update C field_id range_id w
  = (Return (Some inst),
     mkWorld (with_field_ranges (store w)
                (map (fun a => if fr_field_id a =? field_id then inst else a)
                     (field_ranges (store w))))
             (trace w ++ [FieldRange_update])).
Proof.
  intros Hcommit Hl inst.
  unfold FieldRangeService.update, transaction_decorator.
  unfold_monad. simpl. rewrite Hl. simpl. by rewrite Hcommit.
Qed.

Lemma FieldRange_delete_commits (C : Collab) (field_id : Z) (w : World)
    (l : FieldRange) :
  (forall d, integrity C d = true) ->
  find (fun a => fr_field_id a =? field_id) (field_ranges (store w)) = Some l ->
  FieldRangeService.delete C field_id w
  = (Return (Some true),
     mkWorld (with_field_ranges (store w)
                (List.filter (fun a => negb (fr_field_id a =? field_id))
                             (field_ranges (store w))))
             (trace w ++ [FieldRange_delete])).
Proof.
  intros Hcommit Hl.
  unfold FieldRangeService.delete, transaction_decorator.
  unfold_monad. simpl. rewrite Hl. simpl. by rewrite Hcommit.
Qed.

Lemma find_none_Forall {A} (P : A -> bool) (l : list A) :
  find P l = None -> Forall (fun a => P a = false) l.
Proof.
  induction l as [| a l IH]; simpl; [constructor |].
  destruct (P a) eqn:Ha; [discriminate |]. intros H. constructor; auto.
Qed.

(** The range branch with new bounds, on a store that accepts every commit
    and with a fresh range id: afterwards the field is linked to a range
    with the new bounds, link or no link before. *)
Lemma update_range_commits (C : Collab) (f : Field)
    (range_min range_max : option Z) (w : World) :
  (forall d, integrity C d = true) ->
  is_not_None range_min || is_not_None range_max = true ->
  Forall (fun r => r_id r <> next_id (store w)) (ranges (store w)) ->
  exists w',
    FieldService.update_range C (Some f)
      (find (fun a => fr_field_id a =? f_id f) (field_ranges (store w)))
      range_min range_max false w
    = (Return tt, w')
    /\ stored_range (store w') (f_id f) = Some (VRange range_min range_max)
    /\ fields (store w') = fields (store w).
Proof.
  intros Hcommit Hbounds Hfresh.
  unfold FieldService.update_range. rewrite Hbounds.
  pose proof (Range_create_commits C range_min range_max w Hcommit) as Hrange.
  simpl in Hrange.
  set (r := mkRange (next_id (store w)) range_min range_max) in *.
  set (w1 := mkWorld (bump (with_ranges (store w) (ranges (store w) ++ [r])))
                     (trace w ++ [Range_create])) in *.
  destruct (find (fun a => fr_field_id a =? f_id f) (field_ranges (store w)))
    as [l |] eqn:Hlink; simpl is_not_None; cbv iota.
  - pose proof (FieldRange_update_commits C (f_id f) (next_id (store w)) w1 l
                  Hcommit Hlink) as Hupdate.
    simpl in Hupdate.
    eexists. split; [| split].
    + rewrite (bind_ret _ _ _ _ _ Hrange).
      do 2 (erewrite bind_ret by reflexivity).
      by rewrite (bind_ret _ _ _ _ _ Hupdate).
    + unfold stored_range. simpl.
      rewrite (find_map_replace fr_field_id); [| reflexivity | eauto].
      simpl.
      rewrite (find_app_fresh _ _ r);
        [reflexivity | by apply (Forall_key_false r_id) | apply Z.eqb_refl].
    + reflexivity.
  - pose proof (FieldRange_create_commits C (f_id f) (next_id (store w)) w1
                  Hcommit) as Hcreate.
    simpl in Hcreate.
    eexists. split; [| split].
    + rewrite (bind_ret _ _ _ _ _ Hrange).
      do 2 (erewrite bind_ret by reflexivity).
      by rewrite (bind_ret _ _ _ _ _ Hcreate).
    + unfold stored_range. simpl.
      rewrite find_app_fresh;
        [| by apply find_none_Forall | apply Z.eqb_refl].
      simpl.
      rewrite (find_app_fresh _ _ r);
        [reflexivity | by apply (Forall_key_false r_id) | apply Z.eqb_refl].
    + reflexivity.
Qed.

Lemma get_additional_options_frame (C : Collab) (field_id field_type : Z)
    (w : World) :
  store (snd (FieldService.get_additional_options C field_id field_type w))
  = store w.
Proof.
  revert w.
  change (reads_only
            (FieldService.get_additional_options C field_id field_type)).
  pose proof reads_add_range.
  unfold FieldService.get_additional_options,
    FieldService._get_text_or_number_additional_options,
    FieldService._get_choice_additional_options,
    FieldService._get_autocomplete_additional_options,
    FieldService.get_by_id, FieldRangeService.get_by_field_id,
    ChoiceOptionService.filter, SettingAutocompleteService.get_by_field_id.
  repeat reads_step; auto.
Qed.

(** The range branch writes no option row. *)
Lemma keeps_update_range_options (C : Collab) (f : Field)
    (range_min range_max : option Z) (w : World) :
  choice_options
    (store (snd (FieldService.update_range C (Some f)
                   (find (fun a => fr_field_id a =? f_id f)
                         (field_ranges (store w)))
                   range_min range_max false w)))
  = choice_options (store w).
Proof.
  unfold FieldService.update_range, RangeService.create,
    FieldRangeService.update, FieldRangeService.create, transaction_decorator.
  unfold_monad. simpl.
  repeat case_match; simplify_eq; reflexivity.
Qed.

(** X20. On a store that accepts every commit and whose next primary key
    is not yet the id of a range, an update with [delete_range] false and at
    least one bound, of a Number or Text field through
    [update_text_or_number_field] or of a Radio or Checkbox field that has
    options through [update_checkbox_field], returns a mapping whose [range]
    holds the bounds of the call, and the field is linked to a range with
    those bounds afterwards, whether it had a link before or not. The
    members of [FieldType] are taken to have distinct values. *)
Theorem update_with_bounds_then_read
    (C : Collab) (field_id : Z) (name : option string)
    (range_min range_max : option Z) (w : World) (old : Field) :
  (forall d, integrity C d = true) ->
  Inj (=) (=) (FieldType_value C) ->
  find (fun g => f_id g =? field_id) (fields (store w)) = Some old ->
  is_not_None range_min || is_not_None range_max = true ->
  Forall (fun r => r_id r <> next_id (store w)) (ranges (store w)) ->
  (forall t is_strict,
     t = Number \/ t = Text ->
     f_field_type old = FieldType_value C t ->
     exists data w',
       FieldService.update_text_or_number_field C field_id name range_min
         range_max false is_strict w
       = (Return (Some data), w')
       /\ data !! "range" = Some (VRange range_min range_max)
       /\ stored_range (store w') field_id
          = Some (VRange range_min range_max))
  /\ (forall t o os,
        t = Radio \/ t = Checkbox ->
        f_field_type old = FieldType_value C t ->
        List.filter (fun o => co_field_id o =? field_id)
                    (choice_options (store w)) = o :: os ->
        exists data w',
          FieldService.update_checkbox_field C field_id name range_max
            range_min false None None w
          = (Return (Some data), w')
          /\ data !! "range" = Some (VRange range_min range_max)
          /\ stored_range (store w') field_id
             = Some (VRange range_min range_max)).
Proof.
  intros Hcommit Hinj Hold Hbounds Hfresh. split.
  - intros t is_strict Ht Htype.
    destruct (Field_update_commits C field_id name is_strict w old Hcommit Hold)
      as [Hid Hupdate].
    simpl in Hupdate. rewrite Hid in Hupdate.
    set (f := mkField field_id _ _ _ _) in Hupdate.
    set (w1 := mkWorld _ _) in Hupdate.
    set (w1' := mkWorld (store w1) (trace w1 ++ [FieldRange_get_by_field_id])).
    destruct (update_range_commits C f range_min range_max w1' Hcommit Hbounds
                Hfresh) as (w2 & Hrange & Hstored & Hfields).
    destruct (text_answer C field_id t w2 f Hinj Ht)
      as (again & Hread & _ & Hagain).
    { rewrite Hfields. by apply (find_field_after_update field_id f _ old). }
    destruct (FieldService.get_additional_options C field_id
                (FieldType_value C t) w2) as [outcome w3] eqn:Hrun.
    simpl in Hread. subst outcome.
    assert (Hsame : store w3 = store w2).
    { pose proof (get_additional_options_frame C field_id
                    (FieldType_value C t) w2) as Hframe.
      by rewrite Hrun in Hframe. }
    exists (again ∪ dump C FieldNumberTextSchema (Some f)), w3.
    split; [| split].
    + unfold FieldService.update_text_or_number_field.
      apply decorator_commit; [exact Hcommit |].
      rewrite (bind_ret _ _ _ _ _ Hupdate).
      erewrite bind_ret by apply FieldRange_get_by_field_id_run.
      rewrite (bind_ret _ _ _ _ _ Hrange).
      unfold FieldService.merge_additional_options.
      do 2 (erewrite bind_ret by reflexivity).
      simpl. rewrite Htype.
      by rewrite (bind_ret _ _ _ _ _ Hrun).
    + apply lookup_union_Some_l. by rewrite Hagain.
    + by rewrite Hsame.
  - intros t o os Ht Htype Hoptions.
    destruct (Field_update_commits C field_id name None w old Hcommit Hold)
      as [Hid Hupdate].
    simpl in Hupdate. rewrite Hid in Hupdate.
    set (f := mkField field_id _ _ _ _) in Hupdate.
    set (w1 := mkWorld _ _) in Hupdate.
    set (w1' := mkWorld (store w1) (trace w1 ++ [FieldRange_get_by_field_id])).
    destruct (update_range_commits C f range_min range_max w1' Hcommit Hbounds
                Hfresh) as (w2 & Hrange & Hstored & Hfields).
    assert (Hoptions2 :
      List.filter (fun o => co_field_id o =? field_id)
                  (choice_options (store w2)) = o :: os).
    { pose proof (keeps_update_range_options C f range_min range_max w1')
        as Hkeep.
      rewrite Hrange in Hkeep. simpl in Hkeep. by rewrite Hkeep. }
    destruct (choice_answer C field_id t w2 o os Hinj Ht Hoptions2)
      as (again & Hread & _ & Hagain).
    destruct (FieldService.get_additional_options C field_id
                (FieldType_value C t) w2) as [outcome w3] eqn:Hrun.
    simpl in Hread. subst outcome.
    assert (Hsame : store w3 = store w2).
    { pose proof (get_additional_options_frame C field_id
                    (FieldType_value C t) w2) as Hframe.
      by rewrite Hrun in Hframe. }
    exists (again ∪ dump C FieldCheckboxSchema (Some f)), w3.
    split; [| split].
    + unfold FieldService.update_checkbox_field.
      apply decorator_commit; [exact Hcommit |].
      rewrite (bind_ret _ _ _ _ _ Hupdate).
      erewrite bind_ret by reflexivity.
      erewrite bind_ret by apply FieldRange_get_by_field_id_run.
      rewrite (bind_ret _ _ _ _ _ Hrange).
      do 2 (erewrite bind_ret by reflexivity).
      unfold FieldService.merge_additional_options.
      do 2 (erewrite bind_ret by reflexivity).
      simpl. rewrite Htype.
      by rewrite (bind_ret _ _ _ _ _ Hrun).
    + apply lookup_union_Some_l. by rewrite Hagain.
    + by rewrite Hsame.
Qed.

Lemma update_with_bounds_then_read_witness :
  let C := mkCollab (fun _ => true) Reference.FieldType_value Reference.dump in
  let w := mkWorld (mkDB [mkField 1 "age" 1 2 false]
                         [mkRange 2 (Some 0) (Some 9)] [mkFieldRange 1 2]
                         [] [] 3) [] in
  exists data w',
    FieldService.update_text_or_number_field C 1 None (Some 18) (Some 65)
      false None w
    = (Return (Some data), w')
    /\ data !! "range" = Some (VRange (Some 18) (Some 65))
    /\ stored_range (store w') 1 = Some (VRange (Some 18) (Some 65)).
Proof.
  intros C w.
  destruct (update_with_bounds_then_read C 1 None (Some 18) (Some 65) w
              (mkField 1 "age" 1 2 false)) as [Htext _].
  - reflexivity.
  - apply Reference_values_distinct.
  - reflexivity.
  - reflexivity.
  - repeat constructor. discriminate.
  - apply (Htext Number None); [by left | reflexivity].
Defined.

(** X21. On a store that accepts every commit, [update_text_or_number_field]
    with [delete_range] true on a Number or Text field that has a link
    returns a mapping; afterwards the field has no link and no stored
    range, the bounds of the call are ignored and the Range rows are the
    ones before the call, and the mapping has no [range] unless the schema
    dumps one. The members of [FieldType] are taken to have distinct
    values. *)
Theorem delete_range_with_link
    (C : Collab) (field_id : Z) (name : option string)
    (range_min range_max : option Z) (is_strict : option bool)
    (t : FieldType) (w : World) (old : Field) (l : FieldRange) :
  (forall d, integrity C d = true) ->
  Inj (=) (=) (FieldType_value C) ->
  find (fun g => f_id g =? field_id) (fields (store w)) = Some old ->
  t = Number \/ t = Text ->
  f_field_type old = FieldType_value C t ->
  find (fun a => fr_field_id a =? field_id) (field_ranges (store w)) = Some l ->
  exists data w',
    FieldService.update_text_or_number_field C field_id name range_min
      range_max true is_strict w
    = (Return (Some data), w')
    /\ find (fun a => fr_field_id a =? field_id) (field_ranges (store w'))
       = None
    /\ stored_range (store w') field_id = None
    /\ ranges (store w') = ranges (store w)
    /\ ((forall f, dump C FieldNumberTextSchema (Some f) !! "range" = None) ->
        data !! "range" = None).
Proof.
  intros Hcommit Hinj Hold Ht Htype Hlink.
  destruct (Field_update_commits C field_id name is_strict w old Hcommit Hold)
    as [Hid Hupdate].
  simpl in Hupdate. rewrite Hid in Hupdate.
  set (f := mkField field_id _ _ _ _) in Hupdate.
  set (w1 := mkWorld _ _) in Hupdate.
  set (w1' := mkWorld (store w1) (trace w1 ++ [FieldRange_get_by_field_id])).
  set (w2 := mkWorld
               (with_field_ranges (store w1')
                  (List.filter (fun a => negb (fr_field_id a =? field_id))
                               (field_ranges (store w1'))))
               (trace w1' ++ [FieldRange_delete])).
  assert (Hdelete :
    FieldRangeService.delete C field_id w1' = (Return (Some true), w2))
    by (by apply (FieldRange_delete_commits C field_id w1' l)).
  assert (Hgone :
    find (fun a => fr_field_id a =? field_id) (field_ranges (store w2)) = None)
    by apply (find_filter_removed fr_field_id).
  destruct (text_answer C field_id t w2 f Hinj Ht)
    as (again & Hread & _ & Hagain).
  { by apply (find_field_after_update field_id f _ old). }
  destruct (FieldService.get_additional_options C field_id
              (FieldType_value C t) w2) as [outcome w3] eqn:Hrun.
  simpl in Hread. subst outcome.
  assert (Hsame : store w3 = store w2).
  { pose proof (get_additional_options_frame C field_id
                  (FieldType_value C t) w2) as Hframe.
    by rewrite Hrun in Hframe. }
  assert (Hnone : stored_range (store w2) field_id = None).
  { unfold stored_range. by rewrite Hgone. }
  exists (again ∪ dump C FieldNumberTextSchema (Some f)), w3.
  split; [| split; [| split; [| split]]].
  - unfold FieldService.update_text_or_number_field.
    apply decorator_commit; [exact Hcommit |].
    rewrite (bind_ret _ _ _ _ _ Hupdate).
    erewrite bind_ret by apply FieldRange_get_by_field_id_run.
    simpl. rewrite Hlink.
    unfold FieldService.update_range.
    erewrite bind_ret; [| erewrite bind_ret by reflexivity;
                          rewrite (bind_ret _ _ _ _ _ Hdelete); reflexivity].
    unfold FieldService.merge_additional_options.
    do 2 (erewrite bind_ret by reflexivity).
    simpl. rewrite Htype.
    by rewrite (bind_ret _ _ _ _ _ Hrun).
  - by rewrite Hsame.
  - by rewrite Hsame.
  - by rewrite Hsame.
  - intros Hdump. apply lookup_union_None. split.
    + by rewrite Hagain, Hnone.
    + apply Hdump.
Qed.

Lemma delete_range_with_link_witness :
  let C := mkCollab (fun _ => true) Reference.FieldType_value Reference.dump in
  let w := mkWorld (mkDB [mkField 1 "age" 1 2 false]
                         [mkRange 2 (Some 0) (Some 9)] [mkFieldRange 1 2]
                         [] [] 3) [] in
  exists data w',
    FieldService.update_text_or_number_field C 1 None (Some 18) None true None
      w
    = (Return (Some data), w')
    /\ stored_range (store w') 1 = None
    /\ ranges (store w') = [mkRange 2 (Some 0) (Some 9)].
Proof.
  intros C w.
  destruct (delete_range_with_link C 1 None (Some 18) None None Number w
              (mkField 1 "age" 1 2 false) (mkFieldRange 1 2))
    as (data & w' & Hrun & _ & Hstored & Hranges & _).
  - reflexivity.
  - apply Reference_values_distinct.
  - reflexivity.
  - by left.
  - reflexivity.
  - reflexivity.
  - exists data, w'. repeat split; assumption.
Defined.

(** ** At most one range link per field *)

Lemma link_keys_replaced (k rid : Z) (l : list FieldRange) :
  map fr_field_id
      (map (fun a => if fr_field_id a =? k then mkFieldRange k rid else a) l)
  = map fr_field_id l.
Proof.
  induction l as [| a l IH]; simpl; [reflexivity |].
  rewrite IH. f_equal.
  destruct (fr_field_id a =? k) eqn:Ha; [| reflexivity].
  apply Z.eqb_eq in Ha. by rewrite Ha.
Qed.

Lemma link_keys_filtered (P : FieldRange -> bool) (l : list FieldRange) :
  List.NoDup (map fr_field_id l) ->
  List.NoDup (map fr_field_id (List.filter P l)).
Proof.
  induction l as [| a l IH]; simpl; [auto |].
  intros Hnodup. apply List.NoDup_cons_iff in Hnodup as [Hnotin Hrest].
  destruct (P a); simpl; [| auto].
  apply List.NoDup_cons; [| auto].
  intros Hin. apply Hnotin.
  apply in_map_iff in Hin as (b & Hb & Hin).
  apply filter_In in Hin as [Hin _].
  apply in_map_iff. eauto.
Qed.

Lemma link_keys_appended (k rid : Z) (l : list FieldRange) :
  List.NoDup (map fr_field_id l) ->
  find (fun a => fr_field_id a =? k) l = None ->
  List.NoDup (map fr_field_id (l ++ [mkFieldRange k rid])).
Proof.
  intros Hnodup Hnone. rewrite map_app. simpl.
  induction l as [| a l IH]; simpl in *.
  - apply List.NoDup_cons; [tauto | constructor].
  - destruct (fr_field_id a =? k) eqn:Ha; [discriminate |].
    apply Z.eqb_neq in Ha.
    apply List.NoDup_cons_iff in Hnodup as [Hnotin Hrest].
    apply List.NoDup_cons; [| auto].
    intros Hin. apply in_app_or in Hin as [Hin | [Hin | []]]; [tauto |].
    congruence.
Qed.

Lemma one_link_frame (w w' : World) :
  range_frame w w' -> one_link_per_field (store w) ->
  one_link_per_field (store w').
Proof. intros (_ & Hlinks & _). unfold one_link_per_field. by rewrite Hlinks. Qed.

Lemma keeps_one_link_of_ranges {A} (m : M A) :
  keeps_ranges m -> keeps_one_link m.
Proof. intros Hm w. apply one_link_frame, Hm. Qed.

Lemma keeps_one_link_bind {A B} (m : M A) (k : A -> M B) (Q : A -> Prop) :
  (forall w a w1, m w = (Return a, w1) -> Q a) ->
  keeps_one_link m -> (forall a, Q a -> keeps_one_link (k a)) ->
  keeps_one_link (bind m k).
Proof.
  intros HQ Hm Hk w Hw. unfold bind. specialize (Hm w Hw).
  destruct (m w) as [[a | e] w1] eqn:Hrun; simpl in *; [| exact Hm].
  apply Hk; [by eapply HQ | exact Hm].
Qed.

Lemma keeps_one_link_decorator (C : Collab) {A} (func : M A) :
  keeps_one_link func -> keeps_one_link (transaction_decorator C func).
Proof.
  intros Hf w Hw. unfold transaction_decorator. specialize (Hf w Hw).
  destruct (func w) as [[a | e] w1]; simpl in *; [| exact Hw].
  destruct (integrity C (store w1)); simpl; assumption.
Qed.

(** Reading the link of the field and then running the range branch with
    it keeps the links unique, whatever the branch. *)
Lemma keeps_one_link_range_branch (C : Collab) (field : option Field)
    (field_id : Z) (range_min range_max : option Z) (delete_range : bool) :
  (forall f, field = Some f -> f_id f = field_id) ->
  keeps_one_link
    (let* field_range := FieldRangeService.get_by_field_id field_id in
     FieldService.update_range C field field_range range_min range_max
       delete_range).
Proof.
  intros Hfield w Hw. unfold one_link_per_field in *.
  apply NoDup_ListNoDup. apply NoDup_ListNoDup in Hw.
  destruct field as [f |]; [rewrite <- (Hfield f eq_refl) |].
  all: unfold FieldService.update_range, FieldRangeService.get_by_field_id,
         FieldRangeService.delete, FieldRangeService.update,
         FieldRangeService.create, RangeService.create, transaction_decorator.
  all: unfold_monad; simpl.
  all: repeat case_match; simplify_eq; simpl; try assumption.
  all: try match goal with
           | H : is_not_None (find ?P ?l) = false |- _ =>
               destruct (find P l) eqn:?; [discriminate H |]
           end.
  all: first [ by apply link_keys_filtered
             | by rewrite link_keys_replaced
             | by apply link_keys_appended ].
Qed.

Lemma bind_assoc {A B D} (m : M A) (f : A -> M B) (g : B -> M D) (w : World) :
  bind (bind m f) g w = bind m (fun x => bind (f x) g) w.
Proof. unfold bind. by destruct (m w) as [[a | e] w1]. Qed.

Lemma keeps_one_link_ext {A} (m m' : M A) :
  (forall w, m w = m' w) -> keeps_one_link m -> keeps_one_link m'.
Proof. intros Hext Hm w Hw. rewrite <- Hext. by apply Hm. Qed.

Lemma keeps_one_link_then {A B} (m : M A) (k : M B) :
  keeps_one_link m -> keeps_one_link k ->
  keeps_one_link (let* _ := m in k).
Proof.
  intros Hm Hk.
  apply (keeps_one_link_bind _ _ (fun _ => True)); auto.
Qed.

(** X22. [update_text_or_number_field] and [update_checkbox_field] keep the
    range links unique: if no field has two links before the call, none has
    two after it, whatever the arguments, the store's constraints and the
    outcome. A field that has a link gets its link updated, never a second
    one. *)
Theorem updates_keep_one_link_per_field
    (C : Collab) (field_id : Z) (name : option string)
    (range_min range_max : option Z) (delete_range : bool)
    (is_strict : option bool)
    (added_choice_options removed_choice_options : option (list string))
    (w : World) :
  one_link_per_field (store w) ->
  one_link_per_field
    (store (snd (FieldService.update_text_or_number_field C field_id name
                   range_min range_max delete_range is_strict w)))
  /\ one_link_per_field
       (store (snd (FieldService.update_checkbox_field C field_id name
                      range_max range_min delete_range added_choice_options
                      removed_choice_options w))).
Proof.
  intros Hw.
  assert (Hupdate : forall strict w0 a w1,
            FieldService.update C field_id name None None strict w0
            = (Return a, w1) ->
            forall f, a = Some f -> f_id f = field_id).
  { intros strict w0 a w1 Hrun f ->.
    by apply Field_update_returns in Hrun as [Hid _]. }
  pose proof (keeps_merge_additional_options C) as Hmerge.
  pose proof (keeps_add_choice_options C) as Hadd.
  pose proof (keeps_remove_choice_options C) as Hremove.
  split.
  - revert w Hw.
    change (keeps_one_link
              (FieldService.update_text_or_number_field C field_id name
                 range_min range_max delete_range is_strict)).
    unfold FieldService.update_text_or_number_field.
    apply keeps_one_link_decorator.
    apply (keeps_one_link_bind _ _
             (fun field => forall f, field = Some f -> f_id f = field_id));
      [intros w0 a w1; apply Hupdate
      | apply keeps_one_link_of_ranges, keeps_Field_update |].
    intros field Hfield.
    eapply keeps_one_link_ext; [intros w; apply bind_assoc |].
    apply keeps_one_link_then.
    + by apply keeps_one_link_range_branch.
    + apply keeps_one_link_of_ranges, Hmerge.
  - revert w Hw.
    change (keeps_one_link
              (FieldService.update_checkbox_field C field_id name range_max
                 range_min delete_range added_choice_options
                 removed_choice_options)).
    unfold FieldService.update_checkbox_field.
    apply keeps_one_link_decorator.
    apply (keeps_one_link_bind _ _
             (fun field => forall f, field = Some f -> f_id f = field_id));
      [intros w0 a w1; apply Hupdate
      | apply keeps_one_link_of_ranges, keeps_Field_update |].
    intros field Hfield.
    apply (keeps_one_link_bind _ _ (fun fid => fid = field_id)).
    + intros w a w1. destruct field as [f |]; [| discriminate].
      intros [= <- _]. by apply Hfield.
    + apply keeps_one_link_of_ranges, keeps_attr.
    + intros fid ->.
      eapply keeps_one_link_ext; [intros w; apply bind_assoc |].
      apply keeps_one_link_then; [by apply keeps_one_link_range_branch |].
      apply keeps_one_link_then; [apply keeps_one_link_of_ranges, Hadd |].
      apply keeps_one_link_then; [apply keeps_one_link_of_ranges, Hremove |].
      apply keeps_one_link_of_ranges, Hmerge.
Qed.

Lemma updates_keep_one_link_per_field_witness :
  one_link_per_field
    (store (snd (FieldService.update_checkbox_field Reference.collab 5 None
                   (Some 3) (Some 1) false None None sample_world))).
Proof.
  apply (updates_keep_one_link_per_field Reference.collab 5 None (Some 1)
           (Some 3) false None None None sample_world).
  unfold one_link_per_field. rewrite sample_world_store. simpl.
  apply NoDup_singleton.
Defined.

(** ** The sheet manager: a sheet without values *)

(** X23. [get_all_data] returns [None] exactly when the request raises
    [HttpError], and fails on iterating over [None] exactly when the answer
    has no ['values'] key, as for an empty sheet: that failure is not
    caught. It fails in no other way, and whenever it returns a list the
    list is the flattening of the answered rows. *)
Theorem get_all_data_outcomes {A}
    (execute_get : string -> string -> SheetManager.GetAnswer A)
    (spreadsheet_id : string) :
  (SheetManager.get_all_data execute_get spreadsheet_id = SheetManager.Ok None
   <-> execute_get spreadsheet_id "A:ZZZ" = SheetManager.GetHttpError)
  /\ (SheetManager.get_all_data execute_get spreadsheet_id
      = SheetManager.Err SheetManager.NotIterable
      <-> execute_get spreadsheet_id "A:ZZZ" = SheetManager.GetValues None)
  /\ (forall e,
        SheetManager.get_all_data execute_get spreadsheet_id
        = SheetManager.Err e ->
        e = SheetManager.NotIterable)
  /\ (forall values,
        SheetManager.get_all_data execute_get spreadsheet_id
        = SheetManager.Ok (Some values) ->
        exists data,
          execute_get spreadsheet_id "A:ZZZ"
          = SheetManager.GetValues (Some data)
          /\ values = SheetManager.flatten data).
Proof.
  unfold SheetManager.get_all_data, SheetManager.gather.
  destruct (execute_get spreadsheet_id "A:ZZZ") as [| [data |]].
  - repeat split; intros; congruence.
  - repeat split; intros; try congruence.
    exists data. split; [reflexivity |].
    match goal with H : SheetManager.Ok _ = SheetManager.Ok _ |- _ =>
      injection H as <- end.
    unfold SheetManager.lists_to_list.
    by rewrite lists_to_list_item_spec.
  - repeat split; intros; congruence.
Qed.

Lemma get_all_data_outcomes_witness :
  SheetManager.get_all_data
    (fun _ _ => @SheetManager.GetValues string None) "sheet"
  = SheetManager.Err SheetManager.NotIterable.
Proof.
  apply (proj2 (proj1 (proj2 (get_all_data_outcomes
                                (fun _ _ => @SheetManager.GetValues string None)
                                "sheet")))).
  reflexivity.
Defined.

(** ** The sheet manager: flattening *)

Lemma flatten_app {A} (a b : list (SheetManager.item A)) :
  SheetManager.flatten (a ++ b)
  = (SheetManager.flatten a ++ SheetManager.flatten b)%list.
Proof.
  unfold SheetManager.flatten. simpl.
  induction a as [| x a IH]; simpl; [reflexivity |].
  by rewrite IH, app_assoc.
Qed.

Lemma flatten_leaves {A} (l : list A) :
  SheetManager.flatten (map SheetManager.Leaf l) = l.
Proof.
  unfold SheetManager.flatten. simpl.
  induction l as [| x l IH]; simpl; [reflexivity |]. by rewrite IH.
Qed.

(** X24. [lists_to_list] distributes over concatenation, leaves a list
    without nesting as it is, gives the same list when what it returned is
    gathered again, and gives for a list wrapped in one more list what it
    gives for the list; the accumulator, when passed, stays in front. *)
Theorem lists_to_list_algebra {A} (a b : list (SheetManager.item A))
    (flat : list A) (values : list A) :
  SheetManager.lists_to_list (a ++ b) None
  = (SheetManager.lists_to_list a None
     ++ SheetManager.lists_to_list b None)%list
  /\ SheetManager.lists_to_list (map SheetManager.Leaf flat) None = flat
  /\ SheetManager.lists_to_list
       (map SheetManager.Leaf (SheetManager.lists_to_list a None)) None
     = SheetManager.lists_to_list a None
  /\ SheetManager.lists_to_list [SheetManager.Nested a] None
     = SheetManager.lists_to_list a None
  /\ SheetManager.lists_to_list (a ++ b) (Some values)
     = SheetManager.lists_to_list b
         (Some (SheetManager.lists_to_list a (Some values))).
Proof.
  unfold SheetManager.lists_to_list. rewrite !lists_to_list_item_spec.
  simpl default. rewrite !app_nil_l.
  change (SheetManager.flatten (a ++ b)
          = (SheetManager.flatten a ++ SheetManager.flatten b)%list
          /\ SheetManager.flatten (map SheetManager.Leaf flat) = flat
          /\ SheetManager.flatten
               (map SheetManager.Leaf (SheetManager.flatten a))
             = SheetManager.flatten a
          /\ SheetManager.flatten [SheetManager.Nested a]
             = SheetManager.flatten a
          /\ (values ++ SheetManager.flatten (a ++ b))%list
             = ((values ++ SheetManager.flatten a)
                ++ SheetManager.flatten b)%list).
  rewrite flatten_app, !flatten_leaves, app_assoc.
  repeat split. unfold SheetManager.flatten. simpl. by rewrite app_nil_r.
Qed.

(** ** Creating a text area *)

(** X25. [create_text_area] ends in one of three ways: it raises
    [FieldAlreadyExist], or returns [None], with the store as it was; or it
    returns the basic dump of the new field, which is never strict, has the
    next primary key and is the one row added to the store, at the end of
    the Field table. *)
Theorem create_text_area_outcomes
    (C : Collab) (name : string) (owner_id field_type : Z) (w : World) :
  let r := FieldService.create_text_area C name owner_id field_type w in
  let f := mkField (next_id (store w)) name owner_id field_type false in
  (fst r = Raise FieldAlreadyExist /\ store (snd r) = store w)
  \/ (fst r = Return None /\ store (snd r) = store w)
  \/ (fst r = Return (Some (dump C BasicField (Some f)))
      /\ store (snd r)
         = bump (with_fields (store w) (fields (store w) ++ [f]))).
Proof.
  unfold FieldService.create_text_area, FieldService.create,
    transaction_decorator, FieldService.session_add.
  unfold_monad. simpl.
  repeat case_match; simplify_eq; simpl; auto.
Qed.

(** ** Updates: an addition that fails *)

Lemma for_each_app {A} (a b : list A) (body : A -> M unit) (w : World) :
  for_each (a ++ b) body w
  = bind (for_each a body) (fun _ => for_each b body) w.
Proof.
  revert w. induction a as [| x a IH]; intros w; simpl; [reflexivity |].
  rewrite bind_assoc. unfold bind at 1 2.
  destruct (body x w) as [[u | e] w1]; [apply IH | reflexivity].
Qed.

(** The addition loop stops at the first option that is not created. *)
Lemma add_choice_options_fails (C : Collab) (f : Field)
    (before : list string) (x : string) (after : list string)
    (w1 w2 w3 : World) :
  FieldService.add_choice_options C (Some f) (Some before) w1
  = (Return tt, w2) ->
  ChoiceOptionService.create C (f_id f) x w2 = (Return None, w3) ->
  FieldService.add_choice_options C (Some f) (Some (before ++ x :: after)%list) w1
  = (Raise ChoiceOptionNotCreated, w3).
Proof.
  unfold FieldService.add_choice_options. intros Hbefore Hcreate.
  assert (Htruthy : truthy (Some (before ++ x :: after)%list) = true)
    by (by destruct before).
  rewrite Htruthy. simpl items in *. rewrite for_each_app.
  assert (Hloop : for_each before (fun added_option =>
            let* fid := attr (Some f) f_id in
            let* option_update :=
              ChoiceOptionService.create C fid added_option in
            match option_update with
            | None => raise ChoiceOptionNotCreated
            | Some _ => ret tt
            end) w1 = (Return tt, w2)).
  { destruct before; [by injection Hbefore as -> | exact Hbefore]. }
  rewrite (bind_ret _ _ _ _ _ Hloop). simpl.
  erewrite bind_raise; [reflexivity |].
  erewrite bind_ret by reflexivity.
  by rewrite (bind_ret _ _ _ _ _ Hcreate).
Qed.

(** X26. When, after the base update, some option to add is not created
    (the store returns [None] for it), [update_radio_field] raises
    [ChoiceOptionNotCreated], and so does [update_checkbox_field] called
    without a change of range; the store is the one before the call, so the
    options added before the failing one are gone again, and no option is
    removed. *)
Theorem update_add_failure_rolls_back
    (C : Collab) (field_id : Z) (name : option string)
    (before : list string) (x : string) (after : list string)
    (removed : option (list string)) (w w1 : World) (f : Field) :
  FieldService.update C field_id name None None None w
  = (Return (Some f), w1) ->
  (forall w2 w3,
     FieldService.add_choice_options C (Some f) (Some before) w1
     = (Return tt, w2) ->
     ChoiceOptionService.create C (f_id f) x w2 = (Return None, w3) ->
     FieldService.update_radio_field C field_id name
       (Some (before ++ x :: after)%list) removed w
     = (Raise ChoiceOptionNotCreated, mkWorld (store w) (trace w3)))
  /\ (forall w2 w3,
        FieldService.add_choice_options C (Some f) (Some before)
          (mkWorld (store w1) (trace w1 ++ [FieldRange_get_by_field_id]))
        = (Return tt, w2) ->
        ChoiceOptionService.create C (f_id f) x w2 = (Return None, w3) ->
        FieldService.update_checkbox_field C field_id name None None false
          (Some (before ++ x :: after)%list) removed w
        = (Raise ChoiceOptionNotCreated, mkWorld (store w) (trace w3))).
Proof.
  intros Hupdate. split.
  - intros w2 w3 Hbefore Hcreate.
    pose proof (add_choice_options_fails C f before x after w1 w2 w3 Hbefore
                  Hcreate) as Hadd.
    unfold FieldService.update_radio_field. apply decorator_raise.
    rewrite (bind_ret _ _ _ _ _ Hupdate).
    by rewrite (bind_raise _ _ _ _ _ Hadd).
  - intros w2 w3 Hbefore Hcreate.
    pose proof (add_choice_options_fails C f before x after _ w2 w3 Hbefore
                  Hcreate) as Hadd.
    unfold FieldService.update_checkbox_field. apply decorator_raise.
    rewrite (bind_ret _ _ _ _ _ Hupdate).
    erewrite bind_ret by reflexivity.
    erewrite bind_ret by apply FieldRange_get_by_field_id_run.
    erewrite bind_ret by reflexivity.
    by rewrite (bind_raise _ _ _ _ _ Hadd).
Qed.

Lemma update_add_failure_rolls_back_witness :
  let C := mkCollab
             (fun d => bool_decide (NoDup (map co_option_text
                                              (choice_options d))))
             Reference.FieldType_value Reference.dump in
  fst (FieldService.update_radio_field C 1 None
         (Some ["black"; "red"; "white"]) None sample_world)
  = Raise ChoiceOptionNotCreated
  /\ store (snd (FieldService.update_radio_field C 1 None
                   (Some ["black"; "red"; "white"]) None sample_world))
     = store sample_world.
Proof.
  intros C.
  pose proof (proj1 (update_add_failure_rolls_back C 1 None ["black"] "red"
                       ["white"] None sample_world
                       (snd (FieldService.update C 1 None None None None
                               sample_world))
                       (mkField 1 "color" 1 4 false)
                       ltac:(vm_compute; reflexivity))
                (snd (FieldService.add_choice_options C
                        (Some (mkField 1 "color" 1 4 false)) (Some ["black"])
                        (snd (FieldService.update C 1 None None None None
                                sample_world))))
                (snd (ChoiceOptionService.create C 1 "red"
                        (snd (FieldService.add_choice_options C
                                (Some (mkField 1 "color" 1 4 false))
                                (Some ["black"])
                                (snd (FieldService.update C 1 None None None
                                        None sample_world))))))
                ltac:(vm_compute; reflexivity)
                ltac:(vm_compute; reflexivity)) as Hrun.
  change (["black"] ++ ["red"; "white"])%list with ["black"; "red"; "white"]
    in Hrun.
  rewrite Hrun. split; reflexivity.
Defined.

(** ** Creating a checkbox field with a range *)

(** X27. On a store that accepts every commit and in which the ids to be
    handed out are fresh, and for a radio schema that dumps an empty
    [choiceOptions] list, [create_checkbox_field] with a non-empty list of
    options and at least one bound returns a mapping that has the options in
    input order under [choiceOptions] and the two bounds under [range];
    afterwards the new field is linked to a range with these bounds and has
    one option row per option, in order. *)
Theorem create_checkbox_field_with_range
    (C : Collab) (name : string) (owner_id field_type : Z)
    (opts : list string) (is_strict : bool) (range_min range_max : option Z)
    (w : World) :
  (forall d, integrity C d = true) ->
  (forall f, dump C FieldRadioSchema (Some f) !! "choiceOptions"
             = Some (VList [])) ->
  opts <> [] ->
  is_not_None range_min || is_not_None range_max = true ->
  Forall (fun l => fr_field_id l <> next_id (store w))
         (field_ranges (store w)) ->
  Forall (fun r => r_id r <> next_id (store w) + 1) (ranges (store w)) ->
  Forall (fun o => co_field_id o <> next_id (store w))
         (choice_options (store w)) ->
  exists data w',
    FieldService.create_checkbox_field C name owner_id field_type (Some opts)
      is_strict range_min range_max w
    = (Return (Some data), w')
    /\ data !! "choiceOptions" = Some (VList opts)
    /\ data !! "range" = Some (VRange range_min range_max)
    /\ stored_range (store w') (next_id (store w))
       = Some (VRange range_min range_max)
    /\ map co_option_text
           (List.filter (fun o => co_field_id o =? next_id (store w))
                        (choice_options (store w')))
       = opts.
Proof.
  intros Hcommit Hdump Hopts Hbounds Hlinks Hranges Hoptions.
  pose proof (Field_create_commits C name owner_id field_type is_strict w
                Hcommit) as Hcreate.
  simpl in Hcreate.
  set (f := mkField (next_id (store w)) name owner_id field_type is_strict)
    in *.
  set (w1 := mkWorld (bump (with_fields (store w) (fields (store w) ++ [f])))
                     (trace w ++ [Field_add])) in *.
  pose proof (Range_create_commits C range_min range_max w1 Hcommit) as Hrange.
  simpl in Hrange.
  set (r := mkRange (next_id (store w) + 1) range_min range_max) in *.
  set (w2 := mkWorld (bump (with_ranges (store w1) (ranges (store w1) ++ [r])))
                     (trace w1 ++ [Range_create])) in *.
  pose proof (FieldRange_create_commits C (next_id (store w))
                (next_id (store w) + 1) w2 Hcommit) as Hlink.
  simpl in Hlink.
  set (l := mkFieldRange (next_id (store w)) (next_id (store w) + 1)) in *.
  set (w3 := mkWorld (with_field_ranges (store w2)
                        (field_ranges (store w2) ++ [l]))
                     (trace w2 ++ [FieldRange_create])) in *.
  destruct (choice_loop_commits C f opts Hcommit
              (<["range" := VRange range_min range_max]>
                 (dump C FieldRadioSchema (Some f))) [] w3)
    as (w4 & rows & Hloop & Hrows & Htexts & Hfield & _ & Hl & Hr).
  { rewrite lookup_insert_ne by discriminate. apply Hdump. }
  simpl in Hloop.
  eexists _, w4. split; [| split; [| split; [| split]]].
  - unfold FieldService.create_checkbox_field.
    apply decorator_commit; [exact Hcommit |].
    assert (Htruthy : truthy (Some opts) = true) by (by destruct opts).
    rewrite Htruthy. simpl.
    rewrite (bind_ret _ _ _ _ _ Hcreate). simpl. rewrite Hbounds.
    erewrite bind_ret;
      [| rewrite (bind_ret _ _ _ _ _ Hrange);
         do 2 (erewrite bind_ret by reflexivity);
         rewrite (bind_ret _ _ _ _ _ Hlink); reflexivity].
    exact Hloop.
  - apply lookup_insert_eq.
  - rewrite lookup_insert_ne by discriminate. apply lookup_insert_eq.
  - unfold stored_range. rewrite Hl, Hr. simpl.
    rewrite (find_app_fresh _ _ l);
      [| by apply (Forall_key_false fr_field_id) | apply Z.eqb_refl].
    simpl.
    rewrite (find_app_fresh _ _ r);
      [reflexivity | by apply (Forall_key_false r_id) | apply Z.eqb_refl].
  - rewrite Hrows. simpl. rewrite filter_fresh_app; assumption.
Qed.

Lemma create_checkbox_field_with_range_witness :
  let C := mkCollab (fun _ => true) Reference.FieldType_value Reference.dump in
  exists data w',
    FieldService.create_checkbox_field C "toppings" 1 6 (Some ["a"; "b"])
      false (Some 1) (Some 2) sample_world
    = (Return (Some data), w')
    /\ data !! "choiceOptions" = Some (VList ["a"; "b"])
    /\ data !! "range" = Some (VRange (Some 1) (Some 2)).
Proof.
  intros C.
  destruct (create_checkbox_field_with_range C "toppings" 1 6 ["a"; "b"] false
              (Some 1) (Some 2) sample_world)
    as (data & w' & Hrun & Hoptions & Hrange & _).
  - reflexivity.
  - intros f. reflexivity.
  - discriminate.
  - reflexivity.
  - rewrite sample_world_store. simpl. repeat constructor; discriminate.
  - rewrite sample_world_store. simpl. repeat constructor; discriminate.
  - rewrite sample_world_store. simpl. repeat constructor; discriminate.
  - exists data, w'. repeat split; assumption.
Defined.

(** ** Removing an option in an update *)

Lemma ChoiceOption_delete_commits (C : Collab) (option_id : Z) (w : World)
    (y : ChoiceOption) :
  (forall d, integrity C d = true) ->
  find (fun a => co_id a =? option_id) (choice_options (store w)) = Some y ->
  ChoiceOptionService.delete C option_id w
  = (Return (Some true),
     mkWorld (with_choice_options (store w)
                (List.filter (fun a => negb (co_id a =? option_id))
                             (choice_options (store w))))
             (trace w ++ [ChoiceOption_delete])).
Proof.
  intros Hcommit Hy.
  unfold ChoiceOptionService.delete, transaction_decorator.
  unfold_monad. simpl. rewrite Hy. simpl. by rewrite Hcommit.
Qed.

Lemma filter_filter_comm {A} (P Q : A -> bool) (l : list A) :
  List.filter P (List.filter Q l) = List.filter Q (List.filter P l).
Proof.
  induction l as [| a l IH]; simpl; [reflexivity |].
  destruct (P a) eqn:HP, (Q a) eqn:HQ; simpl; rewrite ?HP, ?HQ, ?IH;
    reflexivity.
Qed.

Lemma filter_key_absent {A} (key : A -> Z) (k : Z) (l : list A) :
  ~ In k (map key l) ->
  List.filter (fun a => negb (key a =? k)) l = l.
Proof.
  induction l as [| a l IH]; simpl; [reflexivity |].
  intros Hnotin. destruct (key a =? k) eqn:Ha.
  - apply Z.eqb_eq in Ha. tauto.
  - simpl. f_equal. apply IH. tauto.
Qed.

(** Filtering out the key of a member of a list without duplicate keys
    takes exactly one element away. *)
Lemma filter_removes_one {A} (key : A -> Z) (o : A) (l : list A) :
  List.NoDup (map key l) -> In o l ->
  (length (List.filter (fun a => negb (key a =? key o)%Z) l) + 1
   = length l)%nat.
Proof.
  induction l as [| a l IH]; simpl; [tauto |].
  intros Hnodup Hin. apply List.NoDup_cons_iff in Hnodup as [Hnotin Hrest].
  destruct Hin as [-> | Hin].
  - rewrite Z.eqb_refl. simpl. rewrite filter_key_absent by exact Hnotin. lia.
  - destruct (key a =? key o) eqn:Ha; simpl.
    + apply Z.eqb_eq in Ha. exfalso. apply Hnotin. rewrite Ha.
      by apply in_map.
    + rewrite <- (IH Hrest Hin). lia.
Qed.

Lemma option_keys_filtered (P : ChoiceOption -> bool) (l : list ChoiceOption) :
  List.NoDup (map co_id l) -> List.NoDup (map co_id (List.filter P l)).
Proof.
  induction l as [| a l IH]; simpl; [auto |].
  intros Hnodup. apply List.NoDup_cons_iff in Hnodup as [Hnotin Hrest].
  destruct (P a); simpl; [| auto].
  apply List.NoDup_cons; [| auto].
  intros Hin. apply Hnotin.
  apply in_map_iff in Hin as (b & Hb & Hin).
  apply filter_In in Hin as [Hin _].
  apply in_map_iff. eauto.
Qed.

(** X28. On a store that accepts every commit, [update_radio_field] with
    nothing to add and one option to remove, on a Radio or Checkbox field
    that has an option with that text, returns a mapping whose
    [choiceOptions] are the texts of the field's option rows, in table
    order, without the rows that have the id of the first row with that
    text (some row being left); when option ids are unique that is exactly
    one row less. The members of [FieldType] are taken to have distinct
    values. *)
Theorem update_radio_field_removes
    (C : Collab) (field_id : Z) (name : option string) (x : string)
    (t : FieldType) (w : World) (old : Field) (o : ChoiceOption) :
  (forall d, integrity C d = true) ->
  Inj (=) (=) (FieldType_value C) ->
  find (fun g => f_id g =? field_id) (fields (store w)) = Some old ->
  f_field_type old = FieldType_value C t ->
  t = Radio \/ t = Checkbox ->
  find (fun r => (co_field_id r =? field_id)
                 && bool_decide (co_option_text r = x))
       (choice_options (store w)) = Some o ->
  let of_field :=
    List.filter (fun r => co_field_id r =? field_id)
                (choice_options (store w)) in
  let remaining :=
    List.filter (fun r => negb (co_id r =? co_id o)) of_field in
  remaining <> [] ->
  exists data w',
    FieldService.update_radio_field C field_id name None (Some [x]) w
    = (Return (Some data), w')
    /\ data !! "choiceOptions" = Some (VList (map co_option_text remaining))
    /\ (NoDup (map co_id (choice_options (store w))) ->
        (length remaining + 1 = length of_field)%nat).
Proof.
  intros Hcommit Hinj Hold Htype Ht Hlookup of_field remaining Hleft.
  destruct (Field_update_commits C field_id name None w old Hcommit Hold)
    as [Hid Hupdate].
  simpl in Hupdate. rewrite Hid in Hupdate.
  set (f := mkField field_id _ _ _ _) in Hupdate.
  set (w1 := mkWorld _ _) in Hupdate.
  set (w1' := mkWorld (store w1)
                      (trace w1 ++ [ChoiceOption_get_by_field_and_text])).
  pose proof (find_some _ _ Hlookup) as [Hin Hmatch].
  apply andb_true_iff in Hmatch as [Hfield _].
  destruct (find_same_key co_id (choice_options (store w)) o Hin) as [y Hy].
  set (w2 := mkWorld
               (with_choice_options (store w1')
                  (List.filter (fun a => negb (co_id a =? co_id o))
                               (choice_options (store w1'))))
               (trace w1' ++ [ChoiceOption_delete])).
  assert (Hdelete :
    ChoiceOptionService.delete C (co_id o) w1' = (Return (Some true), w2))
    by (by apply (ChoiceOption_delete_commits C (co_id o) w1' y)).
  assert (Hfilter :
    List.filter (fun r => co_field_id r =? field_id)
                (choice_options (store w2)) = remaining).
  { simpl. apply filter_filter_comm. }
  destruct remaining as [| r rs] eqn:Hremaining; [congruence |].
  destruct (choice_answer C field_id t w2 r rs Hinj Ht Hfilter)
    as (again & Hread & Hagain & _).
  destruct (FieldService.get_additional_options C field_id
              (FieldType_value C t) w2) as [outcome w3] eqn:Hrun.
  simpl in Hread. subst outcome.
  exists (again ∪ dump C FieldRadioSchema (Some f)), w3.
  split; [| split].
  - unfold FieldService.update_radio_field.
    apply decorator_commit; [exact Hcommit |].
    rewrite (bind_ret _ _ _ _ _ Hupdate).
    erewrite bind_ret by reflexivity.
    erewrite bind_ret.
    2: { unfold FieldService.remove_choice_options. simpl.
         erewrite bind_ret; [reflexivity |].
         erewrite bind_ret by reflexivity.
         erewrite bind_ret by reflexivity.
         simpl. rewrite Hlookup.
         erewrite bind_ret by reflexivity.
         by rewrite (bind_ret _ _ _ _ _ Hdelete). }
    unfold FieldService.merge_additional_options.
    do 2 (erewrite bind_ret by reflexivity).
    simpl. rewrite Htype.
    by rewrite (bind_ret _ _ _ _ _ Hrun).
  - apply lookup_union_Some_l. by rewrite Hagain.
  - intros Hnodup. rewrite <- Hremaining.
    apply (filter_removes_one co_id).
    + apply option_keys_filtered. by apply NoDup_ListNoDup.
    + apply filter_In. by split.
Qed.

Lemma update_radio_field_removes_witness :
  let C := mkCollab (fun _ => true) Reference.FieldType_value Reference.dump in
  exists data w',
    FieldService.update_radio_field C 1 None None (Some ["green"]) sample_world
    = (Return (Some data), w')
    /\ data !! "choiceOptions" = Some (VList ["red"; "blue"]).
Proof.
  intros C.
  destruct (update_radio_field_removes C 1 None "green" Radio sample_world
              (mkField 1 "color" 1 4 false) (mkChoiceOption 3 1 "green"))
    as (data & w' & Hrun & Hoptions & _).
  - reflexivity.
  - apply Reference_values_distinct.
  - rewrite sample_world_store. reflexivity.
  - reflexivity.
  - by left.
  - rewrite sample_world_store. reflexivity.
  - rewrite sample_world_store. discriminate.
  - exists data, w'. split; [exact Hrun |].
    rewrite sample_world_store in Hoptions. exact Hoptions.
Defined.
